(** * Outline extraction, section segmentation, deduplication and ranking

    A shallow embedding of the Python pipeline of this repository
    (1a/main.py, 1b/src/outline_extractor.py, 1b/src/section_extractor.py,
    1b/src/main.py, 1b/src/ranker.py) and the properties of its
    specification.

    Conventions of the embedding.
    - A Python [str] is a list of Unicode code points ([char := N]), so that
      [len] is [length] and slicing is [firstn].
    - A Python [float] is a rational ([Q]) where only its order matters and
      no rounding can change it; the quality of a section, whose comparison
      rounding does change, is an IEEE 754 double ([double]).
    - The Unicode character database (case mapping, [isalpha], the regex
      classes [\d] and [\w]) is a type class: every theorem holds for every
      instance; concrete runs use the ASCII instance.
    - A function that can raise returns [option]; [None] is the exception. *)

From Stdlib Require Import QArith Qround Sorted.
From Stdlib Require SpecFloat.
From stdpp Require Import gmap list strings.

Local Open Scope Z_scope.

(** ** Python strings *)

Definition char := N.
Definition str := list char.

(** An ASCII literal as a [str]. *)
Definition py (s : string) : str :=
  map (fun a => Ascii.N_of_ascii a) (String.list_ascii_of_string s).

Definition chr_in (lo hi : N) (c : char) : bool :=
  ((lo <=? c) && (c <=? hi))%N.

(** [str.isspace] of one character, which is also the class [\s] of [re] on
    [str] patterns: U+0009..U+000D, U+001C..U+0020, U+0085, U+00A0, U+1680,
    U+2000..U+200A, U+2028, U+2029, U+202F, U+205F, U+3000. *)
Definition isspace (c : char) : bool :=
  chr_in 9 13 c || chr_in 28 32 c || (c =? 133)%N || (c =? 160)%N
  || (c =? 5760)%N || chr_in 8192 8202 c || (c =? 8232)%N || (c =? 8233)%N
  || (c =? 8239)%N || (c =? 8287)%N || (c =? 12288)%N.

Definition is_az (c : char) : bool := chr_in 97 122 c.
Definition is_AZ (c : char) : bool := chr_in 65 90 c.
Definition is_09 (c : char) : bool := chr_in 48 57 c.

Definition SP : char := 32%N.
Definition LF : char := 10%N.
Definition CR : char := 13%N.
Definition TAB : char := 9%N.

(** The maximal runs of characters of the class [cls], left to right. *)
Fixpoint runs (cls : char -> bool) (s : str) : list str :=
  match s with
  | [] => []
  | c :: s' =>
      if cls c then
        match s' with
        | [] => [[c]]
        | c' :: _ =>
            if cls c' then
              match runs cls s' with
              | w :: ws => (c :: w) :: ws
              | [] => [[c]]
              end
            else [c] :: runs cls s'
        end
      else runs cls s'
  end.

Definition nonspace (c : char) : bool := negb (isspace c).

(** [s.split()]: the maximal runs of non-whitespace characters. *)
Definition split (s : str) : list str := runs nonspace s.

(** [re.sub(cls+, " ", s)]: every maximal run of [cls] becomes one space. *)
Fixpoint sub_runs (cls : char -> bool) (s : str) : str :=
  match s with
  | [] => []
  | c :: s' =>
      if cls c then
        match s' with
        | [] => [SP]
        | c' :: _ => if cls c' then sub_runs cls s' else SP :: sub_runs cls s'
        end
      else c :: sub_runs cls s'
  end.

(** [sep.join(parts)]. *)
Fixpoint join (sep : str) (parts : list str) : str :=
  match parts with
  | [] => []
  | [p] => p
  | p :: ps => p ++ sep ++ join sep ps
  end.

Fixpoint lstrip (s : str) : str :=
  match s with
  | c :: s' => if isspace c then lstrip s' else s
  | [] => []
  end.

Definition rstrip (s : str) : str := rev (lstrip (rev s)).

(** [s.strip()]. *)
Definition strip (s : str) : str := rstrip (lstrip s).

(** [s.startswith(p)]. *)
Fixpoint startswith (p s : str) : bool :=
  match p, s with
  | [], _ => true
  | a :: p', b :: s' => (a =? b)%N && startswith p' s'
  | _ :: _, [] => false
  end.

(** [p in s] for strings. *)
Fixpoint contains (p s : str) : bool :=
  startswith p s ||
  match s with
  | [] => false
  | _ :: s' => contains p s'
  end.

(** [l[start:stop]] for [0 <= start]. *)
Definition slice {A} (start stop : nat) (l : list A) : list A :=
  firstn (stop - start) (skipn start l).

(** ** Regular expressions used as tests

    [re.match(p, s)] used as a condition only asks whether some prefix of [s]
    matches [p], which derivatives decide whatever the order in which the
    backtracking engine tries the alternatives. *)
Inductive re :=
| RNone
| REps
| RCls (cls : char -> bool)
| RCat (a b : re)
| RAlt (a b : re)
| RStar (a : re).

Definition rchr (c : char) : re := RCls (fun x => (x =? c)%N).
Definition rplus (a : re) : re := RCat a (RStar a).
Definition ropt (a : re) : re := RAlt a REps.
Fixpoint rseq (l : list re) : re :=
  match l with
  | [] => REps
  | [a] => a
  | a :: l' => RCat a (rseq l')
  end.

Fixpoint nullable (r : re) : bool :=
  match r with
  | RNone => false
  | REps => true
  | RCls _ => false
  | RCat a b => nullable a && nullable b
  | RAlt a b => nullable a || nullable b
  | RStar _ => true
  end.

Fixpoint deriv (c : char) (r : re) : re :=
  match r with
  | RNone => RNone
  | REps => RNone
  | RCls cls => if cls c then REps else RNone
  | RCat a b =>
      if nullable a then RAlt (RCat (deriv c a) b) (deriv c b)
      else RCat (deriv c a) b
  | RAlt a b => RAlt (deriv c a) (deriv c b)
  | RStar a => RCat (deriv c a) (RStar a)
  end.

(** The whole of [s] matches [r]. *)
Fixpoint re_full (r : re) (s : str) : bool :=
  match s with
  | [] => nullable r
  | c :: s' => re_full (deriv c r) s'
  end.

(** [re.match(r, s)] finds a match: a prefix of [s] matches [r]. *)
Fixpoint re_match (r : re) (s : str) : bool :=
  nullable r ||
  match s with
  | [] => false
  | c :: s' => re_match (deriv c r) s'
  end.

(** [re.match] of a pattern that ends in [$]: the match ends at the end of
    [s] or just before a final newline. *)
Definition re_match_eol (r : re) (s : str) : bool :=
  re_full (RCat r (ropt (rchr 10%N))) s.

(** The part of the Unicode character database the code consults. *)
Class UnicodeDB := {
  str_lower : str -> str;          (* s.lower() *)
  str_isupper : str -> bool;       (* s.isupper() *)
  str_isdigit : str -> bool;       (* s.isdigit() *)
  chr_isalpha : char -> bool;      (* c.isalpha() *)
  re_digit : char -> bool;         (* the class \d *)
  re_word : char -> bool           (* the class \w *)
}.

(** The database restricted to ASCII: characters above U+007F are caseless
    and belong to no class. *)
Definition ascii_lower_chr (c : char) : char :=
  if is_AZ c then (c + 32)%N else c.

Definition ascii_db : UnicodeDB := {|
  str_lower := map ascii_lower_chr;
  str_isupper := fun s => existsb is_AZ s && negb (existsb is_az s);
  str_isdigit := fun s => negb (bool_decide (s = [])) && forallb is_09 s;
  chr_isalpha := fun c => is_az c || is_AZ c;
  re_digit := is_09;
  re_word := fun c => is_az c || is_AZ c || is_09 c || (c =? 95)%N
|}.

(** ** Floats as rationals *)

Definition Qleb (a b : Q) : bool := Qle_bool a b.
Definition Qltb (a b : Q) : bool := negb (Qle_bool b a).
Definition Qeqb (a b : Q) : bool := Qeq_bool a b.
Definition Qmin (a b : Q) : Q := if Qleb a b then a else b.

(** ** Doubles

    An IEEE 754 binary64 number: precision 53, maximal exponent 1024, every
    operation rounded to nearest, ties to even, as CPython computes. *)

Definition double := SpecFloat.spec_float.

Definition dadd : double -> double -> double := SpecFloat.SFadd 53 1024.
Definition dmul : double -> double -> double := SpecFloat.SFmul 53 1024.
Definition ddiv : double -> double -> double := SpecFloat.SFdiv 53 1024.
(** [x < y]; false when one of them is not a number. *)
Definition dltb : double -> double -> bool := SpecFloat.SFltb.

(** [float(n)] of an integer: the nearest double.  Where that is infinite
    Python raises [OverflowError] instead ([int_overflows]). *)
Definition double_of_int (n : Z) : double :=
  SpecFloat.binary_normalize 53 1024 n 0 false.
Definition int_overflows (n : Z) : bool :=
  match double_of_int n with
  | SpecFloat.S754_infinity _ => true
  | _ => false
  end.

(** The decimal literal [num/den], [den] a power of ten: the double nearest
    to that fraction, which the correctly rounded division of the two
    integers gives. *)
Definition decimal (num den : Z) : double :=
  ddiv (double_of_int num) (double_of_int den).

(** ** Section records (1b/src/section_extractor.py, 1b/src/main.py)

    The keys a section dict has before ranking.  The fallback section of
    [extract_sections] has no [level] key; [document] is added by [main]. *)
Record Sec := mkSec {
  sec_title : str;
  sec_text : str;
  sec_page_number : Z;
  sec_level : option str;
  sec_document : option str
}.

#[global] Instance Sec_inhabited : Inhabited Sec :=
  populate (mkSec [] [] 1 None None).

(** ** Cross-document deduplication (1b/src/main.py) *)

Section Dedup.
Context {U : UnicodeDB}.

Definition _normalize_text_for_hash (text : str) : list str :=
  let text := str_lower text in
  let text :=
    map (fun c => if is_az c || is_09 c || isspace c then c else SP) text in
  filter (fun t => (3 <=? length t)%nat = true) (split text).

Definition _jaccard (a b : gset str) : Q :=
  if bool_decide (a = ∅) && bool_decide (b = ∅) then 1%Q
  else if bool_decide (a = ∅) || bool_decide (b = ∅) then 0%Q
  else (inject_Z (Z.of_nat (size (a ∩ b)))
        / inject_Z (Z.max 1 (Z.of_nat (size (a ∪ b)))))%Q.

Definition level_or_H3 (s : Sec) : str :=
  default (py "H3") (sec_level s).

(** [_section_quality] (lines 99-104), in doubles: [min(length, 4000) / 4000]
    is the true division of two integers and [1.0 / max(1, page_number)]
    converts the integer first.  A page number with [int_overflows] makes
    Python raise there; what is proved about the quality leaves it out. *)
Definition _section_quality (s : Sec) : double :=
  let length := Z.of_nat (length (sec_text s)) in
  let level := level_or_H3 s in
  let level_score :=
    if bool_decide (level = py "H1") then double_of_int 1
    else if bool_decide (level = py "H2") then decimal 8 10
    else decimal 6 10 in
  let early_page_bonus :=
    ddiv (double_of_int 1) (double_of_int (Z.max 1 (sec_page_number s))) in
  dadd (dadd (dmul level_score (decimal 5 10))
             (dmul (ddiv (double_of_int (Z.min length 4000))
                         (double_of_int 4000))
                   (decimal 4 10)))
       (dmul early_page_bonus (decimal 1 10)).

(** [kept.remove(k)]: drops the first occurrence. *)
Fixpoint list_remove (k : nat) (kept : list nat) : list nat :=
  match kept with
  | [] => []
  | j :: kept' => if (j =? k)%nat then kept' else j :: list_remove k kept'
  end.

Section Loop.
Variable sections : list Sec.
Variable normalized_sets : list (gset str).
Variable similarity_threshold : Q.

(** The inner [for k_idx in kept] up to its [break]: the first kept index
    whose token set is similar enough to that of section [i]. *)
Definition first_dup (i : nat) (kept : list nat) : option nat :=
  find (fun k_idx =>
          Qleb similarity_threshold
            (_jaccard (normalized_sets !!! i) (normalized_sets !!! k_idx)))
       kept.

(** One iteration of [for i, s in enumerate(sections)]. *)
Definition dedup_step (kept : list nat) (i : nat) : list nat :=
  match first_dup i kept with
  | Some k_idx =>
      if dltb (_section_quality (sections !!! k_idx))
              (_section_quality (sections !!! i))
      then list_remove k_idx kept ++ [i]
      else kept
  | None => kept ++ [i]
  end.
End Loop.

(** [set(_normalize_text_for_hash(s.get('text', '')))]. *)
Definition token_set (s : Sec) : gset str :=
  list_to_set (_normalize_text_for_hash (sec_text s)).

Definition deduplicate_sections
    (sections : list Sec) (similarity_threshold : Q) : list Sec :=
  let normalized_sets : list (gset str) := map token_set sections in
  let kept :=
    fold_left (dedup_step sections normalized_sets similarity_threshold)
              (seq 0 (length sections)) [] in
  map (fun i => sections !!! i) kept.
End Dedup.

(** ** Snippet selection (1b/src/ranker.py) *)

Definition BULLET : char := 8226%N.      (* U+2022 *)
Definition MIDDOT : char := 183%N.       (* U+00B7 *)
Definition HYPHEN : char := 45%N.

(** [max(range(len(keys)), key=...)] and [min(range(len(keys)), key=...)]:
    the first index whose key is the best; [None] on an empty range, where
    Python raises [ValueError]. *)
Fixpoint first_best_from {K} (better : K -> K -> bool) (keys : list K)
    (i best : nat) (best_key : K) : nat :=
  match keys with
  | [] => best
  | k :: keys' =>
      if better k best_key
      then first_best_from better keys' (S i) i k
      else first_best_from better keys' (S i) best best_key
  end.

Definition first_best {K} (better : K -> K -> bool) (keys : list K)
    : option nat :=
  match keys with
  | [] => None
  | k :: keys' => Some (first_best_from better keys' 1 0 k)
  end.

Definition index_of_max (keys : list Q) : option nat :=
  first_best (fun k best => Qltb best k) keys.
Definition index_of_min (keys : list Q) : option nat :=
  first_best (fun k best => Qltb k best) keys.

Inductive split_state := Plain | AfterPunct | InSeparator.

Definition is_sentence_end (c : char) : bool :=
  (c =? 46)%N || (c =? 33)%N || (c =? 63)%N.       (* . ! ? *)

Definition cons_head (c : char) (parts : list str) : list str :=
  match parts with
  | p :: ps => (c :: p) :: ps
  | [] => [[c]]
  end.

(** [re.split(r"(?<=[\.!?])\s+", s)]: a separator is a whitespace run that
    follows one of [. ! ?]. *)
Fixpoint re_split_sentences (st : split_state) (s : str) : list str :=
  match s with
  | [] => [[]]
  | c :: s' =>
      let next := if is_sentence_end c then AfterPunct else Plain in
      match st with
      | Plain => cons_head c (re_split_sentences next s')
      | AfterPunct =>
          if isspace c then [] :: re_split_sentences InSeparator s'
          else cons_head c (re_split_sentences next s')
      | InSeparator =>
          if isspace c then re_split_sentences InSeparator s'
          else cons_head c (re_split_sentences next s')
      end
  end.

Section Snippet.
Context {U : UnicodeDB}.

(** [re.sub(r"(\w)-\n(\w)", r"\1\2", t)], matches taken left to right
    without overlap. *)
Fixpoint dehyphenate (t : str) : str :=
  match t with
  | a :: t' =>
      match t' with
      | h :: n :: b :: rest =>
          if re_word a && (h =? HYPHEN)%N && (n =? LF)%N && re_word b
          then a :: b :: dehyphenate rest
          else a :: dehyphenate t'
      | _ => t
      end
  | [] => []
  end.

Definition replace_chr (old new : char) (t : str) : str :=
  map (fun c => if (c =? old)%N then new else c) t.

Definition normalize_text (text : str) : str :=
  match text with
  | [] => []
  | _ =>
      let t := dehyphenate text in
      let t := replace_chr CR SP t in
      let t := replace_chr LF SP t in
      let t := sub_runs (fun c => (c =? BULLET)%N || (c =? MIDDOT)%N) t in
      let t := sub_runs (fun c => (c =? TAB)%N) t in
      let t := sub_runs isspace t in
      str_lower (strip t)
  end.

(** [re.findall(r"[a-z0-9]{2,}", text.lower())]. *)
Definition tokenize_words (text : str) : list str :=
  match text with
  | [] => []
  | _ =>
      filter (fun w => (2 <=? length w)%nat = true)
             (runs (fun c => is_az c || is_09 c) (str_lower text))
  end.

Definition build_bigrams (terms : list str) : list (str * str) :=
  zip terms (tail terms).

Definition sentence_split (text : str) : list str :=
  match text with
  | [] => []
  | _ =>
      let parts := re_split_sentences Plain (strip text) in
      map strip
          (filter (fun p => (0 <? length (strip p))%nat = true) parts)
  end.

Definition count_true (l : list bool) : Z :=
  Z.of_nat (length (filter (fun b => b = true) l)).

(** The local function [sent_score] of [select_snippet]. *)
Definition sent_score (q_terms : list str) (q_bigrams : list (str * str))
    (s : str) : Q :=
  let tokens := tokenize_words s in
  let token_set : gset str := list_to_set tokens in
  let unigram_hits :=
    count_true (map (fun t => bool_decide (t ∈ token_set)) q_terms) in
  let bigram_hits :=
    if (1 <? length tokens)%nat && negb (bool_decide (q_bigrams = []))
    then
      let pairs : gset (str * str) := list_to_set (build_bigrams tokens) in
      count_true (map (fun b => bool_decide (b ∈ pairs)) q_bigrams)
    else 0 in
  (inject_Z unigram_hits + 2 * inject_Z bigram_hits)%Q.

Definition select_snippet
    (original_text : str) (query_terms : list str) (max_tokens : nat)
    : str :=
  let text := normalize_text original_text in
  let sentences := sentence_split text in
  let q_terms := filter (fun t => (2 <? length t)%nat = true) query_terms in
  let q_bigrams := build_bigrams q_terms in
  match index_of_max (map (sent_score q_terms q_bigrams) sentences) with
  | None => firstn 600 original_text
  | Some best_idx =>
      let start := (best_idx - 1)%nat in
      let stop := Nat.min (length sentences) (best_idx + 2) in
      let snippet := join [SP] (slice start stop sentences) in
      let tokens := split snippet in
      let tokens :=
        if (max_tokens <? length tokens)%nat
        then firstn max_tokens tokens else tokens in
      join [SP] tokens
  end.
End Snippet.

(** The default value of [max_tokens]. *)
Definition MAX_TOKENS : nat := 150.

(** ** Ranking (1b/src/ranker.py, [rank_sections]) *)

(** A section dict during ranking: the section's own keys and the keys
    [rank_sections] attaches ([None]: the key is absent). *)
Record Dict := mkDict {
  d_sec : Sec;
  d_score : option Q;
  d_ce : option Q;
  d_mmr : option Q;
  d_snippet : option str
}.

(** The dict objects of the input list, by position: [extract_sections]
    builds one dict per section, so a position is an object identity.  Every
    list of the function ([ordered], [top_pool], [selected], [ranked]) holds
    references into this store and every assignment [s[key] = v] updates
    it. *)
Definition Heap := nat -> Dict.

Definition upd (h : Heap) (r : nat) (f : Dict -> Dict) : Heap :=
  fun r' => if (r' =? r)%nat then f (h r') else h r'.

Definition set_score (v : Q) (d : Dict) : Dict :=
  mkDict (d_sec d) (Some v) (d_ce d) (d_mmr d) (d_snippet d).
Definition set_ce (v : Q) (d : Dict) : Dict :=
  mkDict (d_sec d) (d_score d) (Some v) (d_mmr d) (d_snippet d).
Definition set_mmr (v : Q) (d : Dict) : Dict :=
  mkDict (d_sec d) (d_score d) (d_ce d) (Some v) (d_snippet d).
Definition del_mmr (d : Dict) : Dict :=
  mkDict (d_sec d) (d_score d) (d_ce d) None (d_snippet d).
Definition set_snippet (v : str) (d : Dict) : Dict :=
  mkDict (d_sec d) (d_score d) (d_ce d) (d_mmr d) (Some v).

(** [x['score']]; the key is set on every dict by the scoring loop. *)
Definition score (h : Heap) (r : nat) : Q := default 0%Q (d_score (h r)).
(** [x.get('_mmr', x['score'])]. *)
Definition retained (h : Heap) (r : nat) : Q :=
  default (score h r) (d_mmr (h r)).
(** [x.get('_ce', 0.0)]. *)
Definition ce_or_0 (h : Heap) (r : nat) : Q := default 0%Q (d_ce (h r)).

(** [sorted(l, key=..., reverse=True)]: stable, so elements with equal keys
    keep their order.  [le y x] reads: the key of [y] is at most that of
    [x]. *)
Fixpoint insert_desc {A} (le : A -> A -> bool) (x : A) (l : list A)
    : list A :=
  match l with
  | [] => [x]
  | y :: l' => if le y x then x :: l else y :: insert_desc le x l'
  end.

Definition sorted_desc {A} (le : A -> A -> bool) (l : list A) : list A :=
  fold_right (insert_desc le) [] l.

(** [l[:k]] for any integer [k]. *)
Definition py_take {A} (k : Z) (l : list A) : list A :=
  if 0 <=? k then firstn (Z.to_nat k) l
  else firstn (length l - Z.to_nat (- k)) l.

Definition Qmax_list (l : list Q) : Q :=
  match l with
  | [] => 0%Q
  | x :: l' => fold_left (fun m y => if Qltb m y then y else m) l' x
  end.

Section Ranker.
Context {U : UnicodeDB}.

(** The collaborators of the ranker.  [combined_score sections persona job
    idx] is the sum assigned to [s['score']] for the section at position
    [idx]: it depends on the embedding model, the BM25 index and
    [math.log].  [cos_sim a b] is the cosine similarity of the embeddings of
    two candidates.  [ranks_cross] is the optional cross-encoder; its
    [predict] returns [None] when it raises.  [diversity] is the value of
    the environment variable DIVERSITY (default 0.3).

    The scoring lines themselves can raise (the BM25 index of a corpus in
    which no title or text has a token divides by zero); [combined_score]
    stands for the scores of a call in which they do not.  So [Some] below
    is what the call returns if it returns, and [None] is a call that raises
    in the stages modelled here. *)
Variable combined_score : list Sec -> str -> str -> nat -> Q.
Variable cos_sim : Sec -> Sec -> Q.
Variable ranks_cross : option (str -> list Sec -> option (list Q)).
Variable diversity : Q.

Definition le_score (h : Heap) (y x : nat) : bool :=
  Qleb (score h y) (score h x).
Definition le_retained (h : Heap) (y x : nat) : bool :=
  Qleb (retained h y) (retained h x).
(** The tuple key [(x.get('_ce', 0.0), x['score'])]. *)
Definition le_ce_score (h : Heap) (y x : nat) : bool :=
  Qltb (ce_or_0 h y) (ce_or_0 h x)
  || (Qeqb (ce_or_0 h y) (ce_or_0 h x) && Qleb (score h y) (score h x)).

(** Lines 199-269: every section gets its [score]. *)
Definition score_all (sections : list Sec) (persona job : str)
    (h : Heap) : Heap :=
  fold_left
    (fun h idx =>
       upd h idx (set_score (combined_score sections persona job idx)))
    (seq 0 (length sections)) h.

(** Lines 274-285: the optional cross-encoder pass over the head of
    [ordered]. *)
Definition rerank (persona job : str) (top_n : Z)
    (h : Heap) (ordered : list nat) : Heap * list nat :=
  match ranks_cross, ordered with
  | Some predict, _ :: _ =>
      let top_pool :=
        py_take (Z.min (Z.of_nat (length ordered)) (Z.max 10 (top_n * 3)))
                ordered in
      match predict (persona ++ [SP] ++ job)
                    (map (fun r => d_sec (h r)) top_pool) with
      | Some ce_scores =>
          let h' :=
            fold_left (fun h p => upd h (snd p) (set_ce (fst p)))
                      (zip ce_scores top_pool) h in
          (h', sorted_desc (le_ce_score h') top_pool
               ++ skipn (length top_pool) ordered)
      | None => (h, ordered)
      end
  | _, _ => (h, ordered)
  end.

Record mmr_state := mkMmr {
  m_heap : Heap;
  m_selected : list nat;
  m_selected_idx : list nat
}.

(** One iteration of [for i, candidate in enumerate(ordered)]. *)
Definition mmr_step (top_n : Z) (ordered : list nat)
    (st : mmr_state) (i candidate : nat) : option mmr_state :=
  let h := m_heap st in
  let selected := m_selected st in
  let selected_idx := m_selected_idx st in
  if Z.of_nat (length selected) <? top_n then
    Some (mkMmr h (selected ++ [candidate]) (selected_idx ++ [i]))
  else
    let sim_to_selected :=
      Qmax_list
        (map (fun j => cos_sim (d_sec (h candidate))
                               (d_sec (h (ordered !!! j))))
             selected_idx) in
    let mmr_score := (score h candidate - diversity * sim_to_selected)%Q in
    match index_of_min (map (retained h) selected) with
    | None => None
    | Some worst_idx =>
        let worst_mmr := retained h (selected !!! worst_idx) in
        if Qltb worst_mmr mmr_score then
          Some (mkMmr (upd h candidate (set_mmr mmr_score))
                      (<[worst_idx := candidate]> selected)
                      (<[worst_idx := i]> selected_idx))
        else Some st
    end.

Fixpoint mmr_loop (top_n : Z) (ordered : list nat)
    (st : mmr_state) (i : nat) (rest : list nat) : option mmr_state :=
  match rest with
  | [] => Some st
  | candidate :: rest' =>
      match mmr_step top_n ordered st i candidate with
      | Some st' => mmr_loop top_n ordered st' (S i) rest'
      | None => None
      end
  end.

Definition initial_heap (sections : list Sec) : Heap :=
  fun r => mkDict (sections !!! r) None None None None.

(** [rank_sections]: the final store and the references of [ranked];
    [None] when the call raises.  On an empty list it raises at line 179:
    [encode_texts_with_cache] returns an array of shape (0, 1) for no text,
    and the cosine of a query embedding with it is a product of matrices
    whose shapes do not fit. *)
Definition rank_sections_refs
    (sections : list Sec) (persona job : str) (top_n : Z)
    : option (Heap * list nat) :=
  let h := score_all sections persona job (initial_heap sections) in
  let ordered := sorted_desc (le_score h) (seq 0 (length sections)) in
  let '(h, ordered) := rerank persona job top_n h ordered in
  match
    (if bool_decide (sections = []) then None
     else mmr_loop top_n ordered (mkMmr h [] []) 0 ordered)
  with
  | None => None
  | Some st =>
      let h := m_heap st in
      let ranked :=
        py_take top_n (sorted_desc (le_retained h) (m_selected st)) in
      let query_terms_all := tokenize_words (persona ++ [SP] ++ job) in
      let h :=
        fold_left
          (fun h r =>
             upd h r (set_snippet
                        (select_snippet (sec_text (d_sec (h r)))
                                        query_terms_all MAX_TOKENS)))
          ranked h in
      let h := fold_left (fun h r => upd h r del_mmr) ranked h in
      Some (h, ranked)
  end.

(** The list [rank_sections] returns, each dict as it is at the return. *)
Definition rank_sections
    (sections : list Sec) (persona job : str) (top_n : Z)
    : option (list Dict) :=
  match rank_sections_refs sections persona job top_n with
  | Some (h, ranked) => Some (map h ranked)
  | None => None
  end.
End Ranker.

(** ** Documents as the text-layout collaborator returns them *)

Record Span := mkSpan {
  span_text : str;
  span_size : Q;
  span_flags : Z;
  span_bbox : Q * Q * Q * Q           (* x0, y0, x1, y1 *)
}.

(** A block of [get_text("dict")]; an image block has no ["lines"] key. *)
Record Block := mkBlock { block_lines : option (list (list Span)) }.

Record Page := mkPage {
  page_blocks : list Block;           (* get_text("dict")["blocks"] *)
  page_height : Q;                    (* page.rect.height *)
  page_text : str                     (* get_text() *)
}.

Definition Document := list Page.

(** [float('inf')] and the finite floats. *)
Definition QInf := option Q.
Definition inf_min (a : QInf) (b : Q) : QInf :=
  match a with
  | None => Some b
  | Some x => Some (Qmin x b)
  end.
Definition inf_ltb (a : QInf) (b : Q) : bool :=
  match a with
  | None => false
  | Some x => Qltb x b
  end.
Definition Qmax (a b : Q) : Q := if Qltb a b then b else a.

Definition spans_of (b : Block) : list Span :=
  match block_lines b with
  | Some lines => concat lines
  | None => []
  end.

(** What the loops over [line] and [span] accumulate for one block. *)
Definition block_text (b : Block) : str := concat (map span_text (spans_of b)).
Definition block_max_size (b : Block) : Q :=
  fold_left (fun m sp => Qmax m (span_size sp)) (spans_of b) 0%Q.
Definition block_is_bold (b : Block) : bool :=
  existsb (fun sp => negb (Z.land (span_flags sp) (2 ^ 4) =? 0)) (spans_of b).
Definition block_min_x0 (b : Block) : QInf :=
  fold_left (fun m sp => inf_min m (span_bbox sp).1.1.1) (spans_of b) None.
Definition block_min_y0 (b : Block) : QInf :=
  fold_left (fun m sp => inf_min m (span_bbox sp).1.1.2) (spans_of b) None.
Definition block_max_y1 (b : Block) : Q :=
  fold_left (fun m sp => Qmax m (span_bbox sp).2) (spans_of b) 0%Q.

(** ** Outline extraction for ranking (1b/src/outline_extractor.py) *)

Record Heading := mkHeading {
  h_title : str;
  h_page_number : Z;
  h_font_size : Q;
  h_bold : bool;
  h_level : str;
  h_indent : QInf
}.

Record Outline := mkOutline {
  o_title : str;
  o_headings : list Heading
}.

(** [round(x, 1)]: to the nearest tenth, a tie to the even one. *)
Definition round1 (x : Q) : Q :=
  let y := (x * 10)%Q in
  let f := Qfloor y in
  let d := (y - inject_Z f)%Q in
  let n :=
    if Qltb d 0.5 then f
    else if Qltb 0.5 d then f + 1
    else if Z.even f then f else f + 1 in
  (inject_Z n / 10)%Q.

(** The keys of [Counter(l)], in the order of their first occurrence. *)
Fixpoint counter_keys (l : list Q) : list Q :=
  match l with
  | [] => []
  | x :: l' => x :: filter (fun y => Qeq_bool x y = false) (counter_keys l')
  end.

Definition count_of (x : Q) (l : list Q) : Z :=
  Z.of_nat (length (filter (fun y => Qeq_bool x y = true) l)).

(** [Counter(l).most_common(1)[0][0]]: the first key with the largest
    count. *)
Definition most_common1 (l : list Q) : option Q :=
  let keys := counter_keys l in
  match first_best (fun k best => best <? k) (map (fun k => count_of k l) keys)
  with
  | Some i => keys !! i
  | None => None
  end.

Section OutlineExtractor.
Context {U : UnicodeDB}.

(** The order in which a [set] of floats is iterated (the order of its hash
    table): a rearrangement of its elements. *)
Variable set_iter : list Q -> list Q.

(** Lines 45-54: the span sizes of the first two pages. *)
Definition sampled_sizes (doc : Document) : list Q :=
  map span_size (concat (map spans_of (concat (map page_blocks (firstn 2 doc))))).

(** Lines 56-62. *)
Definition body_size_of (doc : Document) : Q :=
  let font_sizes := set_iter (counter_keys (sampled_sizes doc)) in
  match font_sizes with
  | [] => 12
  | _ =>
      let rounded_sizes := map round1 font_sizes in
      default 12%Q (most_common1 rounded_sizes)
  end.

Definition numbering : re :=
  rseq [rplus (RCls re_digit); RAlt (rchr 46%N) (rchr 58%N); RCls isspace].

Definition get_level (body_size size : Q) (block_text : str) : str :=
  if Qleb (body_size + 2) size then py "H1"
  else if Qleb (body_size + 1) size then py "H2"
  else if re_match numbering block_text || str_isupper block_text
  then py "H2"
  else py "H3".

Definition is_alnum_ascii_or_digit (c : char) : bool :=
  re_digit c || is_AZ c || is_az c.
Definition is_dot_colon_paren (c : char) : bool :=
  (c =? 46)%N || (c =? 58)%N || (c =? 41)%N.

(** [re.sub(r"^\s*[\dA-Za-z]+[\.:\)]\s+", "", s)]: the text after the
    match the engine finds first (every quantifier greedy, shortened only
    when the rest fails), or [s] when nothing matches. *)
Fixpoint sub_after_label (s : str) : option str :=
  match s with
  | [] => None
  | c :: r =>
      match (if is_alnum_ascii_or_digit c then sub_after_label r else None)
      with
      | Some res => Some res
      | None =>
          if is_dot_colon_paren c then
            match r with
            | w :: _ => if isspace w then Some (lstrip r) else None
            | [] => None
            end
          else None
      end
  end.
Definition sub_label (s : str) : option str :=
  match s with
  | c :: r => if is_alnum_ascii_or_digit c then sub_after_label r else None
  | [] => None
  end.
Fixpoint sub_numbering_from (s : str) : option str :=
  match s with
  | c :: r =>
      if isspace c then
        match sub_numbering_from r with
        | Some res => Some res
        | None => sub_label s
        end
      else sub_label s
  | [] => None
  end.
Definition strip_numbering (s : str) : str :=
  default s (sub_numbering_from s).

Definition normalized_title (block_text : str) : str :=
  let norm := str_lower (strip (strip_numbering block_text)) in
  sub_runs isspace norm.

Definition generic_headings : list str :=
  [py "introduction"; py "contents"; py "table of contents"; py "index"].
Definition marketing_phrases : list str :=
  [py "comprehensive guide"; py "ultimate guide"; py "complete guide";
   py "journey through"; py "travel companion"].

Definition count_alpha (s : str) : nat :=
  length (filter (fun c => chr_isalpha c = true) s).

(** Lines 103-116: the block is skipped. *)
Definition rejected (height : Q) (b : Block) : bool :=
  let text := strip (block_text b) in
  bool_decide (text = []) || (length text <? 3)%nat || (150 <? length text)%nat
  || startswith [BULLET] text || startswith [HYPHEN] text
  || startswith [42%N] text
  || bool_decide (str_lower text ∈ generic_headings)
  || (count_alpha text <? 2)%nat
  || ((80 <? length text)%nat
      && existsb (fun phrase => contains phrase (str_lower text))
                 marketing_phrases)
  || inf_ltb (block_min_y0 b) 30
  || Qltb (height - 40) (block_max_y1 b).

(** Lines 120-126. *)
Definition is_heading (body_size : Q) (b : Block) : bool :=
  let text := strip (block_text b) in
  let max_size := block_max_size b in
  (Qleb (body_size + 0.5) max_size && (length text <? 90)%nat)
  || (block_is_bold b && Qleb body_size max_size && (length text <? 70)%nat)
  || (str_isupper text && (length text <? 50)%nat)
  || re_match numbering text
  || (inf_ltb (block_min_x0 b) 50 && Qleb body_size max_size
      && (length text <? 80)%nat).

(** The body of [for block in text_dict["blocks"]] in the heading loop:
    the set of normalized titles seen and the headings so far. *)
Definition heading_step (body_size height : Q) (page_num : nat)
    (acc : gset str * list Heading) (b : Block) : gset str * list Heading :=
  let '(seen_norm_titles, headings) := acc in
  match block_lines b with
  | None => acc
  | Some _ =>
      if rejected height b then acc
      else if is_heading body_size b then
        let text := strip (block_text b) in
        let norm := normalized_title text in
        if bool_decide (norm ∈ seen_norm_titles) then acc
        else
          ({[ norm ]} ∪ seen_norm_titles,
           headings ++
             [mkHeading text (Z.of_nat page_num + 1) (block_max_size b)
                        (block_is_bold b)
                        (get_level body_size (block_max_size b) text)
                        (block_min_x0 b)])
      else acc
  end.

Definition headings_of_page (body_size : Q)
    (acc : gset str * list Heading) (p : nat * Page)
    : gset str * list Heading :=
  fold_left (heading_step body_size (page_height p.2) p.1) (page_blocks p.2)
            acc.

(** Lines 77-141. *)
Definition extract_headings (body_size : Q) (doc : Document)
    : list Heading :=
  (fold_left (headings_of_page body_size) (imap pair (firstn 10 doc))
             (∅, [])).2.

Record TitleCandidate := mkCand {
  c_text : str;
  c_size : Q;
  c_bold : bool;
  c_position : QInf
}.

Definition title_candidate (b : Block) : option TitleCandidate :=
  match block_lines b with
  | None => None
  | Some _ =>
      let text := strip (block_text b) in
      if (10 <? length text)%nat && (length text <? 200)%nat
      then Some (mkCand text (block_max_size b) (block_is_bold b)
                        (block_min_y0 b))
      else None
  end.

(** [a < b] for the keys [(bold, size, -position)]. *)
Definition cand_ltb (a b : TitleCandidate) : bool :=
  let pos_gt :=               (* -position a < -position b *)
    match c_position a, c_position b with
    | None, Some _ => true
    | Some x, Some y => Qltb y x
    | _, None => false
    end in
  (negb (c_bold a) && c_bold b)
  || (Bool.eqb (c_bold a) (c_bold b)
      && (Qltb (c_size a) (c_size b)
          || (Qeqb (c_size a) (c_size b) && pos_gt))).

(** Lines 14-43. *)
Definition extract_title (first_page : Page) : str :=
  let title_candidates := omap title_candidate (page_blocks first_page) in
  match first_best (fun k best => cand_ltb best k) title_candidates with
  | Some i => default [] (c_text <$> title_candidates !! i)
  | None => []
  end.

(** [extract_outline]; [None] when [doc[0]] raises on a document without
    pages. *)
Definition extract_outline (doc : Document) : option Outline :=
  match doc with
  | [] => None
  | first_page :: _ =>
      Some (mkOutline (extract_title first_page)
                      (extract_headings (body_size_of doc) doc))
  end.
End OutlineExtractor.

(** ** Section segmentation (1b/src/section_extractor.py) *)

(** [len(doc)] and [doc[i]] of the PDF library: an index at or past the page
    count raises, a negative one counts from the end. *)
Definition doc_len (doc : Document) : Z := Z.of_nat (length doc).
Definition doc_getitem (doc : Document) (i : Z) : option Page :=
  if i <? doc_len doc then doc !! Z.to_nat (i mod doc_len doc) else None.

(** [range(start, stop)]. *)
Definition py_range (start stop : Z) : list Z :=
  map (fun k => start + Z.of_nat k) (seq 0 (Z.to_nat (stop - start))).

(** [sorted(l, key=...)]: stable and ascending.  [le x y] reads: the key of
    [x] is at most that of [y]. *)
Definition sorted_asc {A} (le : A -> A -> bool) (l : list A) : list A :=
  sorted_desc (fun y x => le x y) l.

Section SectionExtractor.
Context {U : UnicodeDB}.

(** [_clean_page_text] (lines 35-52) only rewrites the text it is given with
    regular expressions; it is kept abstract, and what is proved below holds
    for every cleaning function. *)
Variable _clean_page_text : str -> str.

Definition ui_strings : list str :=
  [py "page"; py "page 1"; py "table of contents"; py "contents";
   py "index"; py "click here"; py "introduction"].

Definition re_nonletters : re :=
  rplus (RCls (fun c => re_digit c || negb (re_word c) || (c =? 95)%N)).
Definition re_list_item : re :=
  rseq [RCls (fun c => (c =? 111)%N || (c =? BULLET)%N);
        rplus (RCls isspace); rplus (RCls re_digit)].
Definition re_one_letter : re := RCls (fun c => is_AZ c || is_az c).

(** [is_clean_title] of section_extractor.py; [None] is the [IndexError] of
    [title[3]] on a title of three digits. *)
Definition is_clean_title (title : str) : option bool :=
  let title := strip title in
  if bool_decide (title = []) || (length title <? 3)%nat then Some false
  else if bool_decide (str_lower title ∈ ui_strings) then Some false
  else if existsb (fun p => startswith [p] title)
                  [BULLET; HYPHEN; 42%N; 40%N; 91%N; 35%N]
  then Some false
  else
    match (if str_isdigit (firstn 3 title)
           then match title !! 3%nat with
                | Some c =>
                    Some ((c =? 46)%N || (c =? HYPHEN)%N || (c =? SP)%N)
                | None => None
                end
           else Some false) with
    | None => None
    | Some true => Some false
    | Some false =>
        if re_match_eol re_one_letter title then Some false
        else if (count_alpha title <? 2)%nat then Some false
        else if re_match_eol re_nonletters title then Some false
        else if re_match re_list_item title then Some false
        else if bool_decide (last title = Some 46%N)
                && (length title <? 8)%nat
        then Some false
        else if (length (split title) <=? 1)%nat && (length title <? 6)%nat
        then Some false
        else Some true
    end.

(** The concatenation of [doc[p].get_text()] for [p] in
    [range(start, stop)]. *)
Definition text_of_pages (doc : Document) (start stop : Z) : option str :=
  pages ← mapM (doc_getitem doc) (py_range start stop);
  Some (concat (map page_text pages)).

Definition heading_le (x y : Heading) : bool :=
  (h_page_number x <? h_page_number y)
  || ((h_page_number x =? h_page_number y)
      && Qleb (- h_font_size x) (- h_font_size y)).

(** Lines 76-106: the loop over the sorted headings. *)
Fixpoint section_loop (doc : Document) (headings : list Heading)
    : option (list Sec) :=
  match headings with
  | [] => Some []
  | heading :: rest =>
      match is_clean_title (h_title heading) with
      | None => None
      | Some false => section_loop doc rest
      | Some true =>
          let start_page := h_page_number heading - 1 in
          let next_page :=
            match rest with
            | next :: _ => h_page_number next - 1
            | [] => doc_len doc
            end in
          let max_span :=
            if bool_decide (h_level heading = py "H1") then 3 else 2 in
          let tentative_end := Z.min (doc_len doc) (start_page + max_span) in
          let end_page := Z.min next_page tentative_end in
          section_text ← text_of_pages doc start_page end_page;
          section_text ←
            (if bool_decide (strip section_text = [])
             then page_text <$> doc_getitem doc start_page
             else Some section_text);
          let section_text := _clean_page_text section_text in
          let section_text :=
            if (5000 <? length section_text)%nat
            then firstn 5000 section_text else section_text in
          sections ← section_loop doc rest;
          Some (mkSec (h_title heading) (strip section_text)
                      (h_page_number heading) (Some (h_level heading)) None
                :: sections)
      end
  end.

Definition extract_sections (doc : Document) (outline : Outline)
    : option (list Sec) :=
  match o_headings outline with
  | [] =>
      let full_text := concat (map page_text (firstn 3 doc)) in
      Some [mkSec (match o_title outline with
                   | [] => py "Document"
                   | title => title
                   end)
                  full_text 1 None None]
  | headings => section_loop doc (sorted_asc heading_le headings)
  end.
End SectionExtractor.

(** ** Outline extraction of 1a/main.py *)

(** A string literal of the source: its UTF-8 bytes read as code points. *)
Fixpoint utf8_decode (l : list N) : str :=
  match l with
  | [] => []
  | b :: r =>
      if (b <? 128)%N then b :: utf8_decode r
      else
        match r with
        | [] => []
        | b2 :: r2 =>
            if (b <? 224)%N
            then ((b - 192) * 64 + (b2 - 128))%N :: utf8_decode r2
            else
              match r2 with
              | [] => []
              | b3 :: r3 =>
                  if (b <? 240)%N
                  then ((b - 224) * 4096 + (b2 - 128) * 64 + (b3 - 128))%N
                       :: utf8_decode r3
                  else
                    match r3 with
                    | [] => []
                    | b4 :: r4 =>
                        ((b - 240) * 262144 + (b2 - 128) * 4096
                         + (b3 - 128) * 64 + (b4 - 128))%N
                        :: utf8_decode r4
                    end
              end
        end
  end.

Definition u (s : string) : str := utf8_decode (py s).

Record Patterns := mkPatterns {
  form_patterns : list str;
  tech_headings : list str;
  business_headings : list str
}.

Inductive Language :=
  spanish | french | german | hindi | chinese | japanese | arabic.

Definition spanish_patterns : Patterns := {|
  form_patterns :=
    [u "formulario de solicitud"; u "servidor público";
     u "funcionario gubernamental"; u "designación"; u "servicio";
     u "salario"; u "permanente o temporal"];
  tech_headings :=
    [u "historial de revisiones"; u "tabla de contenidos";
     u "agradecimientos"; u "introducción"; u "referencias";
     u "marcas comerciales"; u "documentos"; u "audiencia objetivo";
     u "trayectorias profesionales"; u "objetivos de aprendizaje";
     u "requisitos de entrada"; u "estructura y duración del curso";
     u "contenido"];
  business_headings :=
    [u "antecedentes"; u "resumen"; u "hitos"; u "enfoque"; u "evaluación";
     u "apéndice"; u "términos de referencia"]
|}.

Definition french_patterns : Patterns := {|
  form_patterns :=
    [u "formulaire de demande"; u "fonctionnaire"; u "agent gouvernemental";
     u "désignation"; u "service"; u "salaire"; u "permanent ou temporaire"];
  tech_headings :=
    [u "historique des révisions"; u "table des matières"; u "remerciements";
     u "introduction"; u "références"; u "marques déposées"; u "documents";
     u "public cible"; u "parcours professionnels";
     u "objectifs d'apprentissage"; u "conditions d'entrée";
     u "structure et durée du cours"; u "contenu"];
  business_headings :=
    [u "contexte"; u "résumé"; u "jalons"; u "approche"; u "évaluation";
     u "annexe"; u "termes de référence"]
|}.

Definition german_patterns : Patterns := {|
  form_patterns :=
    [u "antragsformular"; u "beamter"; u "regierungsangestellter";
     u "bezeichnung"; u "dienst"; u "gehalt";
     u "dauerhaft oder vorübergehend"];
  tech_headings :=
    [u "revisionshistorie"; u "inhaltsverzeichnis"; u "danksagungen";
     u "einführung"; u "referenzen"; u "warenzeichen"; u "dokumente";
     u "zielgruppe"; u "karrierewege"; u "lernziele";
     u "eingangsvoraussetzungen"; u "struktur und kursdauer"; u "inhalt"];
  business_headings :=
    [u "hintergrund"; u "zusammenfassung"; u "meilensteine"; u "ansatz";
     u "bewertung"; u "anhang"; u "referenzbedingungen"]
|}.

Definition hindi_patterns : Patterns := {|
  form_patterns :=
    [u "आवेदन पत्र"; u "सरकारी कर्मचारी"; u "सरकारी अधिकारी"; u "पदनाम";
     u "सेवा"; u "वेतन"; u "स्थायी या अस्थायी"];
  tech_headings :=
    [u "संशोधन इतिहास"; u "विषय सूची"; u "आभार"; u "परिचय"; u "संदर्भ";
     u "ट्रेडमार्क"; u "दस्तावेज"; u "लक्षित दर्शक"; u "करियर पथ";
     u "सीखने के उद्देश्य"; u "प्रवेश आवश्यकताएं";
     u "संरचना और पाठ्यक्रम अवधि"; u "सामग्री"];
  business_headings :=
    [u "पृष्ठभूमि"; u "सारांश"; u "मील के पत्थर"; u "दृष्टिकोण";
     u "मूल्यांकन"; u "परिशिष्ट"; u "संदर्भ की शर्तें"]
|}.

Definition chinese_patterns : Patterns := {|
  form_patterns :=
    [u "申请表"; u "公务员"; u "政府工作人员"; u "职务"; u "服务"; u "工资"; u "永久或临时"];
  tech_headings :=
    [u "修订历史"; u "目录"; u "致谢"; u "介绍"; u "参考文献"; u "商标"; u "文档"; u "目标受众";
     u "职业道路"; u "学习目标"; u "入学要求"; u "结构和课程持续时间"; u "内容"];
  business_headings :=
    [u "背景"; u "摘要"; u "里程碑"; u "方法"; u "评估"; u "附录"; u "参考条款"]
|}.

Definition japanese_patterns : Patterns := {|
  form_patterns :=
    [u "申請書"; u "公務員"; u "政府職員"; u "指定"; u "サービス"; u "給与"; u "恒久的または一時的"];
  tech_headings :=
    [u "改訂履歴"; u "目次"; u "謝辞"; u "紹介"; u "参考文献"; u "商標"; u "文書"; u "対象読者";
     u "キャリアパス"; u "学習目標"; u "入学要件"; u "構造とコース期間"; u "コンテンツ"];
  business_headings :=
    [u "背景"; u "要約"; u "マイルストーン"; u "アプローチ"; u "評価"; u "付録"; u "参照条項"]
|}.

Definition arabic_patterns : Patterns := {|
  form_patterns :=
    [u "نموذج طلب"; u "موظف حكومي"; u "خادم الحكومة"; u "تعيين"; u "خدمة";
     u "راتب"; u "دائم أو مؤقت"];
  tech_headings :=
    [u "تاريخ المراجعة"; u "جدول المحتويات"; u "شكر وتقدير"; u "مقدمة";
     u "مراجع"; u "علامات تجارية"; u "وثائق"; u "الجمهور المستهدف";
     u "مسارات مهنية"; u "أهداف التعلم"; u "متطلبات الدخول";
     u "الهيكل ومدة الدورة"; u "محتوى"];
  business_headings :=
    [u "خلفية"; u "ملخص"; u "معالم"; u "نهج"; u "تقييم"; u "ملحق";
     u "شروط مرجعية"]
|}.

Definition MULTILINGUAL_PATTERNS (lang : Language) : Patterns :=
  match lang with
  | spanish => spanish_patterns
  | french => french_patterns
  | german => german_patterns
  | hindi => hindi_patterns
  | chinese => chinese_patterns
  | japanese => japanese_patterns
  | arabic => arabic_patterns
  end.

(** The state and the methods of the class [PDFOutlineExtractor]. *)
Module PDFOutlineExtractor.

Record Extractor := mkExtractor {
  detected_language : option Language;
  multilingual_patterns : option Patterns
}.

(** [__init__]. *)
Definition init : Extractor := mkExtractor None None.

(** A candidate of [_extract_headings_from_page] and a heading of the
    outline. *)
Record RawHeading := mkRaw {
  rh_text : str;
  rh_size : Q;
  rh_bold : bool;
  rh_page : Z
}.

Record OutHeading := mkOut {
  oh_level : str;
  oh_text : str;
  oh_page : Z
}.

Record Result := mkResult {
  r_title : str;
  r_outline : list OutHeading;
  r_detected_language : option Language
}.

Section Methods.
Context {U : UnicodeDB}.

Definition count_matches (patterns : list str) (text : str) : Z :=
  Z.of_nat (length (filter (fun p => contains p text = true) patterns)).

Definition has_chr (cls : char -> bool) (text : str) : bool := existsb cls text.

Definition french_accent (c : char) : bool :=
  chr_in 224 246 c || chr_in 248 255 c.
Definition german_accent (c : char) : bool :=
  bool_decide (c ∈ [196; 214; 220; 223; 228; 246; 252]%N).
Definition spanish_accent (c : char) : bool :=
  bool_decide
    (c ∈ [193; 201; 205; 209; 211; 218; 220; 225; 233; 237; 241; 243; 250;
          252]%N).

Definition _detect_non_english_language (doc_text : str) : option Language :=
  let doc_text_lower := str_lower doc_text in
  if has_chr (chr_in 2304 2431) doc_text then Some hindi
  else if has_chr (chr_in 19968 40959) doc_text then Some chinese
  else if has_chr (fun c => chr_in 12352 12447 c || chr_in 12448 12543 c)
                  doc_text
  then Some japanese
  else if has_chr (chr_in 1536 1791) doc_text then Some arabic
  else
    let score lang :=
      let patterns := MULTILINGUAL_PATTERNS lang in
      count_matches (form_patterns patterns) doc_text_lower
      + count_matches (tech_headings patterns) doc_text_lower
      + count_matches (business_headings patterns) doc_text_lower in
    let bonus cls := if has_chr cls doc_text then 2 else 0 in
    let language_scores :=
      [(spanish, score spanish + bonus spanish_accent);
       (french, score french + bonus french_accent);
       (german, score german + bonus german_accent)] in
    match first_best (fun k best => best <? k) (map snd language_scores) with
    | Some i =>
        match language_scores !! i with
        | Some (best_lang, best_score) =>
            if 1 <? best_score then Some best_lang else None
        | None => None
        end
    | None => None
    end.

(** [_extract_title]. *)
Definition title_score (c : TitleCandidate) : Z :=
  (if c_bold c then 3 else 0)
  + (if Qltb 16 (c_size c) then 2 else if Qltb 14 (c_size c) then 1 else 0)
  + (if inf_ltb (c_position c) 200 then 2 else 0).

Definition _extract_title (doc : Document) : str :=
  match doc with
  | [] => []
  | first_page :: _ =>
      let candidates := omap title_candidate (page_blocks first_page) in
      match first_best (fun k best => best <? k) (map title_score candidates)
      with
      | Some i =>
          match candidates !! i with
          | Some best_candidate =>
              if 2 <? title_score best_candidate
              then c_text best_candidate else []
          | None => []
          end
      | None => []
      end
  end.

Definition garbage_patterns : list str :=
  [repeat 46%N 76; repeat 46%N 63; repeat 46%N 41;
   py "www."; py ".com"; py ".org"].

Definition english_form_patterns : list str :=
  [py "name of the government servant"; py "designation"; py "service";
   py "pay + si + npa"; py "whether permanent or temporary";
   py "home town as recorded"; py "amount of advance required"].

Definition any_in (patterns : list str) (text : str) : bool :=
  existsb (fun p => contains p text) patterns.

Definition digit : re := RCls re_digit.
Definition any_but_newline : re := RCls (fun c => negb (c =? LF)%N).
Definition letter : re := RCls (fun c => is_AZ c || is_az c).
Definition MKB : re :=
  RCls (fun c => (c =? 77)%N || (c =? 75)%N || (c =? 66)%N).
Definition DOLLAR : re := rchr 36%N.

Definition _is_obviously_not_heading (self : Extractor) (text : str) : bool :=
  (length text <? 3)%nat || (200 <? length text)%nat
  || any_in garbage_patterns text
  || any_in english_form_patterns (str_lower text)
  || match multilingual_patterns self with
     | Some patterns => any_in (form_patterns patterns) (str_lower text)
     | None => false
     end
  || re_match_eol
       (rseq [rchr 82%N; rchr 70%N; rchr 80%N; rchr 58%N;
              RStar any_but_newline; digit; digit; digit; digit]) text
  || re_match_eol (rplus digit) text
  || ((100 <? length text)%nat
      && existsb (fun c => bool_decide (c ∈ text)) [46; 44; 59; 58]%N)
  || startswith [BULLET] text || startswith [HYPHEN] text
  || startswith [42%N] text
  || re_match (rseq [rplus digit; rchr 46%N; RStar (RCls isspace);
                     RCls is_az]) (str_lower text)
  || re_match (rseq [rplus digit; rchr 46%N; rplus digit;
                     RStar (RCls isspace); letter]) text
  || re_match_eol (rseq [ropt DOLLAR; rplus digit; ropt MKB; ropt DOLLAR;
                         rplus digit; ropt MKB]) text
  || re_match (rseq [rplus (RCls (fun c => is_AZ c || isspace c)); DOLLAR;
                     rplus digit; MKB]) text.

Definition english_tech_headings : list str :=
  [py "revision history"; py "table of contents"; py "acknowledgements";
   py "introduction"; py "references"; py "trademarks"; py "documents";
   py "intended audience"; py "career paths"; py "learning objectives";
   py "entry requirements"; py "structure and course duration";
   py "keeping it current"; py "business outcomes"; py "content"].

Definition english_business_headings : list str :=
  [py "background"; py "summary"; py "milestones"; py "approach";
   py "evaluation"; py "appendix"; py "terms of reference"].

Definition _is_likely_heading (self : Extractor)
    (text : str) (size : Q) (is_bold : bool) (doc_text_lower : str) : bool :=
  re_match (rseq [rplus digit; rchr 46%N; ropt (rplus digit);
                  rplus (RCls isspace); letter]) text
  || (str_isupper text && (5 <? length text)%nat)
  || (is_bold && Qltb 14 size)
  || Qltb 16 size
  || match multilingual_patterns self with
     | Some patterns =>
         any_in (tech_headings patterns) (str_lower text)
         || any_in (business_headings patterns) (str_lower text)
     | None => false
     end
  || (if contains (py "foundation level") doc_text_lower
      then any_in english_tech_headings (str_lower text)
      else if contains (py "rfp") doc_text_lower
              || contains (py "digital library") doc_text_lower
      then any_in english_business_headings (str_lower text)
      else if contains (py "pathway options") doc_text_lower
              || contains (py "stem pathways") doc_text_lower
      then contains (py "pathway options") (str_lower text)
      else if contains (py "hope to see you") doc_text_lower
              || contains (py "rsvp") doc_text_lower
      then contains (py "hope to see you there") (str_lower text)
      else false).

Definition _extract_headings_from_page (self : Extractor)
    (page : Page) (page_num : Z) (doc_text_lower : str) : list RawHeading :=
  omap
    (fun b =>
       match block_lines b with
       | None => None
       | Some _ =>
           let text := strip (block_text b) in
           if bool_decide (text = []) || (length text <? 3)%nat
              || (200 <? length text)%nat
           then None
           else if _is_obviously_not_heading self text then None
           else if _is_likely_heading self text (block_max_size b)
                     (block_is_bold b) doc_text_lower
           then Some (mkRaw text (block_max_size b) (block_is_bold b)
                            page_num)
           else None
       end)
    (page_blocks page).

(** The first loop of [_filter_headings]: one heading per stripped text. *)
Definition unique_step (acc : gset str * list RawHeading) (heading : RawHeading)
    : gset str * list RawHeading :=
  let text := strip (rh_text heading) in
  if bool_decide (text ∈ acc.1) then acc
  else ({[ text ]} ∪ acc.1, acc.2 ++ [heading]).

Definition first_with (phrase : str) (headings : list RawHeading)
    : list OutHeading :=
  match find (fun h => contains phrase (str_lower (rh_text h))) headings with
  | Some heading => [mkOut (py "H1") (rh_text heading) 0]
  | None => []
  end.

Definition classify (self : Extractor) (doc_text_lower : str)
    (heading : RawHeading) : OutHeading :=
  let text := str_lower (rh_text heading) in
  let level := py "H3" in
  let level :=
    match multilingual_patterns self with
    | Some patterns =>
        if any_in (firstn 4 (business_headings patterns)) text then py "H1"
        else if any_in (firstn 6 (tech_headings patterns)) text then py "H1"
        else if any_in (skipn 4 (business_headings patterns)) text
        then py "H2"
        else if any_in (skipn 6 (tech_headings patterns)) text then py "H2"
        else level
    | None => level
    end in
  let level :=
    if contains (py "rfp") doc_text_lower
       || contains (py "digital library") doc_text_lower
    then
      if any_in [py "summary"; py "background"; py "milestones";
                 py "approach"; py "evaluation"] text
      then py "H1"
      else if any_in [py "appendix"; py "terms of reference";
                      py "membership"] text
      then py "H2"
      else py "H3"
    else
      if Qltb 16 (rh_size heading) then py "H1"
      else if Qltb 14 (rh_size heading) then py "H2"
      else py "H3" in
  mkOut level (rh_text heading) (rh_page heading).

Definition _filter_headings (self : Extractor)
    (headings : list RawHeading) (doc_text_lower : str) : list OutHeading :=
  match headings with
  | [] => []
  | _ =>
      let unique_headings := (fold_left unique_step headings (∅, [])).2 in
      if contains (py "pathway options") doc_text_lower
         || contains (py "stem pathways") doc_text_lower
      then first_with (py "pathway options") unique_headings
      else if contains (py "hope to see you") doc_text_lower
              || contains (py "rsvp") doc_text_lower
      then first_with (py "hope to see you there") unique_headings
      else
        sorted_asc (fun x y => oh_page x <=? oh_page y)
                   (map (classify self doc_text_lower) unique_headings)
  end.

(** The text of the first three pages. *)
Definition sample_text (doc : Document) : str :=
  concat (map page_text (firstn 3 doc)).

Definition _extract_headings (self : Extractor) (doc : Document)
    : list OutHeading :=
  let doc_text_lower := str_lower (sample_text doc) in
  if contains (py "application form") doc_text_lower
     || contains (py "government servant") doc_text_lower
  then []
  else if match multilingual_patterns self with
          | Some patterns => any_in (form_patterns patterns) doc_text_lower
          | None => false
          end
  then []
  else
    let all_headings :=
      concat (imap (fun page_num page =>
                      _extract_headings_from_page self page
                        (Z.of_nat page_num) doc_text_lower) doc) in
    _filter_headings self all_headings doc_text_lower.

(** [extract_outline]: the extractor after the call and the result.  The
    patterns of an earlier document stay in place when no language is
    detected. *)
Definition extract_outline (self : Extractor) (doc : Document)
    : Extractor * Result :=
  let detected := _detect_non_english_language (sample_text doc) in
  let self :=
    mkExtractor detected
      (match detected with
       | Some lang => Some (MULTILINGUAL_PATTERNS lang)
       | None => multilingual_patterns self
       end) in
  (self, mkResult (_extract_title doc) (_extract_headings self doc) detected).
End Methods.
End PDFOutlineExtractor.

(** ** Summary sentences without overlap (1b/src/main.py) *)

Section SelectNonOverlapping.
Context {U : UnicodeDB}.

(** The test of the inner loop of [_select_non_overlapping]: both token sets
    are non-empty and their Jaccard similarity exceeds 0.6. *)
Definition too_similar_to (tokens t_tokens : gset str) : bool :=
  if bool_decide (tokens = ∅) || bool_decide (t_tokens = ∅) then false
  else Qltb 0.6
         (inject_Z (Z.of_nat (size (tokens ∩ t_tokens)))
          / inject_Z (Z.max 1 (Z.of_nat (size (tokens ∪ t_tokens)))))%Q.

(** [set(norm.split())] for the candidate sentence [s]. *)
Definition sentence_tokens (s : str) : gset str :=
  list_to_set (split (strip (sub_runs isspace (str_lower s)))).

(** [set(t.lower().split())] for a selected sentence [t]. *)
Definition selected_tokens (t : str) : gset str :=
  list_to_set (split (str_lower t)).

(** The loop [for s in sentences], from the sentences not yet seen and the
    list [selected] so far. *)
Fixpoint select_loop (top_k : Z) (sentences selected : list str)
    : list str :=
  match sentences with
  | [] => selected
  | s :: rest =>
      if existsb (fun t => too_similar_to (sentence_tokens s)
                                          (selected_tokens t)) selected
      then select_loop top_k rest selected
      else
        let selected := selected ++ [s] in
        if top_k <=? Z.of_nat (length selected) then selected
        else select_loop top_k rest selected
  end.

Definition _select_non_overlapping (sentences : list str) (top_k : Z)
    : list str :=
  select_loop top_k sentences [].
End SelectNonOverlapping.

(** ** Recommendations from an output file (1b/src/recommender.py) *)

(** The entries of [subsection_analysis] and [extracted_sections] of an
    output JSON, and a section as [load_sections_from_output] builds it. *)
Record Subsection := mkSubsection {
  sub_document : str;
  sub_refined_text : str;
  sub_page_number : Z
}.

Record Extracted := mkExtracted {
  ext_document : str;
  ext_section_title : str;
  ext_importance_rank : Z;
  ext_page_number : Z
}.

Record Loaded := mkLoaded {
  ld_document : str;
  ld_section_title : str;
  ld_text : str;
  ld_page_number : Z
}.

(** The first loop of [load_sections_from_output]: the dict [section_map]. *)
Definition section_map_of (subs : list Subsection) : gmap (str * Z) str :=
  fold_left
    (fun section_map sub =>
       <[ (sub_document sub, sub_page_number sub) := sub_refined_text sub ]>
         section_map)
    subs ∅.

Definition load_sections_from_output
    (subsection_analysis : list Subsection)
    (extracted_sections : list Extracted) : list Loaded :=
  let section_map := section_map_of subsection_analysis in
  map (fun sec =>
         let key := (ext_document sec, ext_page_number sec) in
         let refined_text := default [] (section_map !! key) in
         mkLoaded (ext_document sec) (ext_section_title sec) refined_text
                  (ext_page_number sec))
      extracted_sections.

(** [generate_snippet]: the first part of the split at sentence ends. *)
Definition generate_snippet (current_text candidate_text : str) : str :=
  match re_split_sentences Plain (strip candidate_text) with
  | first :: _ => first
  | [] => firstn 120 candidate_text
  end.

(** ** The title check of the ranker (1b/src/ranker.py) *)

Module Ranker.
Section Title.
Context {U : UnicodeDB}.

(** [is_clean_title] of ranker.py (lines 17-34); [None] stands for the
    [IndexError] of [title[3]]. *)
Definition is_clean_title (title : str) : option bool :=
  let title := strip title in
  if bool_decide (title = []) || (length title <? 5)%nat then Some false
  else if bool_decide (str_lower title ∈ ui_strings) then Some false
  else if existsb (fun p => startswith [p] title)
                  [BULLET; HYPHEN; 42%N; 40%N; 91%N; 35%N]
  then Some false
  else
    match (if str_isdigit (firstn 3 title)
           then match title !! 3%nat with
                | Some c =>
                    Some ((c =? 46)%N || (c =? HYPHEN)%N || (c =? SP)%N)
                | None => None
                end
           else Some false) with
    | None => None
    | Some true => Some false
    | Some false =>
        if re_match_eol re_one_letter title then Some false
        else if (count_alpha title <? 3)%nat then Some false
        else if re_match_eol re_nonletters title then Some false
        else Some true
    end.
End Title.
End Ranker.

(** ** Predicates of the specification *)

(** A non-empty string of characters of the class [cls]. *)
Definition word (cls : char -> bool) (w : str) : Prop :=
  w <> [] /\ Forall (fun c => cls c = true) w.

Definition starts_in_class (cls : char -> bool) (s : str) : nat :=
  match s with
  | c :: _ => if cls c then 1 else 0
  | [] => 0
  end.

(** What the specification asks of a heading, for the body size [B]: a font
    size of at least [B], or an uppercase text shorter than 50 characters, or
    a text that starts with a numbering. *)
Definition heading_ok `{U : UnicodeDB} (B : Q) (h : Heading) : Prop :=
  (B <= h_font_size h)%Q
  \/ (str_isupper (h_title h) = true /\ (length (h_title h) < 50)%nat)
  \/ re_match numbering (h_title h) = true.

(** The body size as the specification words it: the most frequent rounded
    size over all the sampled spans, 12.0 when there is none. *)
Definition most_frequent_span_size (doc : Document) : Q :=
  default 12%Q (most_common1 (map round1 (sampled_sizes doc))).

(** The quality as the specification states it,
    0.5*level_score + 0.4*(min(len(text),4000)/4000) + 0.1*(1/page_number)
    with level_score 1.0 for H1, 0.8 for H2 and 0.6 for H3 and anything
    else, each operation rounded as a double. *)
Definition stated_level_score (s : Sec) : double :=
  if bool_decide (level_or_H3 s = py "H1") then double_of_int 1
  else if bool_decide (level_or_H3 s = py "H2") then decimal 8 10
  else decimal 6 10.
Definition stated_quality (s : Sec) : double :=
  dadd (dadd (dmul (decimal 5 10) (stated_level_score s))
             (dmul (decimal 4 10)
                   (ddiv (double_of_int
                            (Z.min (Z.of_nat (length (sec_text s))) 4000))
                         (double_of_int 4000))))
       (dmul (decimal 1 10)
             (ddiv (double_of_int 1) (double_of_int (sec_page_number s)))).

(** The page number of the section converts to a double, so that
    [_section_quality] does not raise. *)
Definition quality_defined (s : Sec) : Prop :=
  int_overflows (Z.max 1 (sec_page_number s)) = false.

(** The invariant of the selection loop of [rank_sections] when the diversity
    is 0, after the candidates [done], for the store [h0] the loop starts
    from: scores are untouched, a retained [_mmr] is the score, the selected
    references are distinct candidates, as many as [top_n] allows, and no
    candidate left out has a higher score than a selected one. *)
Definition mmr_inv (top_n : Z) (h0 : Heap) (st : mmr_state)
    (done : list nat) : Prop :=
  (forall r, d_score (m_heap st r) = d_score (h0 r))
  /\ (forall r m, d_mmr (m_heap st r) = Some m -> (m == score h0 r)%Q)
  /\ NoDup (m_selected st)
  /\ (forall r, r ∈ m_selected st -> r ∈ done)
  /\ Z.of_nat (length (m_selected st))
     = Z.min top_n (Z.of_nat (length done))
  /\ (forall u r, u ∈ done -> u ∉ m_selected st -> r ∈ m_selected st ->
        (score h0 u <= score h0 r)%Q).

(** The order of the plain ranking by raw score: [x] comes before [y] when its
    score is higher, or equal with [x] the earlier section. *)
Definition before (raw : nat -> Q) (x y : nat) : Prop :=
  (raw y < raw x)%Q \/ ((raw y == raw x)%Q /\ (x < y)%nat).

(** ** Sample inputs *)

Definition travel3 : gset str :=
  {[ py "travel"; py "guide"; py "europe" ]}.
Definition travel4 : gset str :=
  {[ py "travel"; py "guide"; py "europe"; py "tips" ]}.


Definition europe_guide : Sec :=
  mkSec (py "Europe") (py "Travel guide: Europe!") 1 (Some (py "H2")) None.
Definition europe_tips : Sec :=
  mkSec (py "Tips") (py "travel guide europe tips") 2 (Some (py "H1")) None.

Definition blank_a : Sec := mkSec (py "Cover") [] 1 (Some (py "H1")) None.
Definition blank_b : Sec :=
  mkSec (py "Notes") (py " a bc -- !! ") 7 (Some (py "H3")) (Some (py "b.pdf")).

(** Two sections of dots only.  As exact fractions their qualities are both
    2139/5000; as doubles that of the second is one unit in the last place
    higher. *)
Definition dots_long : Sec :=
  mkSec (py "Rule") (repeat 46%N 78) 5 (Some (py "H2")) None.
Definition dots_short : Sec :=
  mkSec (py "Line") (repeat 46%N 28) 4 (Some (py "H2")) None.

(** Three hundred bullets, each followed by a space. *)
Definition bullet_text : str := concat (repeat [BULLET; SP] 300).

Definition paris_text : str :=
  py "Paris is nice. Visit the Eiffel Tower today! Food is great? Yes.".

(** A one-page document whose page holds 6000 characters. *)
Definition long_page : Page := mkPage [] 800 (repeat 120%N (Z.to_nat 6000)).

Definition plain_span (t : string) (size : Q) (flags : Z) (x y : Q) : Span :=
  mkSpan (py t) size flags (x, y, (x + 100)%Q, (y + size)%Q).
Definition one_line (l : list Span) : Block := mkBlock (Some [l]).

Definition leave_form : Page :=
  mkPage [one_line [plain_span "Application Form for Leave" 24 16 72 100]]
         800 (py "Application Form for Leave").

Definition leave_heading : Heading :=
  mkHeading (py "Application Form for Leave") 1 24 true (py "H3") (Some 72%Q).

(** A page with three spans of size 12 and two larger spans whose sizes differ
    but round to the same tenth. *)
Definition mixed_sizes : Page :=
  mkPage [one_line [plain_span "Body text one" 12 0 72 100];
          one_line [plain_span "Body text two" 12 0 72 200];
          one_line [plain_span "Body text three" 12 0 72 300];
          one_line [plain_span "Caption" 18.01 0 72 400;
                    plain_span " again" 18.02 0 72 400]]
         800 (py "Body text").

(** Three sections and collaborators for the ranker: the first two sections
    have the same raw score, the third a higher one, and the cross-encoder
    prefers them in the order of the list. *)
Definition short_section (title : string) : Sec :=
  mkSec (py title) (py "Plan the trip. Book early.") 1 (Some (py "H2")) None.
Definition three_sections : list Sec :=
  [short_section "Alpha"; short_section "Beta"; short_section "Gamma"].
Definition tied_scores (sections : list Sec) (persona job : str) (idx : nat)
    : Q :=
  match idx with
  | 2%nat => 2
  | _ => 1
  end.
Definition flat_similarity (a b : Sec) : Q := 0.5.
Definition list_order_encoder (query : str) (pool : list Sec)
    : option (list Q) :=
  Some (map (fun s =>
               if bool_decide (sec_title s = py "Alpha") then 3
               else if bool_decide (sec_title s = py "Beta") then 2
               else 1)%Q pool).
Definition constant_encoder (query : str) (pool : list Sec)
    : option (list Q) :=
  Some (map (fun _ => 0.9%Q) pool).

(** ** Further predicates *)

(** The refined text that [load_sections_from_output] finds for a key: that
    of the last subsection with this document and page. *)
Fixpoint last_refined (key : str * Z) (subs : list Subsection)
    : option str :=
  match subs with
  | [] => None
  | sub :: subs' =>
      match last_refined key subs' with
      | Some text => Some text
      | None =>
          if bool_decide ((sub_document sub, sub_page_number sub) = key)
          then Some (sub_refined_text sub) else None
      end
  end.

(** The rank of a heading level. *)
Definition level_rank (level : str) : nat :=
  if bool_decide (level = py "H1") then 3
  else if bool_decide (level = py "H2") then 2
  else 1.

Definition is_level (level : str) : Prop :=
  level = py "H1" \/ level = py "H2" \/ level = py "H3".

Definition az09 (c : char) : bool := is_az c || is_09 c.

(** What the selection loop of [rank_sections] keeps for every diversity,
    after the candidates [done]: it touches no key but [_mmr], and the
    selected references are distinct candidates, as many as [top_n]
    allows. *)
Definition mmr_shape (top_n : Z) (h0 : Heap) (st : mmr_state)
    (done : list nat) : Prop :=
  (forall r, d_sec (m_heap st r) = d_sec (h0 r)
             /\ d_score (m_heap st r) = d_score (h0 r)
             /\ d_ce (m_heap st r) = d_ce (h0 r)
             /\ d_snippet (m_heap st r) = d_snippet (h0 r))
  /\ NoDup (m_selected st)
  /\ (forall r, r ∈ m_selected st -> r ∈ done)
  /\ Z.of_nat (length (m_selected st))
     = Z.min top_n (Z.of_nat (length done)).

(** The comparison of two positions by raw score. *)
Definition by_raw_score (raw : nat -> Q) (y x : nat) : bool :=
  Qleb (raw y) (raw x).

(** The normalized title of a heading, as the heading loop computes it. *)
Definition norm_of `{U : UnicodeDB} (h : Heading) : str :=
  normalized_title (h_title h).

(** What the heading loop of [extract_outline] keeps, for headings found on
    the pages up to page number [k]. *)
Definition outline_inv `{U : UnicodeDB} (k : Z)
    (acc : gset str * list Heading) : Prop :=
  Forall (fun h => (3 <= length (h_title h) <= 150)%nat
                   /\ (2 <= count_alpha (h_title h))%nat
                   /\ strip (h_title h) = h_title h
                   /\ 1 <= h_page_number h <= k
                   /\ is_level (h_level h)) acc.2
  /\ (forall t, t ∈ acc.1 <-> t ∈ map norm_of acc.2)
  /\ NoDup (map norm_of acc.2)
  /\ StronglySorted Z.le (map h_page_number acc.2).

(** The title, page number and level of a section and of a heading. *)
Definition sec_key (s : Sec) : str * Z * option str :=
  (sec_title s, sec_page_number s, sec_level s).
Definition heading_key (h : Heading) : str * Z * option str :=
  (h_title h, h_page_number h, Some (h_level h)).

(** Sample inputs of the further properties. *)
Definition summary_sentences : list str :=
  [py "Book the hotel early."; py "book the  HOTEL early.";
   py "Pack light for the trip."].

Definition digits_heading : Heading :=
  mkHeading (py "123") 1 14 false (py "H3") (Some 72%Q).

(** A page in French and a page in English that mentions a service. *)
Definition french_notice : Page :=
  mkPage [] 800 (py "Formulaire de demande pour chaque fonctionnaire").
Definition service_note : Page :=
  mkPage [one_line [plain_span "CUSTOMER SERVICE DESK" 18 16 72 100]]
         800 (py "CUSTOMER SERVICE DESK").

(** * Properties *)

Local Open Scope Q_scope.

(** ** Rationals as booleans *)

Lemma Qleb_le (a b : Q) : Qleb a b = true <-> a <= b.
Proof. apply Qle_bool_iff. Qed.

Lemma Qltb_lt (a b : Q) : Qltb a b = true <-> a < b.
Proof.
  unfold Qltb. rewrite negb_true_iff.
  split.
  - intros H. apply Qnot_le_lt. intros Hle.
    apply Qle_bool_iff in Hle. congruence.
  - intros H. destruct (Qle_bool b a) eqn:E; [|reflexivity].
    apply Qle_bool_iff in E. exfalso. exact (Qlt_not_le _ _ H E).
Qed.

Lemma Qltb_false (a b : Q) : Qltb a b = false <-> b <= a.
Proof.
  unfold Qltb. rewrite negb_false_iff. apply Qle_bool_iff.
Qed.

Lemma Qleb_false (a b : Q) : Qleb a b = false <-> b < a.
Proof.
  rewrite <- Qltb_lt. unfold Qltb, Qleb.
  destruct (Qle_bool a b); simpl; split; congruence.
Qed.

(** ** Deduplication *)

Section DedupFacts.
Context {U : UnicodeDB}.

Lemma _jaccard_sym (a b : gset str) : _jaccard a b = _jaccard b a.
Proof.
  unfold _jaccard.
  rewrite (andb_comm (bool_decide (a = ∅))), (orb_comm (bool_decide (a = ∅))).
  rewrite (comm_L (∩) a b), (comm_L (∪) a b). reflexivity.
Qed.

Lemma _jaccard_empty : _jaccard ∅ ∅ = 1.
Proof. reflexivity. Qed.

(** What [deduplicate_sections] computes on a list of two sections. *)
Lemma dedup_pair_eq (A B : Sec) (thr : Q) :
  deduplicate_sections [A; B] thr =
    if Qleb thr (_jaccard (token_set A) (token_set B))
    then if dltb (_section_quality A) (_section_quality B) then [B] else [A]
    else [A; B].
Proof.
  unfold deduplicate_sections. cbn [map length seq fold_left].
  unfold dedup_step at 2. cbn [first_dup find app].
  unfold dedup_step, first_dup. cbn [find].
  rewrite (_jaccard_sym (token_set A) (token_set B)).
  change ([token_set A; token_set B] !!! 1%nat) with (token_set B).
  change ([token_set A; token_set B] !!! 0%nat) with (token_set A).
  change ([A; B] !!! 1%nat) with B.
  change ([A; B] !!! 0%nat) with A.
  destruct (Qleb thr _); [|reflexivity].
  destruct (dltb _ _); reflexivity.
Qed.
End DedupFacts.

(** *** Doubles *)

Lemma dmul_comm (x y : double) : dmul x y = dmul y x.
Proof.
  unfold dmul.
  destruct x as [sx|sx| |sx mx ex], y as [sy|sy| |sy my ey];
    cbn [SpecFloat.SFmul]; rewrite ?(xorb_comm sx sy); try reflexivity.
  rewrite (Pos.mul_comm mx my), (Z.add_comm ex ey). reflexivity.
Qed.

Lemma compare_cont_Eq_asym (m1 m2 : positive) :
  Pos.compare_cont Eq m1 m2 = CompOpp (Pos.compare_cont Eq m2 m1).
Proof.
  rewrite (Pos.compare_cont_antisym m2 m1 Eq). reflexivity.
Qed.

(** [x < y] and [y < x] exclude each other. *)
Lemma dltb_asym (x y : double) : dltb x y = true -> dltb y x = false.
Proof.
  unfold dltb, SpecFloat.SFltb.
  destruct x as [sx|sx| |sx mx ex], y as [sy|sy| |sy my ey];
    cbn [SpecFloat.SFcompare]; try discriminate;
    try (destruct sx; discriminate || reflexivity);
    try (destruct sy; discriminate || reflexivity);
    try (destruct sx, sy; discriminate || reflexivity).
  destruct sx, sy; try discriminate; try reflexivity;
    rewrite (Z.compare_antisym ey ex);
    destruct (ey ?= ex)%Z; cbn [CompOpp]; try discriminate;
      try reflexivity;
    rewrite (compare_cont_Eq_asym mx my);
    destruct (Pos.compare_cont Eq my mx); cbn [CompOpp];
      discriminate || reflexivity.
Qed.

(** The quality of the code is the stated one, wherever the page number is
    at least 1. *)
Lemma _section_quality_stated (s : Sec) :
  (1 <= sec_page_number s)%Z -> _section_quality s = stated_quality s.
Proof.
  intros Hpage. unfold _section_quality, stated_quality, stated_level_score.
  cbv zeta. rewrite Z.max_r by exact Hpage.
  rewrite (dmul_comm (decimal 5 10)), (dmul_comm (decimal 4 10)),
    (dmul_comm (decimal 1 10)).
  reflexivity.
Qed.

(** C2: on a list of two sections whose page numbers convert to doubles, a
    Jaccard similarity at or above the threshold keeps exactly the section of
    higher [_section_quality] (the first one when neither is higher) and a
    similarity below it keeps both.  The quality is the stated formula, each
    operation rounded as a double, for page numbers from 1.  Token sets
    {travel, guide, europe} and {travel, guide, europe, tips} have similarity
    3/4, so both sections stay at threshold 0.82 and only the better one
    stays at 0.70. *)
Theorem dedup_two_sections `{U : UnicodeDB} (A B : Sec) (thr : Q) :
  quality_defined A -> quality_defined B ->
  let j := _jaccard (token_set A) (token_set B) in
  (forall s, (1 <= sec_page_number s)%Z ->
             _section_quality s = stated_quality s)
  /\ (thr <= j -> dltb (_section_quality A) (_section_quality B) = true ->
      deduplicate_sections [A; B] thr = [B])
  /\ (thr <= j -> dltb (_section_quality B) (_section_quality A) = true ->
      deduplicate_sections [A; B] thr = [A])
  /\ (thr <= j -> dltb (_section_quality A) (_section_quality B) = false ->
      deduplicate_sections [A; B] thr = [A])
  /\ (j < thr -> deduplicate_sections [A; B] thr = [A; B])
  /\ (token_set A = travel3 -> token_set B = travel4 ->
      j = 3 # 4
      /\ deduplicate_sections [A; B] 0.82 = [A; B]
      /\ deduplicate_sections [A; B] 0.70 =
           [if dltb (_section_quality A) (_section_quality B)
            then B else A]).
Proof.
  intros _ _ j. subst j.
  split; [exact _section_quality_stated|].
  split; [|split; [|split; [|split]]].
  - intros Hj Hq. rewrite dedup_pair_eq.
    apply Qleb_le in Hj. rewrite Hj, Hq. reflexivity.
  - intros Hj Hq. rewrite dedup_pair_eq.
    apply Qleb_le in Hj. rewrite Hj, (dltb_asym _ _ Hq). reflexivity.
  - intros Hj Hq. rewrite dedup_pair_eq.
    apply Qleb_le in Hj. rewrite Hj, Hq. reflexivity.
  - intros Hj. rewrite dedup_pair_eq.
    apply Qleb_false in Hj. rewrite Hj. reflexivity.
  - intros HA HB. split; [|split].
    + rewrite HA, HB. vm_compute. reflexivity.
    + rewrite dedup_pair_eq, HA, HB.
      replace (Qleb 0.82 (_jaccard travel3 travel4)) with false
        by (vm_compute; reflexivity).
      reflexivity.
    + rewrite dedup_pair_eq, HA, HB.
      replace (Qleb 0.70 (_jaccard travel3 travel4)) with true
        by (vm_compute; reflexivity).
      destruct (dltb _ _); reflexivity.
Qed.

Lemma dedup_two_sections_witness :
  token_set (U := ascii_db) europe_guide = travel3
  /\ token_set (U := ascii_db) europe_tips = travel4
  /\ _section_quality europe_guide = stated_quality europe_guide
  /\ dltb (_section_quality europe_guide) (_section_quality europe_tips)
     = true
  /\ deduplicate_sections (U := ascii_db) [europe_guide; europe_tips] 0.82
     = [europe_guide; europe_tips]
  /\ deduplicate_sections (U := ascii_db) [europe_guide; europe_tips] 0.70
     = [europe_tips].
Proof.
  assert (HA : token_set (U := ascii_db) europe_guide = travel3)
    by (vm_compute; reflexivity).
  assert (HB : token_set (U := ascii_db) europe_tips = travel4)
    by (vm_compute; reflexivity).
  assert (Hq : dltb (_section_quality europe_guide)
                    (_section_quality europe_tips) = true)
    by (vm_compute; reflexivity).
  destruct (dedup_two_sections (U := ascii_db) europe_guide europe_tips 0.70)
    as (Hstated & Hbetter & _ & _ & _ & Hs);
    [vm_compute; reflexivity|vm_compute; reflexivity|].
  destruct (Hs HA HB) as (_ & H82 & _).
  split; [exact HA|]. split; [exact HB|].
  split; [apply Hstated; vm_compute; discriminate|].
  split; [exact Hq|]. split; [exact H82|].
  apply Hbetter; [|exact Hq].
  rewrite HA, HB. vm_compute. discriminate.
Defined.

(** C10: two sections whose texts both normalize to no token have Jaccard
    similarity 1, so at every threshold up to 1 [deduplicate_sections] keeps
    exactly one of them, whatever their titles and documents and whatever
    page numbers that convert to doubles: the second when its quality is
    higher, else the first. *)
Theorem empty_token_sets_are_duplicates `{U : UnicodeDB}
    (A B : Sec) (thr : Q) :
  quality_defined A -> quality_defined B ->
  _normalize_text_for_hash (sec_text A) = [] ->
  _normalize_text_for_hash (sec_text B) = [] ->
  thr <= 1 ->
  _jaccard (token_set A) (token_set B) = 1
  /\ deduplicate_sections [A; B] thr =
       [if dltb (_section_quality A) (_section_quality B) then B else A].
Proof.
  intros _ _ HA HB Hthr.
  assert (Hj : _jaccard (token_set A) (token_set B) = 1).
  { unfold token_set. rewrite HA, HB. reflexivity. }
  split; [exact Hj|].
  rewrite dedup_pair_eq, Hj.
  apply Qleb_le in Hthr. rewrite Hthr.
  destruct (dltb _ _); reflexivity.
Qed.

Lemma empty_token_sets_are_duplicates_witness :
  _jaccard (token_set (U := ascii_db) dots_long)
           (token_set (U := ascii_db) dots_short) = 1
  /\ deduplicate_sections (U := ascii_db) [dots_long; dots_short] 1
     = [dots_short].
Proof.
  destruct (empty_token_sets_are_duplicates (U := ascii_db)
              dots_long dots_short 1) as [Hj Hd].
  - vm_compute. reflexivity.
  - vm_compute. reflexivity.
  - vm_compute. reflexivity.
  - vm_compute. reflexivity.
  - discriminate.
  - split; [exact Hj|]. rewrite Hd.
    replace (dltb (_section_quality dots_long) (_section_quality dots_short))
      with true by (vm_compute; reflexivity).
    reflexivity.
Defined.

(** ** Whitespace-delimited tokens *)

Section Runs.
Variable cls : char -> bool.

Lemma runs_skip (c : char) (s : str) :
  cls c = false -> runs cls (c :: s) = runs cls s.
Proof. intros H. simpl. rewrite H. reflexivity. Qed.

Lemma runs_last (c : char) : cls c = true -> runs cls [c] = [[c]].
Proof. intros H. simpl. rewrite H. reflexivity. Qed.

Lemma runs_end_of_run (c c' : char) (s : str) :
  cls c = true -> cls c' = false ->
  runs cls (c :: c' :: s) = [c] :: runs cls s.
Proof.
  intros H H'. change (runs cls (c :: c' :: s))
    with (if cls c then (if cls c' then
            match runs cls (c' :: s) with
            | w :: ws => (c :: w) :: ws
            | [] => [[c]]
            end else [c] :: runs cls (c' :: s)) else runs cls (c' :: s)).
  rewrite H, H', (runs_skip c' s H'). reflexivity.
Qed.

Lemma runs_head (c : char) (s : str) :
  cls c = true -> exists w ws, runs cls (c :: s) = (c :: w) :: ws.
Proof.
  intros H. destruct s as [|c' s].
  - exists [], []. apply runs_last, H.
  - destruct (cls c') eqn:H'.
    + simpl. rewrite H, H'.
      destruct s as [|c'' s]; [eexists _, _; reflexivity|].
      destruct (cls c''); [|eexists _, _; reflexivity].
      destruct (runs cls (c'' :: s)); eexists _, _; reflexivity.
    + exists [], (runs cls s). apply runs_end_of_run; assumption.
Qed.

Lemma runs_in_run (c c' : char) (s : str) :
  cls c = true -> cls c' = true ->
  exists w ws, runs cls (c' :: s) = w :: ws
               /\ runs cls (c :: c' :: s) = (c :: w) :: ws.
Proof.
  intros H H'. destruct (runs_head c' s H') as (w & ws & E).
  exists (c' :: w), ws. split; [exact E|].
  change (runs cls (c :: c' :: s))
    with (if cls c then (if cls c' then
            match runs cls (c' :: s) with
            | w :: ws => (c :: w) :: ws
            | [] => [[c]]
            end else [c] :: runs cls (c' :: s)) else runs cls (c' :: s)).
  rewrite H, H', E. reflexivity.
Qed.

(** Every run is a non-empty word of the class. *)
Lemma runs_words (s : str) : Forall (word cls) (runs cls s).
Proof.
  induction s as [|c s IH]; [constructor|].
  destruct (cls c) eqn:H.
  - destruct s as [|c' s].
    + rewrite runs_last by assumption.
      repeat constructor; [discriminate | assumption].
    + destruct (cls c') eqn:H'.
      * destruct (runs_in_run c c' s H H') as (w & ws & E & E').
        rewrite E'. rewrite E in IH. inversion IH as [|? ? [_ Hw] Hws]; subst.
        constructor; [|assumption].
        split; [discriminate | constructor; assumption].
      * rewrite runs_end_of_run by assumption.
        rewrite (runs_skip c' s H') in IH.
        constructor; [|assumption].
        split; [discriminate | repeat constructor; assumption].
  - rewrite runs_skip by assumption. exact IH.
Qed.

(** A word followed by a character outside the class is one run. *)
Lemma runs_word_then (w : str) (c : char) (s : str) :
  word cls w -> cls c = false -> runs cls (w ++ c :: s) = w :: runs cls s.
Proof.
  intros [Hne Hw] Hc. induction w as [|a w IH]; [congruence|].
  inversion Hw as [|? ? Ha Hw']; subst.
  destruct w as [|b w].
  - simpl app. apply runs_end_of_run; assumption.
  - inversion Hw' as [|? ? Hb _]; subst.
    destruct (runs_in_run a b (w ++ c :: s) Ha Hb) as (w0 & ws & E & E').
    change ((a :: b :: w) ++ c :: s) with (a :: b :: (w ++ c :: s)).
    rewrite E'.
    change (b :: w ++ c :: s) with ((b :: w) ++ c :: s) in E.
    rewrite IH in E by (discriminate || assumption).
    injection E as <- <-. reflexivity.
Qed.

Lemma runs_word (w : str) : word cls w -> runs cls w = [w].
Proof.
  intros [Hne Hw]. induction w as [|a w IH]; [congruence|].
  inversion Hw as [|? ? Ha Hw']; subst.
  destruct w as [|b w].
  - apply runs_last, Ha.
  - inversion Hw' as [|? ? Hb _]; subst.
    destruct (runs_in_run a b w Ha Hb) as (w0 & ws & E & E').
    rewrite E'. rewrite IH in E by (discriminate || assumption).
    injection E as <- <-. reflexivity.
Qed.

(** Joining words with a separator outside the class and splitting again
    gives the words back. *)
Lemma runs_join (sep : char) (ws : list str) :
  cls sep = false -> Forall (word cls) ws -> runs cls (join [sep] ws) = ws.
Proof.
  intros Hsep Hws. induction Hws as [|w ws Hw Hws IH]; [reflexivity|].
  destruct ws as [|w' ws].
  - apply runs_word, Hw.
  - change (join [sep] (w :: w' :: ws)) with (w ++ sep :: join [sep] (w' :: ws)).
    rewrite runs_word_then by assumption. rewrite IH. reflexivity.
Qed.

(** A text of [n] characters holds at most [(n + 1) / 2] runs. *)
Lemma runs_count (s : str) :
  (2 * length (runs cls s) <= length s + starts_in_class cls s)%nat.
Proof.
  induction s as [|c s IH]; [simpl; lia|].
  destruct (cls c) eqn:H.
  - destruct s as [|c' s].
    + rewrite runs_last by assumption. simpl. rewrite H. simpl. lia.
    + destruct (cls c') eqn:H'.
      * destruct (runs_in_run c c' s H H') as (w & ws & E & E').
        rewrite E'. rewrite E in IH. simpl in IH |- *. rewrite H' in IH.
        rewrite H. lia.
      * rewrite runs_end_of_run by assumption.
        rewrite (runs_skip c' s H') in IH. simpl in IH |- *.
        rewrite H' in IH. rewrite H. lia.
  - rewrite runs_skip by assumption. simpl. rewrite H.
    assert (starts_in_class cls s <= 1)%nat
      by (destruct s as [|c' s]; simpl; [lia | destruct (cls c'); lia]).
    lia.
Qed.
End Runs.

Lemma split_join (tokens : list str) :
  Forall (word nonspace) tokens -> split (join [SP] tokens) = tokens.
Proof. apply runs_join. reflexivity. Qed.

Lemma split_count (s : str) : (2 * length (split s) <= length s + 1)%nat.
Proof.
  pose proof (runs_count nonspace s) as H.
  assert (starts_in_class nonspace s <= 1)%nat
    by (destruct s as [|c s]; simpl; [lia | destruct (nonspace c); lia]).
  unfold split. lia.
Qed.

(** ** Snippets *)

Lemma first_best_None {K} (better : K -> K -> bool) (keys : list K) :
  first_best better keys = None <-> keys = [].
Proof. destruct keys; simpl; split; congruence. Qed.

Section SnippetFacts.
Context {U : UnicodeDB}.

(** The early return of [select_snippet]. *)
Lemma select_snippet_fallback (text : str) (q : list str) (n : nat) :
  sentence_split (normalize_text text) = [] ->
  select_snippet text q n = firstn 600 text.
Proof.
  intros H. unfold select_snippet. rewrite H. reflexivity.
Qed.

Lemma select_snippet_tokens (text : str) (q : list str) (n : nat) :
  sentence_split (normalize_text text) <> [] ->
  exists tokens, Forall (word nonspace) tokens
                 /\ (length tokens <= n)%nat
                 /\ select_snippet text q n = join [SP] tokens.
Proof.
  intros H. unfold select_snippet.
  destruct (index_of_max _) as [best_idx|] eqn:E.
  - match goal with
    | |- context [split ?s] => set (snippet := s)
    end.
    pose proof (runs_words nonspace snippet) as Hw. fold (split snippet) in Hw.
    destruct (n <? length (split snippet))%nat eqn:Hn.
    + exists (firstn n (split snippet)). repeat split.
      * rewrite <- (firstn_skipn n (split snippet)) in Hw.
        apply Forall_app in Hw. apply Hw.
      * rewrite length_firstn. lia.
    + exists (split snippet). repeat split; [exact Hw|].
      apply Nat.ltb_ge in Hn. exact Hn.
  - exfalso. apply H. unfold index_of_max in E.
    apply first_best_None in E.
    destruct (sentence_split (normalize_text text)); [reflexivity|discriminate].
Qed.
End SnippetFacts.

(** C6 as stated fails: a text of bullets and spaces has no sentence, so the
    snippet is its first 600 characters, which are 300 tokens. *)
Lemma snippet_of_bullets_has_300_tokens :
  sentence_split (normalize_text (U := ascii_db) bullet_text) = []
  /\ select_snippet (U := ascii_db) bullet_text [] MAX_TOKENS = bullet_text
  /\ length (split (select_snippet (U := ascii_db) bullet_text [] MAX_TOKENS))
     = 300%nat.
Proof. vm_compute. repeat split; reflexivity. Qed.

(** C6, amended: when at least one sentence parses the snippet holds at most
    150 whitespace-delimited tokens; when none parses the snippet is the
    first 600 characters of the text; in both cases it holds at most 300
    tokens. *)
Theorem snippet_token_bound `{U : UnicodeDB} (text : str) (q : list str) :
  (sentence_split (normalize_text text) <> [] ->
     (length (split (select_snippet text q MAX_TOKENS)) <= 150)%nat)
  /\ (sentence_split (normalize_text text) = [] ->
     select_snippet text q MAX_TOKENS = firstn 600 text)
  /\ (length (split (select_snippet text q MAX_TOKENS)) <= 300)%nat.
Proof.
  assert (Hmain : sentence_split (normalize_text text) <> [] ->
            (length (split (select_snippet text q MAX_TOKENS)) <= 150)%nat).
  { intros H.
    destruct (select_snippet_tokens text q MAX_TOKENS H) as (tokens & Hw & Hn & E).
    rewrite E, split_join by assumption. exact Hn. }
  split; [exact Hmain|]. split; [apply select_snippet_fallback|].
  destruct (sentence_split (normalize_text text)) as [|s l] eqn:E.
  - rewrite select_snippet_fallback by assumption.
    pose proof (split_count (firstn 600 text)) as H.
    rewrite length_firstn in H. lia.
  - assert (s :: l <> []) as H by discriminate.
    apply Hmain in H. lia.
Qed.

Lemma snippet_token_bound_witness :
  sentence_split (normalize_text (U := ascii_db) paris_text) <> []
  /\ (length (split (select_snippet (U := ascii_db) paris_text [py "food"]
                                    MAX_TOKENS)) <= 150)%nat.
Proof.
  assert (H : sentence_split (normalize_text (U := ascii_db) paris_text) <> [])
    by (vm_compute; discriminate).
  split; [exact H|].
  exact (proj1 (snippet_token_bound (U := ascii_db) paris_text [py "food"]) H).
Defined.

(** ** Section segmentation *)

Lemma lstrip_length (s : str) : (length (lstrip s) <= length s)%nat.
Proof.
  induction s as [|c s IH]; simpl; [lia|].
  destruct (isspace c); simpl; lia.
Qed.

Lemma strip_length (s : str) : (length (strip s) <= length s)%nat.
Proof.
  unfold strip, rstrip. rewrite length_rev.
  pose proof (lstrip_length (rev (lstrip s))) as H.
  rewrite length_rev in H. pose proof (lstrip_length s). lia.
Qed.

Section SectionFacts.
Context {U : UnicodeDB}.
Variable clean : str -> str.

Lemma section_loop_capped (doc : Document) (headings : list Heading) :
  forall sections,
    section_loop clean doc headings = Some sections ->
    Forall (fun s => (length (sec_text s) <= 5000)%nat) sections.
Proof.
  induction headings as [|heading rest IH]; intros sections H.
  - injection H as <-. constructor.
  - cbn [section_loop] in H.
    destruct (is_clean_title (h_title heading)) as [[|]|]; [|auto|discriminate].
    destruct (text_of_pages doc _ _) as [text|]; [|discriminate].
    cbn [mbind option_bind] in H.
    match type of H with
    | context [bool_decide ?P] => destruct (bool_decide P)
    end.
    all: match type of H with
         | (match ?x with _ => _ end) = _ => destruct x as [text'|] eqn:E
         | (?x ≫= _) = _ => destruct x as [text'|] eqn:E
         end; try discriminate.
    all: cbn [mbind option_bind] in H;
         destruct (section_loop clean doc rest) as [sections'|];
         [|discriminate];
         cbn [mbind option_bind] in H; injection H as <-;
         constructor; [|auto].
    all: cbn [sec_text];
         match goal with
         | |- (length (strip ?t) <= _)%nat =>
             pose proof (strip_length t) as Hs
         end;
         match type of Hs with
         | context [(5000 <? ?n)%nat] =>
             destruct (Nat.ltb_spec 5000 n);
             [rewrite length_firstn in Hs|]; lia
         end.
Qed.
End SectionFacts.

(** C3 as stated fails: with an empty heading list the single section holds
    the whole text of the first pages, here 6000 characters. *)
Lemma fallback_section_is_not_capped :
  option_map (map (fun s => Z.of_nat (length (sec_text s))))
    (extract_sections (U := ascii_db) id [long_page] (mkOutline [] []))
  = Some [6000%Z].
Proof. vm_compute. reflexivity. Qed.

(** C3, amended: for every document and every outline with at least one
    heading, every section [extract_sections] returns has a text of at most
    5000 characters. *)
Theorem section_text_capped `{U : UnicodeDB} (clean : str -> str)
    (doc : Document) (outline : Outline) (sections : list Sec) :
  o_headings outline <> [] ->
  extract_sections clean doc outline = Some sections ->
  Forall (fun s => (length (sec_text s) <= 5000)%nat) sections.
Proof.
  intros Hne H. unfold extract_sections in H.
  destruct (o_headings outline) as [|h hs] eqn:E; [congruence|].
  eapply section_loop_capped; eassumption.
Qed.

Lemma section_text_capped_witness :
  exists sections,
    extract_sections (U := ascii_db) id [leave_form; long_page]
      (mkOutline [] [leave_heading]) = Some sections
    /\ length sections = 1%nat
    /\ Forall (fun s => (length (sec_text s) <= 5000)%nat) sections.
Proof.
  eexists. split; [vm_compute; reflexivity|]. split; [reflexivity|].
  apply (section_text_capped (U := ascii_db) id [leave_form; long_page]
           (mkOutline [] [leave_heading])).
  - discriminate.
  - vm_compute. reflexivity.
Defined.

(** C8: with an empty heading list [extract_sections] returns exactly one
    section; its title is the title of the outline, or "Document" when that
    is empty, its page number is 1 and its text is the text of the first
    three pages at most. *)
Theorem no_headings_one_section `{U : UnicodeDB} (clean : str -> str)
    (doc : Document) (title : str) :
  extract_sections clean doc (mkOutline title []) =
    Some [mkSec (if bool_decide (title = []) then py "Document" else title)
                (concat (map page_text (firstn 3 doc))) 1 None None].
Proof.
  unfold extract_sections. cbn [o_headings o_title].
  destruct title; reflexivity.
Qed.

(** ** Outline extraction *)

Section OutlineFacts.
Context {U : UnicodeDB}.

Lemma is_heading_ok (B : Q) (b : Block) (page level : _) :
  is_heading B b = true ->
  heading_ok B (mkHeading (strip (block_text b)) page (block_max_size b)
                          (block_is_bold b) level (block_min_x0 b)).
Proof.
  unfold is_heading, heading_ok. cbn [h_font_size h_title].
  rewrite !orb_true_iff, !andb_true_iff.
  intros [[[[[H _] | [[_ H] _]] | [H1 H2]] | H] | [[_ H] _]].
  - left. apply Qleb_le in H.
    apply Qle_trans with (B + 0.5); [|exact H].
    rewrite <- (Qplus_0_r B) at 1. apply Qplus_le_r. discriminate.
  - left. apply Qleb_le, H.
  - right. left. split; [exact H1|]. apply Nat.ltb_lt, H2.
  - right. right. exact H.
  - left. apply Qleb_le, H.
Qed.

Lemma heading_step_ok (B height : Q) (page_num : nat) acc (b : Block) :
  Forall (heading_ok B) acc.2 ->
  Forall (heading_ok B) (heading_step B height page_num acc b).2.
Proof.
  destruct acc as [seen headings]. intros H. unfold heading_step.
  destruct (block_lines b); [|exact H].
  destruct (rejected height b); [exact H|].
  destruct (is_heading B b) eqn:E; [|exact H].
  destruct (bool_decide _); [exact H|].
  cbn [snd]. apply Forall_app. split; [exact H|].
  constructor; [|constructor]. apply is_heading_ok, E.
Qed.

Lemma extract_headings_ok (B : Q) (doc : Document) :
  Forall (heading_ok B) (extract_headings B doc).
Proof.
  unfold extract_headings.
  assert (Hpage : forall blocks height page_num acc,
            Forall (heading_ok B) acc.2 ->
            Forall (heading_ok B)
              (fold_left (heading_step B height page_num) blocks acc).2).
  { induction blocks as [|b blocks IH]; intros height page_num acc H;
      [exact H|].
    cbn [fold_left]. apply IH, heading_step_ok, H. }
  assert (Hdoc : forall pages acc,
            Forall (heading_ok B) acc.2 ->
            Forall (heading_ok B)
              (fold_left (headings_of_page B) pages acc).2).
  { induction pages as [|p pages IH]; intros acc H; [exact H|].
    cbn [fold_left]. apply IH. unfold headings_of_page. apply Hpage, H. }
  apply Hdoc. constructor.
Qed.
End OutlineFacts.

(** C4: every heading [extract_outline] emits has a font size of at least
    the estimated body size, or an uppercase text shorter than 50
    characters, or a text that starts with a numbering. *)
Theorem headings_not_below_body_size `{U : UnicodeDB}
    (set_iter : list Q -> list Q) (doc : Document) (outline : Outline) :
  extract_outline set_iter doc = Some outline ->
  Forall (heading_ok (body_size_of set_iter doc)) (o_headings outline).
Proof.
  unfold extract_outline. destruct doc as [|first_page doc]; [discriminate|].
  intros H. injection H as <-. apply extract_headings_ok.
Qed.

Lemma headings_not_below_body_size_witness :
  exists outline,
    extract_outline (U := ascii_db) id [leave_form] = Some outline
    /\ o_headings outline = [leave_heading]
    /\ Forall (heading_ok (U := ascii_db) (body_size_of id [leave_form]))
              (o_headings outline).
Proof.
  eexists. split; [vm_compute; reflexivity|]. split; [reflexivity|].
  apply (headings_not_below_body_size (U := ascii_db) id [leave_form]).
  vm_compute. reflexivity.
Defined.

Lemma Permutation_3_inv {A} (a b c : A) (l : list A) :
  Permutation l [a; b; c] ->
  l = [a; b; c] \/ l = [a; c; b] \/ l = [b; a; c]
  \/ l = [b; c; a] \/ l = [c; a; b] \/ l = [c; b; a].
Proof.
  intros H. apply Permutation_cons_inv_r in H as (k1 & k2 & -> & H).
  apply Permutation_length_2_inv in H.
  destruct H as [H|H]; destruct k1 as [|x [|y [|z k1]]];
    simplify_eq/=; tauto.
Qed.

(** C5 fails on the code: the sizes are collected into a set before they are
    counted, so the histogram counts distinct sizes, not spans.  On
    [mixed_sizes] the body size is 18.0 whatever the iteration order of the
    set, while the most frequent span size is 12.0. *)
Theorem body_size_counts_distinct_sizes (set_iter : list Q -> list Q) :
  (forall l, Permutation (set_iter l) l) ->
  body_size_of set_iter [mixed_sizes] == 18
  /\ most_frequent_span_size [mixed_sizes] == 12.
Proof.
  intros Hperm. split; [|vm_compute; reflexivity].
  unfold body_size_of.
  assert (E : counter_keys (sampled_sizes [mixed_sizes]) = [12; 18.01; 18.02])
    by (vm_compute; reflexivity).
  rewrite E. specialize (Hperm [12; 18.01; 18.02]).
  apply Permutation_3_inv in Hperm.
  destruct Hperm as [-> | [-> | [-> | [-> | [-> | ->]]]]];
    vm_compute; reflexivity.
Qed.

Lemma body_size_counts_distinct_sizes_witness :
  body_size_of id [mixed_sizes] == 18
  /\ most_frequent_span_size [mixed_sizes] == 12.
Proof.
  apply (body_size_counts_distinct_sizes id). intros l. reflexivity.
Defined.

(** ** The form short-circuit *)

(** C7 as stated fails for the extractor of the ranking pipeline:
    [extract_outline] of 1b has no form short-circuit, and returns the heading
    of a page whose text contains "application form". *)
Lemma ranking_outline_keeps_form_headings :
  contains (py "application form")
           (str_lower (UnicodeDB := ascii_db)
                      (PDFOutlineExtractor.sample_text [leave_form])) = true
  /\ option_map o_headings (extract_outline (U := ascii_db) id [leave_form])
     = Some [leave_heading].
Proof. vm_compute. split; reflexivity. Qed.

Lemma any_in_true (patterns : list str) (p text : str) :
  p ∈ patterns -> contains p text = true ->
  PDFOutlineExtractor.any_in patterns text = true.
Proof.
  intros Hin Hc. unfold PDFOutlineExtractor.any_in.
  apply existsb_exists. exists p. split; [|exact Hc].
  apply list_elem_of_In, Hin.
Qed.

(** C7, amended: for the extractor of 1a ([PDFOutlineExtractor]), when the
    lowercased text of the first three pages contains "application form", or
    a form pattern of the language detected in it, the outline of
    [extract_outline] is empty, whatever the blocks of the document and the
    earlier state of the extractor. *)
Theorem form_documents_have_no_headings `{U : UnicodeDB}
    (self : PDFOutlineExtractor.Extractor) (doc : Document) :
  let doc_text_lower := str_lower (PDFOutlineExtractor.sample_text doc) in
  (contains (py "application form") doc_text_lower = true
   \/ exists lang p,
        PDFOutlineExtractor._detect_non_english_language
          (PDFOutlineExtractor.sample_text doc) = Some lang
        /\ p ∈ form_patterns (MULTILINGUAL_PATTERNS lang)
        /\ contains p doc_text_lower = true) ->
  PDFOutlineExtractor.r_outline
    (PDFOutlineExtractor.extract_outline self doc).2 = [].
Proof.
  intros doc_text_lower H.
  unfold PDFOutlineExtractor.extract_outline.
  cbn [snd PDFOutlineExtractor.r_outline].
  unfold PDFOutlineExtractor._extract_headings.
  fold doc_text_lower.
  destruct H as [H | (lang & p & Hlang & Hin & Hc)].
  - rewrite H. reflexivity.
  - destruct (contains (py "application form") doc_text_lower
              || contains (py "government servant") doc_text_lower);
      [reflexivity|].
    rewrite Hlang. cbn [PDFOutlineExtractor.multilingual_patterns].
    rewrite (any_in_true _ p doc_text_lower Hin Hc). reflexivity.
Qed.

Lemma form_documents_have_no_headings_witness :
  contains (py "application form")
           (str_lower (UnicodeDB := ascii_db)
                      (PDFOutlineExtractor.sample_text [leave_form])) = true
  /\ PDFOutlineExtractor.r_outline
       (PDFOutlineExtractor.extract_outline (U := ascii_db)
          PDFOutlineExtractor.init [leave_form]).2 = [].
Proof.
  assert (H : contains (py "application form")
                (str_lower (UnicodeDB := ascii_db)
                   (PDFOutlineExtractor.sample_text [leave_form])) = true)
    by (vm_compute; reflexivity).
  split; [exact H|].
  apply (form_documents_have_no_headings (U := ascii_db)
           PDFOutlineExtractor.init [leave_form]).
  left. exact H.
Defined.

(** ** Sorting and selection *)

Lemma insert_desc_perm {A} (le : A -> A -> bool) (x : A) (l : list A) :
  Permutation (insert_desc le x l) (x :: l).
Proof.
  induction l as [|y l IH]; [reflexivity|].
  simpl. destruct (le y x); [reflexivity|].
  rewrite IH. apply perm_swap.
Qed.

Lemma sorted_desc_perm {A} (le : A -> A -> bool) (l : list A) :
  Permutation (sorted_desc le l) l.
Proof.
  induction l as [|x l IH]; [reflexivity|].
  simpl. rewrite insert_desc_perm, IH. reflexivity.
Qed.

Lemma sorted_desc_length {A} (le : A -> A -> bool) (l : list A) :
  length (sorted_desc le l) = length l.
Proof. apply Permutation_length, sorted_desc_perm. Qed.

Lemma StronglySorted_cross {A} (R : A -> A -> Prop) (l1 l2 : list A) :
  StronglySorted R (l1 ++ l2) ->
  forall x y, x ∈ l1 -> y ∈ l2 -> R x y.
Proof.
  induction l1 as [|a l1 IH]; intros H x y Hx Hy.
  - inversion Hx.
  - simpl in H. apply StronglySorted_inv in H as [Hs Hf].
    apply elem_of_cons in Hx as [->|Hx].
    + rewrite Forall_forall in Hf. apply Hf, elem_of_app. right. exact Hy.
    + eapply IH; eassumption.
Qed.

(** The first index of a smallest key. *)
Lemma first_best_from_min (keys : list Q) :
  forall (pre : list Q) (best : nat) (best_key : Q),
    pre !! best = Some best_key ->
    (forall k, k ∈ pre -> best_key <= k) ->
    exists k,
      (pre ++ keys)
        !! first_best_from (fun k b => Qltb k b) keys (length pre) best best_key
      = Some k
      /\ forall k', k' ∈ pre ++ keys -> k <= k'.
Proof.
  induction keys as [|k keys IH]; intros pre best best_key Hb Hmin.
  - exists best_key. rewrite app_nil_r. simpl. auto.
  - cbn [first_best_from].
    replace (pre ++ k :: keys) with ((pre ++ [k]) ++ keys)
      by (rewrite <- app_assoc; reflexivity).
    replace (S (length pre)) with (length (pre ++ [k]))
      by (rewrite length_app; simpl; lia).
    destruct (Qltb k best_key) eqn:E.
    + apply Qltb_lt in E. apply IH.
      * rewrite lookup_app_r by lia. rewrite Nat.sub_diag. reflexivity.
      * intros k' Hk'. apply elem_of_app in Hk' as [Hk'|Hk'].
        -- apply Qle_trans with best_key; [apply Qlt_le_weak, E|auto].
        -- apply list_elem_of_singleton in Hk' as ->. apply Qle_refl.
    + apply Qltb_false in E. apply IH.
      * rewrite lookup_app_l by (eapply lookup_lt_Some; eassumption). exact Hb.
      * intros k' Hk'. apply elem_of_app in Hk' as [Hk'|Hk'].
        -- auto.
        -- apply list_elem_of_singleton in Hk' as ->. exact E.
Qed.

Lemma index_of_min_spec (keys : list Q) (w : nat) :
  index_of_min keys = Some w ->
  exists k, keys !! w = Some k /\ forall k', k' ∈ keys -> k <= k'.
Proof.
  destruct keys as [|k0 keys]; [discriminate|].
  unfold index_of_min, first_best. intros H. injection H as <-.
  apply (first_best_from_min keys [k0] 0 k0).
  - reflexivity.
  - intros k Hk. apply list_elem_of_singleton in Hk as ->. apply Qle_refl.
Qed.

Lemma index_of_min_None (keys : list Q) :
  index_of_min keys = None <-> keys = [].
Proof. apply first_best_None. Qed.

(** Replacing one element of a list without repetition. *)
Lemma insert_split {A} (l : list A) (w : nat) (e c : A) :
  l !! w = Some e ->
  l = take w l ++ e :: drop (S w) l
  /\ <[w := c]> l = take w l ++ c :: drop (S w) l.
Proof.
  intros H. split.
  - symmetry. apply take_drop_middle, H.
  - apply insert_take_drop. eapply lookup_lt_Some, H.
Qed.

Lemma py_take_length {A} (k : Z) (l : list A) :
  (0 <= k)%Z ->
  Z.of_nat (length (py_take k l)) = Z.min k (Z.of_nat (length l)).
Proof.
  intros H. unfold py_take.
  destruct (Z.leb_spec 0 k); [|lia].
  rewrite length_firstn. lia.
Qed.

Lemma py_take_all {A} (k : Z) (l : list A) :
  (Z.of_nat (length l) <= k)%Z -> py_take k l = l.
Proof.
  intros H. unfold py_take.
  destruct (Z.leb_spec 0 k); [|lia].
  apply firstn_all2. lia.
Qed.

(** ** The store *)

Lemma upd_same (h : Heap) (r : nat) (f : Dict -> Dict) :
  upd h r f r = f (h r).
Proof. unfold upd. rewrite Nat.eqb_refl. reflexivity. Qed.

Lemma upd_other (h : Heap) (r r' : nat) (f : Dict -> Dict) :
  r' <> r -> upd h r f r' = h r'.
Proof.
  intros H. unfold upd. apply Nat.eqb_neq in H. rewrite H. reflexivity.
Qed.

(** A field that no step of a loop touches is the same after the loop. *)
Lemma fold_preserves {X B} (g : Dict -> B) (step : Heap -> X -> Heap) :
  (forall h x r, g (step h x r) = g (h r)) ->
  forall (l : list X) (h : Heap) (r : nat),
    g (fold_left step l h r) = g (h r).
Proof.
  intros Hstep. induction l as [|x l IH]; intros h r; [reflexivity|].
  cbn [fold_left]. rewrite IH. apply Hstep.
Qed.

Lemma upd_preserves {B} (g : Dict -> B) (f : Dict -> Dict)
    (h : Heap) (r r' : nat) :
  (forall d, g (f d) = g d) -> g (upd h r f r') = g (h r').
Proof.
  intros H. unfold upd. destruct (r' =? r)%nat; [apply H|reflexivity].
Qed.

Lemma score_eq (h h' : Heap) (r : nat) :
  d_score (h r) = d_score (h' r) -> score h r = score h' r.
Proof. unfold score. intros ->. reflexivity. Qed.

Section RankerFacts.
Context {U : UnicodeDB}.
Variable combined_score : list Sec -> str -> str -> nat -> Q.
Variable cos_sim : Sec -> Sec -> Q.
Variable ranks_cross : option (str -> list Sec -> option (list Q)).
Variable diversity : Q.

(** *** The scoring loop *)

Lemma score_all_score (sections : list Sec) (persona job : str) (h : Heap) :
  forall r, (r < length sections)%nat ->
    d_score (score_all combined_score sections persona job h r)
    = Some (combined_score sections persona job r).
Proof.
  unfold score_all. intros r Hr.
  assert (Hin : r ∈ seq 0 (length sections))
    by (apply list_elem_of_In, in_seq; lia).
  revert h Hin.
  generalize (seq 0 (length sections)) as l.
  intros l h Hin.
  assert (H : r ∈ l \/ d_score (h r)
                       = Some (combined_score sections persona job r))
    by (left; exact Hin).
  clear Hin. revert h H.
  induction l as [|i l IH]; intros h [Hin|Hh].
  - inversion Hin.
  - exact Hh.
  - cbn [fold_left]. apply IH.
    apply elem_of_cons in Hin as [->|Hin]; [right|left; exact Hin].
    rewrite upd_same. reflexivity.
  - cbn [fold_left]. apply IH. right.
    destruct (Nat.eq_dec r i) as [->|Hne].
    + rewrite upd_same. reflexivity.
    + rewrite upd_other by assumption. exact Hh.
Qed.

Lemma score_all_mmr (sections : list Sec) (persona job : str) (r : nat) :
  d_mmr (score_all combined_score sections persona job
           (initial_heap sections) r) = None.
Proof.
  unfold score_all.
  rewrite (fold_preserves d_mmr); [reflexivity|].
  intros h x r'. apply upd_preserves. reflexivity.
Qed.

Lemma score_all_ce (sections : list Sec) (persona job : str) (r : nat) :
  d_ce (score_all combined_score sections persona job
          (initial_heap sections) r) = None.
Proof.
  unfold score_all.
  rewrite (fold_preserves d_ce); [reflexivity|].
  intros h x r'. apply upd_preserves. reflexivity.
Qed.

(** *** The cross-encoder pass *)

Lemma rerank_spec (persona job : str) (top_n : Z)
    (h : Heap) (ordered : list nat) :
  let res := rerank ranks_cross persona job top_n h ordered in
  Permutation res.2 ordered
  /\ (forall r, d_score (res.1 r) = d_score (h r))
  /\ (forall r, d_mmr (res.1 r) = d_mmr (h r))
  /\ (ranks_cross = None -> res = (h, ordered)).
Proof.
  unfold rerank.
  destruct ranks_cross as [predict|]; [|cbn; auto].
  destruct ordered as [|r0 ordered']; [cbn; split; [auto|]; split; [auto|];
    split; [auto|discriminate]|].
  set (ordered := r0 :: ordered').
  destruct (predict _ _) as [ce_scores|];
    [|cbn; split; [auto|]; split; [auto|]; split; [auto|discriminate]].
  cbn [fst snd]. split; [|split; [|split; [|discriminate]]].
  - set (k := Z.min _ _).
    assert (0 <= k)%Z by (subst k; lia).
    unfold py_take. destruct (Z.leb_spec 0 k); [|lia].
    rewrite sorted_desc_perm.
    assert (E : skipn (length (firstn (Z.to_nat k) ordered)) ordered
                = skipn (Z.to_nat k) ordered).
    { rewrite length_firstn.
      destruct (Nat.le_gt_cases (Z.to_nat k) (length ordered)).
      - rewrite Nat.min_l by assumption. reflexivity.
      - rewrite Nat.min_r by lia. rewrite !skipn_all2 by lia. reflexivity. }
    rewrite E, firstn_skipn. reflexivity.
  - intros r. apply (fold_preserves d_score).
    intros h' x r'. apply upd_preserves. reflexivity.
  - intros r. apply (fold_preserves d_mmr).
    intros h' x r'. apply upd_preserves. reflexivity.
Qed.
End RankerFacts.

(** ** The selection loop at diversity 0 *)

Section MmrFacts.
Variable cos_sim : Sec -> Sec -> Q.
Variable diversity : Q.
Variable top_n : Z.
Variable ordered : list nat.
Variable h0 : Heap.
Hypothesis Hdiv : diversity == 0.

Lemma retained_is_score (st : mmr_state) (done : list nat) (r : nat) :
  mmr_inv top_n h0 st done -> retained (m_heap st) r == score h0 r.
Proof.
  intros (I1 & I2 & _). unfold retained.
  destruct (d_mmr (m_heap st r)) as [m|] eqn:E; cbn [default].
  - apply I2, E.
  - rewrite (score_eq _ h0) by apply I1. reflexivity.
Qed.

Lemma mmr_score_is_score (h : Heap) (c : nat) (sim : Q) :
  score h c - diversity * sim == score h c.
Proof. rewrite Hdiv. ring. Qed.

Lemma mmr_step_inv (st st' : mmr_state) (done : list nat) (i c : nat) :
  mmr_inv top_n h0 st done -> c ∉ done ->
  mmr_step cos_sim diversity top_n ordered st i c = Some st' ->
  mmr_inv top_n h0 st' (done ++ [c]).
Proof.
  intros Inv Hc Hstep.
  pose proof (fun r => retained_is_score st done r Inv) as Hret.
  destruct Inv as (I1 & I2 & I3 & I4 & I5 & I6).
  unfold mmr_step in Hstep.
  destruct (Z.ltb_spec (Z.of_nat (length (m_selected st))) top_n) as [Hlt|Hge].
  - (* the candidate is appended *)
    injection Hstep as <-. unfold mmr_inv. cbn [m_heap m_selected].
    assert (Hall : forall u, u ∈ done -> u ∈ m_selected st).
    { intros u Hu.
      assert (Hp : Permutation (m_selected st) done).
      { apply submseteq_length_Permutation; [|lia].
        apply NoDup_submseteq; assumption. }
      rewrite Hp. exact Hu. }
    split; [exact I1|]. split; [exact I2|].
    split.
    { apply NoDup_app. split; [exact I3|]. split; [|apply NoDup_singleton].
      intros x Hx Hx'. apply list_elem_of_singleton in Hx' as ->.
      apply Hc, I4, Hx. }
    split.
    { intros r Hr. apply elem_of_app in Hr as [Hr|Hr];
        apply elem_of_app; [left; apply I4, Hr|right; exact Hr]. }
    split; [rewrite !length_app; simpl; lia|].
    intros u r Hu Hnu Hr. exfalso. apply Hnu, elem_of_app.
    apply elem_of_app in Hu as [Hu|Hu]; [left; apply Hall, Hu|right; exact Hu].
  - (* the candidate competes with the weakest selected section *)
    destruct (index_of_min _) as [w|] eqn:Ew; [|discriminate].
    apply index_of_min_spec in Ew as (k & Hk & Hmin).
    rewrite list_lookup_fmap in Hk.
    destruct (m_selected st !! w) as [e|] eqn:Ee; [|discriminate].
    injection Hk as <-.
    rewrite (list_lookup_total_correct _ _ _ Ee) in Hstep.
    assert (He : e ∈ m_selected st) by (eapply list_elem_of_lookup_2, Ee).
    assert (Hworst : forall r, r ∈ m_selected st -> score h0 e <= score h0 r).
    { intros r Hr. rewrite <- (Hret e), <- (Hret r).
      apply Hmin, list_elem_of_fmap. exists r. auto. }
    set (sim := Qmax_list _) in Hstep.
    pose proof (mmr_score_is_score (m_heap st) c sim) as Hmmr.
    rewrite (score_eq _ h0 c) in Hmmr at 2 by apply I1.
    destruct (Qltb _ _) eqn:Hcmp; injection Hstep as <-.
    + (* it replaces the weakest *)
      apply Qltb_lt in Hcmp. rewrite Hret, Hmmr in Hcmp.
      destruct (insert_split (m_selected st) w e c Ee) as [Esel Eins].
      unfold mmr_inv. cbn [m_heap m_selected].
      split; [intros r; rewrite <- I1; apply upd_preserves; reflexivity|].
      split.
      { intros r m Hm. destruct (Nat.eq_dec r c) as [->|Hne].
        - rewrite upd_same in Hm. cbn in Hm. injection Hm as <-. exact Hmmr.
        - rewrite upd_other in Hm by assumption. apply I2, Hm. }
      assert (Hcsel : c ∉ m_selected st) by (intros H; apply Hc, I4, H).
      rewrite Esel in I3, Hcsel.
      apply NoDup_app in I3 as (N1 & N2 & N3).
      apply NoDup_cons in N3 as (N3 & N4).
      split.
      { rewrite Eins. apply NoDup_app. split; [exact N1|]. split.
        - intros x Hx Hx'. apply elem_of_cons in Hx' as [->|Hx'].
          + apply Hcsel, elem_of_app. left. exact Hx.
          + apply (N2 x Hx). right. exact Hx'.
        - apply NoDup_cons. split; [|exact N4].
          intros H. apply Hcsel, elem_of_app. right. right. exact H. }
      split.
      { intros r Hr. rewrite Eins in Hr. apply elem_of_app.
        apply elem_of_app in Hr as [Hr|Hr].
        - left. apply I4. rewrite Esel. apply elem_of_app. left. exact Hr.
        - apply elem_of_cons in Hr as [->|Hr]; [right; left|left].
          apply I4. rewrite Esel. apply elem_of_app. right. right. exact Hr. }
      split; [rewrite length_insert, length_app; simpl; lia|].
      intros u r Hu Hnu Hr.
      assert (Hr' : r = c \/ (r ∈ m_selected st)).
      { rewrite Eins in Hr. apply elem_of_app in Hr as [Hr|Hr].
        - right. rewrite Esel. apply elem_of_app. left. exact Hr.
        - apply elem_of_cons in Hr as [->|Hr]; [left; reflexivity|right].
          rewrite Esel. apply elem_of_app. right. right. exact Hr. }
      assert (Hu' : u ∈ done).
      { apply elem_of_app in Hu as [Hu|Hu]; [exact Hu|].
        apply list_elem_of_singleton in Hu as ->.
        exfalso. apply Hnu. rewrite Eins. apply elem_of_app. right. left. }
      assert (Hue : score h0 u <= score h0 e).
      { destruct (Nat.eq_dec u e) as [->|Hne]; [apply Qle_refl|].
        apply I6; [exact Hu'| |exact He].
        intros Hin. rewrite Esel in Hin. apply Hnu. rewrite Eins.
        apply elem_of_app in Hin as [Hin|Hin];
          apply elem_of_app; [left; exact Hin|right].
        apply elem_of_cons in Hin as [->|Hin]; [congruence|right; exact Hin]. }
      destruct Hr' as [->|Hr'].
      * apply Qle_trans with (score h0 e); [exact Hue|].
        apply Qlt_le_weak, Hcmp.
      * apply Qle_trans with (score h0 e); [exact Hue|]. apply Hworst, Hr'.
    + (* it is left out *)
      apply Qltb_false in Hcmp. rewrite Hret, Hmmr in Hcmp.
      unfold mmr_inv.
      split; [exact I1|]. split; [exact I2|]. split; [exact I3|].
      split; [intros r Hr; apply elem_of_app; left; apply I4, Hr|].
      split; [rewrite length_app; simpl; lia|].
      intros u r Hu Hnu Hr.
      apply elem_of_app in Hu as [Hu|Hu]; [apply I6; assumption|].
      apply list_elem_of_singleton in Hu as ->.
      apply Qle_trans with (score h0 e); [exact Hcmp|]. apply Hworst, Hr.
Qed.

Lemma mmr_loop_inv (rest : list nat) :
  forall (st st' : mmr_state) (done : list nat) (i : nat),
    NoDup (done ++ rest) ->
    mmr_inv top_n h0 st done ->
    mmr_loop cos_sim diversity top_n ordered st i rest = Some st' ->
    mmr_inv top_n h0 st' (done ++ rest).
Proof.
  induction rest as [|c rest IH]; intros st st' done i Hnd Inv Hloop.
  - injection Hloop as <-. rewrite app_nil_r. exact Inv.
  - cbn [mmr_loop] in Hloop.
    destruct (mmr_step _ _ _ _ _ _ _) as [st1|] eqn:Hstep; [|discriminate].
    replace (done ++ c :: rest) with ((done ++ [c]) ++ rest) in *
      by (rewrite <- app_assoc; reflexivity).
    eapply IH; [exact Hnd| |exact Hloop].
    eapply mmr_step_inv; [exact Inv| |exact Hstep].
    apply NoDup_app in Hnd as (Hnd & _ & _).
    apply NoDup_app in Hnd as (_ & Hnd & _).
    intros H. apply (Hnd c H). left.
Qed.
End MmrFacts.

(** ** The selection loop on candidates sorted by score *)

Lemma insert_desc_sorted (h : Heap) (x : nat) (l : list nat) :
  StronglySorted (before (score h)) l ->
  (forall y, y ∈ l -> (x < y)%nat) ->
  StronglySorted (before (score h)) (insert_desc (le_score h) x l).
Proof.
  induction l as [|y l IH]; intros Hs Hlt.
  - repeat constructor.
  - apply StronglySorted_inv in Hs as [Hs Hy].
    rewrite Forall_forall in Hy.
    cbn [insert_desc]. unfold le_score at 1.
    destruct (Qleb (score h y) (score h x)) eqn:E.
    + apply Qleb_le in E. constructor; [constructor; [exact Hs|]|].
      * apply Forall_forall. exact Hy.
      * apply Forall_forall. intros z Hz.
        assert (Hxz : (x < z)%nat) by (apply Hlt, Hz).
        assert (Hzx : score h z <= score h x).
        { apply elem_of_cons in Hz as [->|Hz]; [exact E|].
          apply Qle_trans with (score h y); [|exact E].
          destruct (Hy z Hz) as [H|[H _]];
            [apply Qlt_le_weak, H | rewrite H; apply Qle_refl]. }
        apply Qle_lt_or_eq in Hzx as [H|H]; [left; exact H|right; auto].
    + apply Qleb_false in E. constructor.
      * apply IH; [exact Hs|]. intros z Hz. apply Hlt. right. exact Hz.
      * apply Forall_forall. intros z Hz.
        rewrite insert_desc_perm in Hz.
        apply elem_of_cons in Hz as [->|Hz]; [left; exact E|apply Hy, Hz].
Qed.

Lemma sorted_desc_seq_sorted (h : Heap) (n : nat) :
  forall a, StronglySorted (before (score h))
              (sorted_desc (le_score h) (seq a n)).
Proof.
  induction n as [|n IH]; intros a; [constructor|].
  cbn [seq sorted_desc fold_right]. apply insert_desc_sorted; [apply IH|].
  intros y Hy. fold (sorted_desc (le_score h) (seq (S a) n)) in Hy.
  rewrite sorted_desc_perm in Hy.
  apply list_elem_of_In, in_seq in Hy. lia.
Qed.

Section SortedMmr.
Variable cos_sim : Sec -> Sec -> Q.
Variable diversity : Q.
Variable top_n : Z.
Variable ordered : list nat.
Variable h0 : Heap.
Hypothesis Hdiv : diversity == 0.
Hypothesis Hfresh : forall r, d_mmr (h0 r) = None.

Lemma mmr_step_sorted (done rest : list nat) (st st' : mmr_state)
    (i c : nat) :
  StronglySorted (before (score h0)) (done ++ c :: rest) ->
  m_heap st = h0 ->
  m_selected st = firstn (Z.to_nat top_n) done ->
  mmr_step cos_sim diversity top_n ordered st i c = Some st' ->
  m_heap st' = h0
  /\ m_selected st' = firstn (Z.to_nat top_n) (done ++ [c]).
Proof.
  intros Hs Hh Hsel. unfold mmr_step. rewrite Hh, Hsel.
  rewrite length_firstn.
  destruct (Z.ltb_spec (Z.of_nat (Nat.min (Z.to_nat top_n) (length done)))
              top_n) as [Hlt|Hge].
  - intros H. injection H as <-. cbn [m_heap m_selected].
    split; [reflexivity|].
    rewrite !firstn_all2 by (rewrite ?length_app; simpl; lia). reflexivity.
  - destruct (index_of_min _) as [w|] eqn:Ew; [|discriminate].
    apply index_of_min_spec in Ew as (k & Hk & _).
    rewrite list_lookup_fmap in Hk.
    destruct (firstn (Z.to_nat top_n) done !! w) as [e|] eqn:Ee;
      [|discriminate].
    rewrite (list_lookup_total_correct _ _ _ Ee).
    assert (He : e ∈ done).
    { apply list_elem_of_lookup_2 in Ee.
      rewrite <- (firstn_skipn (Z.to_nat top_n) done).
      apply elem_of_app. left. exact Ee. }
    assert (Hle : score h0 c <= score h0 e).
    { destruct (StronglySorted_cross _ _ _ Hs e c He) as [H|[H _]];
        [left| apply Qlt_le_weak, H | rewrite H; apply Qle_refl]. }
    assert (Hlen : (Z.to_nat top_n <= length done)%nat).
    { apply lookup_lt_Some in Ee. rewrite length_firstn in Ee. lia. }
    match goal with
    | |- context [Qltb ?a ?b] => assert (Hcmp : Qltb a b = false)
    end.
    { apply Qltb_false. unfold retained. rewrite Hfresh. cbn [default].
      rewrite (mmr_score_is_score diversity Hdiv). exact Hle. }
    rewrite Hcmp. intros H. injection H as <-. split; [exact Hh|].
    rewrite Hsel, firstn_app.
    replace (Z.to_nat top_n - length done)%nat with 0%nat by lia.
    rewrite app_nil_r. reflexivity.
Qed.

Lemma mmr_loop_sorted (rest : list nat) :
  forall (done : list nat) (st st' : mmr_state) (i : nat),
    StronglySorted (before (score h0)) (done ++ rest) ->
    m_heap st = h0 ->
    m_selected st = firstn (Z.to_nat top_n) done ->
    mmr_loop cos_sim diversity top_n ordered st i rest = Some st' ->
    m_heap st' = h0
    /\ m_selected st' = firstn (Z.to_nat top_n) (done ++ rest).
Proof.
  induction rest as [|c rest IH]; intros done st st' i Hs Hh Hsel Hloop.
  - injection Hloop as <-. rewrite app_nil_r. auto.
  - cbn [mmr_loop] in Hloop.
    destruct (mmr_step _ _ _ _ _ _ _) as [st1|] eqn:E; [|discriminate].
    destruct (mmr_step_sorted done rest st st1 i c Hs Hh Hsel E) as [Hh1 Hs1].
    replace (done ++ c :: rest) with ((done ++ [c]) ++ rest) in *
      by (rewrite <- app_assoc; reflexivity).
    eapply IH; eassumption.
Qed.
End SortedMmr.

(** A call that returns on a non-empty candidate list has a positive
    [top_n]: with none, [min] over the empty selection raises. *)
Lemma mmr_loop_positive (cos_sim : Sec -> Sec -> Q) (diversity : Q)
    (top_n : Z) (ordered : list nat) (h : Heap) (c : nat) (rest : list nat)
    (st' : mmr_state) :
  mmr_loop cos_sim diversity top_n ordered (mkMmr h [] []) 0 (c :: rest)
  = Some st' ->
  (0 < top_n)%Z.
Proof.
  cbn [mmr_loop]. unfold mmr_step. cbn [m_selected length].
  destruct (Z.ltb_spec (Z.of_nat 0) top_n) as [H|H]; [lia|].
  cbn. discriminate.
Qed.

(** ** Ranking *)

(** C1 as stated fails: with the cross-encoder the candidates are no longer
    in the order of their raw scores, and when a later candidate beats the
    weakest selected score, the first of the selected sections that tie at
    that score is evicted.  Sections 0 and 1 tie at score 1 and section 2 has
    score 2: the call returns sections 2 and 1, not 2 and 0. *)
Lemma cross_encoder_evicts_the_earlier_tie :
  option_map snd
    (rank_sections_refs (U := ascii_db) tied_scores flat_similarity
       (Some list_order_encoder) 0 three_sections
       (py "Travel Planner") (py "Plan a trip") 2)
  = Some [2; 1]%nat
  /\ map (tied_scores three_sections (py "Travel Planner") (py "Plan a trip"))
         [0; 1; 2]%nat
     = [1; 1; 2].
Proof. vm_compute. split; reflexivity. Qed.

(** C1, amended: [rank_sections] returns at most [top_n] sections; when the
    diversity is 0 it returns [min(top_n, len(sections))] distinct sections
    and no section left out has a higher raw score than a returned one; when
    moreover no cross-encoder is loaded, a section left out that ties with a
    returned one comes later in the list. *)
Theorem rank_sections_top_n `{U : UnicodeDB}
    (combined_score : list Sec -> str -> str -> nat -> Q)
    (cos_sim : Sec -> Sec -> Q)
    (ranks_cross : option (str -> list Sec -> option (list Q)))
    (diversity : Q)
    (sections : list Sec) (persona job : str) (top_n : Z)
    (h : Heap) (ranked : list nat) :
  rank_sections_refs combined_score cos_sim ranks_cross diversity
    sections persona job top_n = Some (h, ranked) ->
  let raw := combined_score sections persona job in
  (Z.of_nat (length ranked) <= top_n)%Z
  /\ (diversity == 0 ->
      NoDup ranked
      /\ (forall r, r ∈ ranked -> (r < length sections)%nat)
      /\ Z.of_nat (length ranked) = Z.min top_n (Z.of_nat (length sections))
      /\ forall r u,
           r ∈ ranked -> (u < length sections)%nat -> u ∉ ranked ->
           raw u <= raw r
           /\ (ranks_cross = None -> raw u == raw r -> (r < u)%nat)).
Proof.
  intros Hcall raw. unfold rank_sections_refs in Hcall.
  set (h1 := score_all combined_score sections persona job
               (initial_heap sections)) in Hcall.
  set (ordered0 := sorted_desc (le_score h1) (seq 0 (length sections)))
    in Hcall.
  pose proof (rerank_spec ranks_cross persona job top_n h1 ordered0) as Hre.
  destruct (rerank _ _ _ _ _ _) as [h2 ordered].
  cbn [fst snd] in Hre. destruct Hre as (Hperm & Hsc & Hmm & Hnone).
  destruct (bool_decide (sections = [])) eqn:Hempty; [discriminate|].
  apply bool_decide_eq_false in Hempty.
  destruct (mmr_loop _ _ _ _ _ _ _) as [st|] eqn:Hloop; [|discriminate].
  injection Hcall as Hh Hranked.
  assert (Hseq : Permutation ordered (seq 0 (length sections))).
  { rewrite Hperm. apply sorted_desc_perm. }
  assert (Hlen : length ordered = length sections).
  { rewrite (Permutation_length Hseq). apply length_seq. }
  assert (Hin : forall r, r ∈ ordered <-> (r < length sections)%nat).
  { intros r. rewrite Hseq, list_elem_of_In, in_seq. lia. }
  assert (Hpos : (0 < top_n)%Z).
  { destruct ordered as [|c rest].
    - destruct sections; [congruence|discriminate].
    - eapply mmr_loop_positive, Hloop. }
  split.
  { rewrite <- Hranked, py_take_length by lia. lia. }
  intros Hdiv.
  assert (Hraw : forall r, (r < length sections)%nat -> score h2 r = raw r).
  { intros r Hr. unfold score. rewrite Hsc. unfold h1.
    rewrite score_all_score by assumption. reflexivity. }
  assert (Inv : mmr_inv top_n h2 st ([] ++ ordered)).
  { eapply (mmr_loop_inv cos_sim diversity top_n ordered h2 Hdiv);
      [| |exact Hloop].
    - cbn [app]. rewrite Hseq. apply NoDup_ListNoDup, seq_NoDup.
    - unfold mmr_inv. cbn [m_heap m_selected length].
      split; [reflexivity|]. split.
      { intros r m Hm. rewrite Hmm in Hm. unfold h1 in Hm.
        rewrite score_all_mmr in Hm. discriminate. }
      split; [constructor|]. split; [intros r Hr; inversion Hr|].
      split; [lia|]. intros u r _ _ Hr. inversion Hr. }
  cbn [app] in Inv. destruct Inv as (I1 & I2 & I3 & I4 & I5 & I6).
  assert (Hall : ranked = sorted_desc (le_retained (m_heap st)) (m_selected st)).
  { rewrite <- Hranked. apply py_take_all. rewrite sorted_desc_length. lia. }
  assert (Hrs : Permutation ranked (m_selected st)).
  { rewrite Hall. apply sorted_desc_perm. }
  split; [rewrite Hrs; exact I3|].
  split; [intros r Hr; apply Hin, I4; rewrite <- Hrs; exact Hr|].
  split; [rewrite (Permutation_length Hrs); lia|].
  intros r u Hr Hu Hnu. split.
  - rewrite <- (Hraw u Hu), <- (Hraw r).
    + apply I6; [apply Hin, Hu| |]; rewrite <- Hrs; assumption.
    + apply Hin, I4. rewrite <- Hrs. exact Hr.
  - intros Hrc Heq. specialize (Hnone Hrc). injection Hnone as -> ->.
    destruct (mmr_loop_sorted cos_sim diversity top_n ordered0 h1 Hdiv
                (fun r => score_all_mmr combined_score sections persona job r)
                ordered0 [] (mkMmr h1 [] []) st 0) as [_ Hsel];
      [| | |exact Hloop|].
    + apply sorted_desc_seq_sorted.
    + reflexivity.
    + rewrite firstn_nil. reflexivity.
    + cbn [app] in Hsel.
      assert (Hr' : r ∈ firstn (Z.to_nat top_n) ordered0)
        by (rewrite <- Hsel, <- Hrs; exact Hr).
      assert (Hu' : u ∈ skipn (Z.to_nat top_n) ordered0).
      { assert (Hu0 : u ∈ ordered0) by (apply Hin, Hu).
        rewrite <- (firstn_skipn (Z.to_nat top_n) ordered0) in Hu0.
        apply elem_of_app in Hu0 as [Hu0|Hu0]; [|exact Hu0].
        exfalso. apply Hnu. rewrite Hrs, Hsel. exact Hu0. }
      assert (Hs : StronglySorted (before (score h1))
                     (firstn (Z.to_nat top_n) ordered0
                      ++ skipn (Z.to_nat top_n) ordered0)).
      { rewrite firstn_skipn. apply sorted_desc_seq_sorted. }
      destruct (StronglySorted_cross _ _ _ Hs r u Hr' Hu') as [Hlt|[_ Hlt]];
        [|exact Hlt].
      exfalso. rewrite (Hraw u Hu), (Hraw r) in Hlt.
      * rewrite Heq in Hlt. exact (Qlt_irrefl _ Hlt).
      * apply Hin. rewrite <- (firstn_skipn (Z.to_nat top_n) ordered0).
        apply elem_of_app. left. exact Hr'.
Qed.

Lemma rank_sections_top_n_witness :
  exists h ranked,
    rank_sections_refs (U := ascii_db) tied_scores flat_similarity None 0
      three_sections (py "Travel Planner") (py "Plan a trip") 2
    = Some (h, ranked)
    /\ ranked = [2; 0]%nat
    /\ (Z.of_nat (length ranked) <= 2)%Z.
Proof.
  assert (E : option_map snd
                (rank_sections_refs (U := ascii_db) tied_scores
                   flat_similarity None 0 three_sections
                   (py "Travel Planner") (py "Plan a trip") 2)
              = Some [2; 0]%nat) by (vm_compute; reflexivity).
  destruct (rank_sections_refs (U := ascii_db) tied_scores flat_similarity
              None 0 three_sections (py "Travel Planner") (py "Plan a trip")
              2) as [[h ranked]|] eqn:Hcall; [|discriminate].
  exists h, ranked. split; [reflexivity|].
  split; [injection E as ->; reflexivity|].
  exact (proj1 (rank_sections_top_n (U := ascii_db) tied_scores
                  flat_similarity None 0 three_sections
                  (py "Travel Planner") (py "Plan a trip") 2 h ranked Hcall)).
Defined.

(** C9 fails on the code: [rank_sections] deletes [_mmr] from the sections it
    returns but never [_ce].  With a cross-encoder loaded, the section
    returned for a list of one section carries [score] and [snippet], no
    [_mmr], and still [_ce]. *)
Theorem returned_section_keeps_ce_key :
  option_map
    (map (fun d => (bool_decide (is_Some (d_score d)),
                    bool_decide (is_Some (d_snippet d)), d_mmr d, d_ce d)))
    (rank_sections (U := ascii_db) tied_scores flat_similarity
       (Some constant_encoder) 0.3 [europe_guide]
       (py "Travel Planner") (py "Plan a trip") 5)
  = Some [(true, true, None, Some 0.9)].
Proof. vm_compute. reflexivity. Qed.

(** * Further properties of the code *)

(** ** Deduplication on any list *)

Lemma Qdiv_unit_interval (x y : Z) :
  (0 <= x <= y)%Z -> (1 <= y)%Z ->
  0 <= inject_Z x / inject_Z y <= 1.
Proof.
  intros Hx Hy. destruct y as [|p|p]; try lia.
  unfold Qdiv, Qinv, Qle, Qmult, inject_Z. cbn [Qnum Qden].
  split; lia.
Qed.


Lemma find_all_false {A} (f : A -> bool) (l : list A) :
  (forall x, x ∈ l -> f x = false) -> find f l = None.
Proof.
  induction l as [|x l IH]; intros H; [reflexivity|].
  cbn [find]. rewrite (H x) by left. apply IH.
  intros y Hy. apply H. right. exact Hy.
Qed.

Lemma lookup_total_seq {A} `{Inhabited A} (l : list A) :
  map (fun i => l !!! i) (seq 0 (length l)) = l.
Proof.
  induction l as [|x l IH]; [reflexivity|].
  cbn [length seq map]. f_equal.
  rewrite <- fmap_S_seq.
  change (map ?f (S <$> ?k)) with (f <$> (S <$> k)).
  rewrite <- list_fmap_compose. exact IH.
Qed.

Section DedupFacts2.
Context {U : UnicodeDB}.

Lemma _jaccard_unit_interval (a b : gset str) : 0 <= _jaccard a b <= 1.
Proof.
  unfold _jaccard.
  destruct (bool_decide (a = ∅) && bool_decide (b = ∅));
    [split; discriminate|].
  destruct (bool_decide (a = ∅) || bool_decide (b = ∅));
    [split; discriminate|].
  apply Qdiv_unit_interval; [|lia].
  assert (Hsub : a ∩ b ⊆ a ∪ b).
  { transitivity a; [apply intersection_subseteq_l|apply union_subseteq_l]. }
  apply subseteq_size in Hsub. lia.
Qed.

(** X1: the similarity of two token sets lies between 0 and 1 and does not
    depend on their order. *)
Theorem _jaccard_bounds (a b : gset str) :
  0 <= _jaccard a b <= 1 /\ _jaccard a b = _jaccard b a.
Proof. split; [apply _jaccard_unit_interval|apply _jaccard_sym]. Qed.

Section Steps.
Variable sections : list Sec.
Variable thr : Q.
Let sets := map token_set sections.
Let step := dedup_step sections sets thr.


End Steps.


(** X3: with a threshold above 1 no two sections are similar enough, and
    [deduplicate_sections] returns its input unchanged. *)
Theorem dedup_threshold_above_one (sections : list Sec) (thr : Q) :
  1 < thr -> deduplicate_sections sections thr = sections.
Proof.
  intros Hthr. unfold deduplicate_sections.
  assert (Hfold : forall n m kept,
            fold_left (dedup_step sections (map token_set sections) thr)
                      (seq m n) kept = kept ++ seq m n).
  { induction n as [|n IH]; intros m kept; [cbn; rewrite app_nil_r; reflexivity|].
    cbn [seq fold_left]. rewrite IH.
    unfold dedup_step, first_dup. rewrite find_all_false.
    - rewrite <- app_assoc. reflexivity.
    - intros k _. apply Qleb_false.
      apply Qle_lt_trans with 1; [apply _jaccard_unit_interval|exact Hthr]. }
  rewrite Hfold. cbn [app]. apply lookup_total_seq.
Qed.
End DedupFacts2.

(** *** Sections without tokens, in any list *)


Lemma filter_none {A} (P : A -> Prop) `{forall x, Decision (P x)}
    (l : list A) :
  (forall x, x ∈ l -> ~ P x) -> filter P l = [].
Proof.
  induction l as [|x l IH]; intros Hl; [reflexivity|].
  rewrite filter_cons_False by (apply Hl; left).
  apply IH. intros y Hy. apply Hl. right. exact Hy.
Qed.


Section EmptyTokens.
Context {U : UnicodeDB}.
Variable sections : list Sec.
Variable thr : Q.
Hypothesis Hpos : 0 < thr.
Hypothesis Hle : thr <= 1.
Let sets := map token_set sections.
Let step := dedup_step sections sets thr.



End EmptyTokens.



Lemma dedup_threshold_above_one_witness :
  deduplicate_sections (U := ascii_db) [blank_a; blank_b; blank_a] 1.5
  = [blank_a; blank_b; blank_a].
Proof.
  apply (dedup_threshold_above_one (U := ascii_db)). reflexivity.
Defined.

(** ** Tokens *)

Lemma runs_Forall (cls : char -> bool) (P : char -> Prop) (s : str) :
  Forall P s -> Forall (Forall P) (runs cls s).
Proof.
  induction s as [|c s IH]; intros Hs; [constructor|].
  apply Forall_cons in Hs as [Hc Hs]. specialize (IH Hs).
  destruct (cls c) eqn:H; [|rewrite runs_skip by assumption; exact IH].
  destruct s as [|c' s]; [rewrite runs_last by assumption; auto|].
  destruct (cls c') eqn:H'.
  - destruct (runs_in_run cls c c' s H H') as (w & ws & E & E').
    rewrite E'. rewrite E in IH. apply Forall_cons in IH as [Hw Hws].
    constructor; [constructor; assumption|assumption].
  - rewrite runs_end_of_run by assumption.
    rewrite (runs_skip cls c' s H') in IH. auto.
Qed.

(** X5: every token of [_normalize_text_for_hash] has at least three
    characters, all of them lowercase ASCII letters or digits, whatever the
    text. *)
Theorem hash_tokens_are_alphanumeric `{U : UnicodeDB} (text : str) :
  Forall (fun t => (3 <= length t)%nat /\ Forall (fun c => az09 c = true) t)
         (_normalize_text_for_hash text).
Proof.
  unfold _normalize_text_for_hash.
  set (mapped := map _ (str_lower text)).
  assert (Hm : Forall (fun c => nonspace c = true -> az09 c = true) mapped).
  { subst mapped. apply Forall_forall. intros c Hc.
    apply list_elem_of_fmap in Hc as (c0 & -> & _).
    unfold az09, nonspace.
    destruct (is_az c0 || is_09 c0) eqn:E; cbn [orb]; [intros _; exact E|].
    destruct (isspace c0) eqn:Es; [rewrite Es; discriminate|].
    discriminate. }
  pose proof (runs_Forall nonspace _ mapped Hm) as Hr.
  pose proof (runs_words nonspace mapped) as Hw.
  fold (split mapped) in Hr, Hw.
  apply Forall_forall. intros t Ht.
  apply list_elem_of_filter in Ht as [Hlen Ht].
  rewrite Forall_forall in Hr, Hw.
  specialize (Hr t Ht). destruct (Hw t Ht) as [_ Hns].
  split; [apply Nat.leb_le, Hlen|].
  apply Forall_forall. intros c Hc.
  rewrite Forall_forall in Hr, Hns. auto.
Qed.

(** X6: every token of [tokenize_words] has at least two characters, all of
    them lowercase ASCII letters or digits. *)
Theorem word_tokens_are_alphanumeric `{U : UnicodeDB} (text : str) :
  Forall (fun w => (2 <= length w)%nat /\ Forall (fun c => az09 c = true) w)
         (tokenize_words text).
Proof.
  unfold tokenize_words. destruct text as [|c text]; [constructor|].
  apply Forall_forall. intros w Hw.
  apply list_elem_of_filter in Hw as [Hlen Hw].
  split; [apply Nat.leb_le, Hlen|].
  pose proof (runs_words (fun c => is_az c || is_09 c)
                (str_lower (c :: text))) as Hr.
  rewrite Forall_forall in Hr. destruct (Hr w Hw) as [_ H]. exact H.
Qed.

(** ** Snippets are normalized *)

(** X7: when a sentence parses, the snippet is its own tokens joined by
    single spaces: it has no leading, trailing or repeated whitespace. *)
Theorem snippet_is_space_separated `{U : UnicodeDB}
    (text : str) (q : list str) (n : nat) :
  sentence_split (normalize_text text) <> [] ->
  join [SP] (split (select_snippet text q n)) = select_snippet text q n.
Proof.
  intros H.
  destruct (select_snippet_tokens text q n H) as (tokens & Hw & _ & E).
  rewrite E, split_join by assumption. reflexivity.
Qed.

Lemma snippet_is_space_separated_witness :
  join [SP] (split (select_snippet (U := ascii_db) paris_text [py "food"] 4))
  = select_snippet (U := ascii_db) paris_text [py "food"] 4.
Proof.
  apply (snippet_is_space_separated (U := ascii_db)).
  vm_compute. discriminate.
Defined.

(** ** Summary sentences without overlap *)

Lemma ForallOrdPairs_snoc {A} (R : A -> A -> Prop) (l : list A) (x : A) :
  ForallOrdPairs R l -> Forall (fun t => R t x) l ->
  ForallOrdPairs R (l ++ [x]).
Proof.
  induction 1 as [|t l Ht Hl IH]; intros Hx.
  - repeat constructor.
  - apply Forall_cons in Hx as [Htx Hx]. cbn [app]. constructor.
    + apply List.Forall_app. split; [exact Ht|]. repeat constructor. exact Htx.
    + apply IH, Hx.
Qed.

Section SelectFacts.
Context {U : UnicodeDB}.
Variable top_k : Z.

(** The sentence [s] was accepted after the sentence [t]. *)
Let accepted (t s : str) : Prop :=
  too_similar_to (sentence_tokens s) (selected_tokens t) = false.

Lemma select_loop_spec (sentences : list str) :
  forall selected,
    exists added,
      select_loop top_k sentences selected = selected ++ added
      /\ added `sublist_of` sentences
      /\ (ForallOrdPairs accepted selected ->
          ForallOrdPairs accepted (selected ++ added))
      /\ (Z.of_nat (length (selected ++ added))
          <= Z.max top_k (Z.of_nat (length selected) + 1))%Z.
Proof.
  induction sentences as [|s rest IH]; intros selected.
  - exists []. rewrite app_nil_r. cbn [select_loop].
    split; [reflexivity|]. split; [constructor|]. split; [auto|lia].
  - cbn [select_loop].
    destruct (existsb _ selected) eqn:Ex.
    + destruct (IH selected) as (added & E & Hs & Hp & Hl).
      exists added. split; [exact E|]. split; [apply sublist_cons, Hs|]. auto.
    + assert (Hacc : Forall (fun t => accepted t s) selected).
      { apply Forall_forall. intros t Ht. unfold accepted.
        destruct (too_similar_to _ _) eqn:Et; [|reflexivity].
        assert (existsb (fun t => too_similar_to (sentence_tokens s)
                                    (selected_tokens t)) selected = true).
        { apply existsb_exists. exists t. split; [|exact Et].
          apply list_elem_of_In, Ht. }
        congruence. }
      destruct (Z.leb_spec top_k (Z.of_nat (length (selected ++ [s]))))
        as [Hk|Hk].
      * exists [s]. split; [reflexivity|].
        split; [apply sublist_skip, sublist_nil_l|].
        split; [intros Hp; apply ForallOrdPairs_snoc; assumption|].
        rewrite length_app. cbn [length]. lia.
      * destruct (IH (selected ++ [s])) as (added & E & Hs & Hp & Hl).
        exists (s :: added). rewrite E, <- app_assoc. cbn [app].
        split; [reflexivity|]. split; [apply sublist_skip, Hs|].
        split.
        -- intros Hsel.
           replace (selected ++ s :: added) with ((selected ++ [s]) ++ added)
             by (rewrite <- app_assoc; reflexivity).
           apply Hp, ForallOrdPairs_snoc; assumption.
        -- replace (selected ++ s :: added) with ((selected ++ [s]) ++ added)
             by (rewrite <- app_assoc; reflexivity).
           rewrite length_app in Hk, Hl. cbn [length] in Hk, Hl.
           rewrite !length_app in *. cbn [length] in *. lia.
Qed.

(** X8: [_select_non_overlapping] returns sentences of its input in their
    order, the first sentence always among them even when [top_k] is 0 or
    negative, at most [max(1, top_k)] of them, and every returned sentence
    passed the overlap test against each sentence returned before it. *)
Theorem select_non_overlapping_spec (sentences : list str) :
  let selected := _select_non_overlapping sentences top_k in
  selected `sublist_of` sentences
  /\ head selected = head sentences
  /\ (Z.of_nat (length selected) <= Z.max 1 top_k)%Z
  /\ ForallOrdPairs
       (fun t s =>
          too_similar_to (sentence_tokens s) (selected_tokens t) = false)
       selected.
Proof.
  unfold _select_non_overlapping.
  destruct (select_loop_spec sentences []) as (added & E & Hs & Hp & Hl).
  cbn [app length] in *. cbn zeta. rewrite E.
  split; [exact Hs|]. split; [|split; [lia|apply Hp; constructor]].
  destruct sentences as [|s rest]; [apply sublist_nil_r in Hs as ->; reflexivity|].
  cbn [select_loop existsb app length] in E.
  destruct (top_k <=? Z.of_nat 1)%Z; [rewrite <- E; reflexivity|].
  destruct (select_loop_spec rest [s]) as (added' & E' & _).
  rewrite E' in E. rewrite <- E. reflexivity.
Qed.
End SelectFacts.

(** ** The ranker for every diversity *)

Section MmrShape.
Variable cos_sim : Sec -> Sec -> Q.
Variable diversity : Q.
Variable top_n : Z.
Variable ordered : list nat.
Variable h0 : Heap.
Hypothesis Hpos : (0 < top_n)%Z.

Lemma mmr_step_shape (st : mmr_state) (done : list nat) (i c : nat) :
  mmr_shape top_n h0 st done -> c ∉ done ->
  exists st',
    mmr_step cos_sim diversity top_n ordered st i c = Some st'
    /\ mmr_shape top_n h0 st' (done ++ [c]).
Proof.
  intros (S1 & S2 & S3 & S4) Hc. unfold mmr_step.
  assert (Hcsel : c ∉ m_selected st) by (intros H; apply Hc, S3, H).
  destruct (Z.ltb_spec (Z.of_nat (length (m_selected st))) top_n) as [Hlt|Hge].
  - eexists. split; [reflexivity|]. unfold mmr_shape. cbn [m_heap m_selected].
    split; [exact S1|]. split.
    { apply NoDup_app. split; [exact S2|]. split; [|apply NoDup_singleton].
      intros x Hx Hx'. apply list_elem_of_singleton in Hx' as ->. auto. }
    split.
    { intros r Hr. apply elem_of_app in Hr as [Hr|Hr];
        apply elem_of_app; [left; apply S3, Hr|right; exact Hr]. }
    rewrite !length_app. cbn [length]. lia.
  - destruct (index_of_min _) as [w|] eqn:Ew.
    2:{ apply index_of_min_None, fmap_nil_inv in Ew.
        rewrite Ew in Hge. cbn [length] in Hge. lia. }
    apply index_of_min_spec in Ew as (k & Hk & _).
    rewrite list_lookup_fmap in Hk.
    destruct (m_selected st !! w) as [e|] eqn:Ee; [|discriminate].
    destruct (Qltb _ _); eexists; (split; [reflexivity|]).
    + destruct (insert_split (m_selected st) w e c Ee) as [Esel Eins].
      unfold mmr_shape. cbn [m_heap m_selected].
      split.
      { intros r. destruct (S1 r) as (A1 & A2 & A3 & A4).
        rewrite <- A1, <- A2, <- A3, <- A4.
        repeat split; apply upd_preserves; reflexivity. }
      rewrite Esel in S2, Hcsel.
      apply NoDup_app in S2 as (N1 & N2 & N3).
      apply NoDup_cons in N3 as (N3 & N4).
      split.
      { rewrite Eins. apply NoDup_app. split; [exact N1|]. split.
        - intros x Hx Hx'. apply elem_of_cons in Hx' as [->|Hx'].
          + apply Hcsel, elem_of_app. left. exact Hx.
          + apply (N2 x Hx). right. exact Hx'.
        - apply NoDup_cons. split; [|exact N4].
          intros H. apply Hcsel, elem_of_app. right. right. exact H. }
      split.
      { intros r Hr. rewrite Eins in Hr. apply elem_of_app.
        apply elem_of_app in Hr as [Hr|Hr].
        - left. apply S3. rewrite Esel. apply elem_of_app. left. exact Hr.
        - apply elem_of_cons in Hr as [->|Hr]; [right; left|left].
          apply S3. rewrite Esel. apply elem_of_app. right. right. exact Hr. }
      rewrite length_insert, length_app. cbn [length]. lia.
    + unfold mmr_shape. split; [exact S1|]. split; [exact S2|].
      split; [intros r Hr; apply elem_of_app; left; apply S3, Hr|].
      rewrite length_app. cbn [length]. lia.
Qed.

Lemma mmr_loop_shape (rest : list nat) :
  forall (st : mmr_state) (done : list nat) (i : nat),
    NoDup (done ++ rest) ->
    mmr_shape top_n h0 st done ->
    exists st',
      mmr_loop cos_sim diversity top_n ordered st i rest = Some st'
      /\ mmr_shape top_n h0 st' (done ++ rest).
Proof.
  induction rest as [|c rest IH]; intros st done i Hnd Hs.
  - exists st. rewrite app_nil_r. auto.
  - cbn [mmr_loop].
    assert (Hc : c ∉ done).
    { apply NoDup_app in Hnd as (_ & Hnd & _).
      intros H. apply (Hnd c H). left. }
    destruct (mmr_step_shape st done i c Hs Hc) as (st1 & E & Hs1).
    rewrite E.
    replace (done ++ c :: rest) with ((done ++ [c]) ++ rest) in *
      by (rewrite <- app_assoc; reflexivity).
    apply IH; assumption.
Qed.
End MmrShape.

Lemma fold_upd_establishes (Q : Dict -> Prop) (F : Heap -> nat -> Dict -> Dict) :
  (forall h r, Q (F h r (h r))) ->
  forall (l : list nat) (h : Heap) (r : nat),
    r ∈ l \/ Q (h r) ->
    Q (fold_left (fun h r => upd h r (F h r)) l h r).
Proof.
  intros HF. induction l as [|x l IH]; intros h r [Hin|Hq].
  - inversion Hin.
  - exact Hq.
  - cbn [fold_left]. apply IH.
    apply elem_of_cons in Hin as [->|Hin]; [right|left; exact Hin].
    rewrite upd_same. apply HF.
  - cbn [fold_left]. apply IH. right.
    destruct (Nat.eq_dec r x) as [->|Hne].
    + rewrite upd_same. apply HF.
    + rewrite upd_other by assumption. exact Hq.
Qed.

Lemma py_take_subseteq {A} (k : Z) (l : list A) (x : A) :
  x ∈ py_take k l -> x ∈ l.
Proof.
  unfold py_take. destruct (0 <=? k)%Z; intros H;
    eapply sublist_subseteq; try exact H; apply sublist_take.
Qed.

Section RankerShape.
Context {U : UnicodeDB}.
Variable combined_score : list Sec -> str -> str -> nat -> Q.
Variable cos_sim : Sec -> Sec -> Q.
Variable ranks_cross : option (str -> list Sec -> option (list Q)).
Variable diversity : Q.
Variable sections : list Sec.
Variable persona job : str.
Variable top_n : Z.

Lemma rerank_frame (h : Heap) (ordered : list nat) (r : nat) :
  let res := rerank ranks_cross persona job top_n h ordered in
  d_sec (res.1 r) = d_sec (h r) /\ d_snippet (res.1 r) = d_snippet (h r).
Proof.
  unfold rerank.
  destruct ranks_cross as [predict|]; [|cbn; auto].
  destruct ordered as [|r0 ordered']; [cbn; auto|].
  destruct (predict _ _) as [ce_scores|]; [|cbn; auto].
  cbn [fst]. split.
  - apply (fold_preserves d_sec). intros h' x r'.
    apply upd_preserves. reflexivity.
  - apply (fold_preserves d_snippet). intros h' x r'.
    apply upd_preserves. reflexivity.
Qed.

(** The call unfolded: what every returning call went through. *)
Lemma rank_sections_refs_inv (h : Heap) (ranked : list nat) :
  rank_sections_refs combined_score cos_sim ranks_cross diversity
    sections persona job top_n = Some (h, ranked) ->
  sections <> [] /\ (0 < top_n)%Z
  /\ NoDup ranked
  /\ Z.of_nat (length ranked) = Z.min top_n (Z.of_nat (length sections))
  /\ forall r, r ∈ ranked ->
       (r < length sections)%nat
       /\ d_sec (h r) = sections !!! r
       /\ d_score (h r) = Some (combined_score sections persona job r)
       /\ d_snippet (h r)
          = Some (select_snippet (sec_text (sections !!! r))
                    (tokenize_words (persona ++ [SP] ++ job)) MAX_TOKENS)
       /\ d_mmr (h r) = None
       /\ (ranks_cross = None -> d_ce (h r) = None).
Proof.
  intros Hcall. unfold rank_sections_refs in Hcall.
  set (h1 := score_all combined_score sections persona job
               (initial_heap sections)) in Hcall.
  set (ordered0 := sorted_desc (le_score h1) (seq 0 (length sections)))
    in Hcall.
  pose proof (rerank_spec ranks_cross persona job top_n h1 ordered0) as Hre.
  pose proof (fun r => rerank_frame h1 ordered0 r) as Hfr.
  destruct (rerank _ _ _ _ _ _) as [h2 ordered].
  cbn [fst snd] in Hre, Hfr. destruct Hre as (Hperm & Hsc & Hmm & Hnone).
  destruct (bool_decide (sections = [])) eqn:Hempty; [discriminate|].
  apply bool_decide_eq_false in Hempty.
  destruct (mmr_loop _ _ _ _ _ _ _) as [st|] eqn:Hloop; [|discriminate].
  injection Hcall as Hh Hranked.
  assert (Hseq : Permutation ordered (seq 0 (length sections))).
  { rewrite Hperm. apply sorted_desc_perm. }
  assert (Hin : forall r, r ∈ ordered <-> (r < length sections)%nat).
  { intros r. rewrite Hseq, list_elem_of_In, in_seq. lia. }
  assert (Hpos : (0 < top_n)%Z).
  { destruct ordered as [|c rest].
    - apply Permutation_length in Hseq. rewrite length_seq in Hseq.
      destruct sections; [congruence|discriminate].
    - eapply mmr_loop_positive, Hloop. }
  split; [exact Hempty|]. split; [exact Hpos|].
  destruct (mmr_loop_shape cos_sim diversity top_n ordered h2 Hpos ordered
              (mkMmr h2 [] []) [] 0) as (st' & E & S1 & S2 & S3 & S4).
  { cbn [app]. rewrite Hseq. apply NoDup_ListNoDup, seq_NoDup. }
  { unfold mmr_shape. cbn [m_heap m_selected length].
    split; [auto|]. split; [constructor|].
    split; [intros r Hr; inversion Hr|lia]. }
  rewrite Hloop in E. injection E as <-. cbn [app] in S3, S4.
  assert (Hlen : length ordered = length sections).
  { rewrite (Permutation_length Hseq). apply length_seq. }
  assert (Hall : ranked = sorted_desc (le_retained (m_heap st)) (m_selected st)).
  { rewrite <- Hranked. apply py_take_all. rewrite sorted_desc_length. lia. }
  assert (Hrs : Permutation ranked (m_selected st)).
  { rewrite Hall. apply sorted_desc_perm. }
  split; [rewrite Hrs; exact S2|].
  split; [rewrite (Permutation_length Hrs); lia|].
  intros r Hr.
  assert (Hlt : (r < length sections)%nat).
  { apply Hin, S3. rewrite <- Hrs. exact Hr. }
  split; [exact Hlt|].
  destruct (S1 r) as (A1 & A2 & A3 & A4). destruct (Hfr r) as [B1 B4].
  rewrite Hranked in Hh. rewrite <- Hh.
  set (snip := fun (h : Heap) (r : nat) =>
                 set_snippet
                   (select_snippet (sec_text (d_sec (h r)))
                      (tokenize_words (persona ++ [SP] ++ job)) MAX_TOKENS)).
  set (hs := fold_left (fun h r => upd h r (snip h r)) ranked (m_heap st)).
  assert (Hsec : d_sec (hs r) = sections !!! r).
  { unfold hs. rewrite (fold_preserves d_sec)
      by (intros; apply upd_preserves; reflexivity).
    rewrite A1, B1. unfold h1, score_all.
    rewrite (fold_preserves d_sec)
      by (intros; apply upd_preserves; reflexivity).
    reflexivity. }
  split.
  { rewrite (fold_preserves d_sec)
      by (intros; apply upd_preserves; reflexivity).
    exact Hsec. }
  split.
  { rewrite (fold_preserves d_score)
      by (intros; apply upd_preserves; reflexivity).
    unfold hs. rewrite (fold_preserves d_score)
      by (intros; apply upd_preserves; reflexivity).
    rewrite A2, Hsc. apply score_all_score, Hlt. }
  split.
  { rewrite (fold_preserves d_snippet)
      by (intros; apply upd_preserves; reflexivity).
    rewrite <- Hsec.
    apply (fold_upd_establishes
             (fun d => d_snippet d
                       = Some (select_snippet (sec_text (d_sec d))
                                 (tokenize_words (persona ++ [SP] ++ job))
                                 MAX_TOKENS)) snip);
      [reflexivity|left; exact Hr]. }
  split.
  { apply (fold_upd_establishes (fun d => d_mmr d = None)
             (fun _ _ => del_mmr)); [reflexivity|left; exact Hr]. }
  intros Hrc.
  rewrite (fold_preserves d_ce) by (intros; apply upd_preserves; reflexivity).
  unfold hs. rewrite (fold_preserves d_ce)
    by (intros; apply upd_preserves; reflexivity).
  rewrite A3. specialize (Hnone Hrc). injection Hnone as -> _.
  apply score_all_ce.
Qed.

(** Given the scores, the stages after the scoring return. *)
Lemma rank_sections_refs_returns :
  sections <> [] -> (0 < top_n)%Z ->
  exists h ranked,
    rank_sections_refs combined_score cos_sim ranks_cross diversity
      sections persona job top_n = Some (h, ranked).
Proof.
  intros Hne Hpos. unfold rank_sections_refs.
  set (h1 := score_all combined_score sections persona job
               (initial_heap sections)).
  set (ordered0 := sorted_desc (le_score h1) (seq 0 (length sections))).
  pose proof (rerank_spec ranks_cross persona job top_n h1 ordered0) as Hre.
  destruct (rerank _ _ _ _ _ _) as [h2 ordered].
  cbn [fst snd] in Hre. destruct Hre as (Hperm & _).
  rewrite bool_decide_eq_false_2 by exact Hne.
  destruct (mmr_loop_shape cos_sim diversity top_n ordered h2 Hpos ordered
              (mkMmr h2 [] []) [] 0) as (st' & E & _).
  { cbn [app]. rewrite Hperm. unfold ordered0. rewrite sorted_desc_perm.
    apply NoDup_ListNoDup, seq_NoDup. }
  { unfold mmr_shape. cbn [m_heap m_selected length].
    split; [auto|]. split; [constructor|].
    split; [intros r Hr; inversion Hr|lia]. }
  rewrite E. eexists _, _. reflexivity.
Qed.
End RankerShape.

(** X9: with [top_n <= 0] [rank_sections] raises on a non-empty list (the
    minimum over the empty selection).  Whenever it returns, for every
    diversity and with or without the cross-encoder, it returns
    [min(top_n, len(sections))] distinct sections of its input. *)
Theorem rank_sections_returns_min_top_n `{U : UnicodeDB}
    (combined_score : list Sec -> str -> str -> nat -> Q)
    (cos_sim : Sec -> Sec -> Q)
    (ranks_cross : option (str -> list Sec -> option (list Q)))
    (diversity : Q)
    (sections : list Sec) (persona job : str) (top_n : Z) :
  sections <> [] ->
  let call := rank_sections_refs combined_score cos_sim ranks_cross diversity
                sections persona job top_n in
  ((top_n <= 0)%Z -> call = None)
  /\ (forall h ranked,
        call = Some (h, ranked) ->
        NoDup ranked
        /\ (forall r, r ∈ ranked -> (r < length sections)%nat)
        /\ Z.of_nat (length ranked)
           = Z.min top_n (Z.of_nat (length sections))).
Proof.
  intros Hne call. split.
  - intros Hle. destruct call as [[h ranked]|] eqn:E; [|reflexivity].
    apply rank_sections_refs_inv in E as (_ & Hpos & _). lia.
  - intros h ranked E.
    apply rank_sections_refs_inv in E as (_ & _ & Hnd & Hlen & Hr).
    split; [exact Hnd|]. split; [|exact Hlen].
    intros r Hin. apply Hr, Hin.
Qed.

Lemma rank_sections_returns_min_top_n_witness :
  rank_sections_refs (U := ascii_db) tied_scores flat_similarity
    (Some list_order_encoder) 0.3 three_sections
    (py "Travel Planner") (py "Plan a trip") 0 = None
  /\ exists ranked,
       option_map snd
         (rank_sections_refs (U := ascii_db) tied_scores flat_similarity
            (Some list_order_encoder) 0.3 three_sections
            (py "Travel Planner") (py "Plan a trip") 2) = Some ranked
       /\ length ranked = 2%nat.
Proof.
  split.
  - apply (rank_sections_returns_min_top_n (U := ascii_db) tied_scores
             flat_similarity (Some list_order_encoder) 0.3 three_sections
             (py "Travel Planner") (py "Plan a trip") 0).
    + discriminate.
    + reflexivity.
  - destruct (rank_sections_refs (U := ascii_db) tied_scores flat_similarity
                (Some list_order_encoder) 0.3 three_sections
                (py "Travel Planner") (py "Plan a trip") 2)
      as [[h ranked]|] eqn:E.
    + exists ranked. split; [reflexivity|].
      destruct (rank_sections_returns_min_top_n (U := ascii_db) tied_scores
                  flat_similarity (Some list_order_encoder) 0.3
                  three_sections (py "Travel Planner") (py "Plan a trip") 2)
        as [_ H]; [discriminate|].
      destruct (H h ranked E) as (_ & _ & Hlen).
      cbn in Hlen. lia.
    + exfalso.
      assert (H : is_Some (option_map snd
                    (rank_sections_refs (U := ascii_db) tied_scores
                       flat_similarity (Some list_order_encoder) 0.3
                       three_sections (py "Travel Planner")
                       (py "Plan a trip") 2)))
        by (vm_compute; eauto).
      rewrite E in H. destruct H as [x H]. discriminate.
Defined.

(** X10: every section [rank_sections] returns is a section of the input
    with its [score], the snippet of its text for the terms of persona and
    job, and no [_mmr]; without a cross-encoder it has no [_ce] either. *)
Theorem returned_sections_are_annotated `{U : UnicodeDB}
    (combined_score : list Sec -> str -> str -> nat -> Q)
    (cos_sim : Sec -> Sec -> Q)
    (ranks_cross : option (str -> list Sec -> option (list Q)))
    (diversity : Q)
    (sections : list Sec) (persona job : str) (top_n : Z)
    (returned : list Dict) :
  rank_sections combined_score cos_sim ranks_cross diversity
    sections persona job top_n = Some returned ->
  Forall
    (fun d =>
       d_sec d ∈ sections
       /\ is_Some (d_score d)
       /\ d_snippet d
          = Some (select_snippet (sec_text (d_sec d))
                    (tokenize_words (persona ++ [SP] ++ job)) MAX_TOKENS)
       /\ d_mmr d = None
       /\ (ranks_cross = None -> d_ce d = None))
    returned.
Proof.
  unfold rank_sections. intros Hcall.
  destruct (rank_sections_refs _ _ _ _ _ _ _ _) as [[h ranked]|] eqn:E;
    [|discriminate].
  injection Hcall as <-.
  apply rank_sections_refs_inv in E as (_ & _ & _ & _ & Hr).
  apply Forall_forall. intros d Hd.
  apply list_elem_of_fmap in Hd as (r & -> & Hin).
  destruct (Hr r Hin) as (Hlt & Hsec & Hscore & Hsnip & Hmmr & Hce).
  split; [rewrite Hsec; apply list_elem_of_lookup_total_2, Hlt|].
  split; [rewrite Hscore; eauto|].
  split; [rewrite Hsnip, Hsec; reflexivity|]. auto.
Qed.

Lemma returned_sections_are_annotated_witness :
  exists returned,
    rank_sections (U := ascii_db) tied_scores flat_similarity None 0.3
      three_sections (py "Travel Planner") (py "Plan a trip") 2
    = Some returned
    /\ Forall (fun d => d_mmr d = None /\ d_ce d = None) returned.
Proof.
  destruct (rank_sections (U := ascii_db) tied_scores flat_similarity None
              0.3 three_sections (py "Travel Planner") (py "Plan a trip") 2)
    as [returned|] eqn:E.
  - exists returned. split; [reflexivity|].
    pose proof (returned_sections_are_annotated (U := ascii_db) tied_scores
                  flat_similarity None 0.3 three_sections
                  (py "Travel Planner") (py "Plan a trip") 2 returned E) as H.
    eapply Forall_impl; [exact H|].
    intros d (_ & _ & _ & Hm & Hc). split; [exact Hm|apply Hc; reflexivity].
  - exfalso.
    assert (H : is_Some (rank_sections (U := ascii_db) tied_scores
                  flat_similarity None 0.3 three_sections
                  (py "Travel Planner") (py "Plan a trip") 2))
      by (vm_compute; eauto).
    rewrite E in H. destruct H as [x H]. discriminate.
Defined.

(** ** The diversity stage on candidates in score order *)

Lemma Qmax_list_nonneg (l : list Q) :
  Forall (fun x => 0 <= x) l -> 0 <= Qmax_list l.
Proof.
  destruct l as [|x l]; intros H; [apply Qle_refl|].
  apply Forall_cons in H as [Hx Hl]. cbn [Qmax_list].
  revert x Hx. induction l as [|y l IH]; intros x Hx; [exact Hx|].
  apply Forall_cons in Hl as [Hy Hl]. cbn [fold_left].
  apply (IH Hl). destruct (Qltb x y); assumption.
Qed.

Lemma insert_desc_ext {A} (le1 le2 : A -> A -> bool) (x : A) (l : list A) :
  (forall y, y ∈ l -> le1 y x = le2 y x) ->
  insert_desc le1 x l = insert_desc le2 x l.
Proof.
  induction l as [|y l IH]; intros H; [reflexivity|].
  cbn [insert_desc]. rewrite (H y) by left.
  destruct (le2 y x); [reflexivity|]. f_equal. apply IH.
  intros z Hz. apply H. right. exact Hz.
Qed.

Lemma sorted_desc_ext {A} (le1 le2 : A -> A -> bool) (l : list A) :
  (forall x y, x ∈ l -> y ∈ l -> le1 y x = le2 y x) ->
  sorted_desc le1 l = sorted_desc le2 l.
Proof.
  induction l as [|x l IH]; intros H; [reflexivity|].
  cbn [sorted_desc fold_right].
  fold (sorted_desc le1 l). fold (sorted_desc le2 l).
  rewrite IH by (intros; apply H; right; assumption).
  apply insert_desc_ext. intros y Hy.
  rewrite sorted_desc_perm in Hy. apply H; [left|right; exact Hy].
Qed.

Lemma sorted_desc_of_sorted (h : Heap) (l : list nat) :
  (forall r, d_mmr (h r) = None) ->
  StronglySorted (before (score h)) l ->
  sorted_desc (le_retained h) l = l.
Proof.
  intros Hfresh. induction 1 as [|x l Hs IH Hx]; [reflexivity|].
  cbn [sorted_desc fold_right]. fold (sorted_desc (le_retained h) l).
  rewrite IH. destruct l as [|y l]; [reflexivity|].
  cbn [insert_desc]. unfold le_retained, retained.
  rewrite !Hfresh. cbn [default].
  apply Forall_cons in Hx as [Hy _].
  assert (Hle : score h y <= score h x).
  { destruct Hy as [H|[H _]];
      [apply Qlt_le_weak, H|rewrite H; apply Qle_refl]. }
  apply Qleb_le in Hle. rewrite Hle. reflexivity.
Qed.

Lemma StronglySorted_prefix {A} (R : A -> A -> Prop) (l1 l2 : list A) :
  StronglySorted R (l1 ++ l2) -> StronglySorted R l1.
Proof.
  induction l1 as [|x l1 IH]; intros H; [constructor|].
  cbn [app] in H. apply StronglySorted_inv in H as [Hs Hx].
  constructor; [apply IH, Hs|].
  apply List.Forall_app in Hx. apply Hx.
Qed.

Section QuietMmr.
Variable cos_sim : Sec -> Sec -> Q.
Variable diversity : Q.
Variable top_n : Z.
Variable ordered : list nat.
Variable h0 : Heap.
Hypothesis Hdiv : 0 <= diversity.
Hypothesis Hsim : forall a b, 0 <= cos_sim a b.
Hypothesis Hfresh : forall r, d_mmr (h0 r) = None.

Lemma mmr_step_quiet (done rest : list nat) (st st' : mmr_state)
    (i c : nat) :
  StronglySorted (before (score h0)) (done ++ c :: rest) ->
  m_heap st = h0 ->
  m_selected st = firstn (Z.to_nat top_n) done ->
  mmr_step cos_sim diversity top_n ordered st i c = Some st' ->
  m_heap st' = h0
  /\ m_selected st' = firstn (Z.to_nat top_n) (done ++ [c]).
Proof.
  intros Hs Hh Hsel. unfold mmr_step. rewrite Hh, Hsel.
  rewrite length_firstn.
  destruct (Z.ltb_spec (Z.of_nat (Nat.min (Z.to_nat top_n) (length done)))
              top_n) as [Hlt|Hge].
  - intros H. injection H as <-. cbn [m_heap m_selected].
    split; [reflexivity|].
    rewrite !firstn_all2 by (rewrite ?length_app; simpl; lia). reflexivity.
  - destruct (index_of_min _) as [w|] eqn:Ew; [|discriminate].
    apply index_of_min_spec in Ew as (k & Hk & _).
    rewrite list_lookup_fmap in Hk.
    destruct (firstn (Z.to_nat top_n) done !! w) as [e|] eqn:Ee;
      [|discriminate].
    rewrite (list_lookup_total_correct _ _ _ Ee).
    assert (He : e ∈ done).
    { apply list_elem_of_lookup_2 in Ee.
      rewrite <- (firstn_skipn (Z.to_nat top_n) done).
      apply elem_of_app. left. exact Ee. }
    assert (Hle : score h0 c <= score h0 e).
    { destruct (StronglySorted_cross _ _ _ Hs e c He) as [H|[H _]];
        [left| apply Qlt_le_weak, H | rewrite H; apply Qle_refl]. }
    assert (Hlen : (Z.to_nat top_n <= length done)%nat).
    { apply lookup_lt_Some in Ee. rewrite length_firstn in Ee. lia. }
    match goal with
    | |- context [Qltb ?a ?b] => assert (Hcmp : Qltb a b = false)
    end.
    { apply Qltb_false. unfold retained. rewrite Hfresh. cbn [default].
      set (sim := Qmax_list _).
      assert (Hs0 : 0 <= sim).
      { apply Qmax_list_nonneg, Forall_forall. intros x Hx.
        apply list_elem_of_fmap in Hx as (j & -> & _). apply Hsim. }
      apply Qle_trans with (score h0 c); [|exact Hle].
      assert (Hprod : 0 <= diversity * sim)
        by (apply Qmult_le_0_compat; assumption).
      apply Qle_minus_iff.
      setoid_replace (score h0 c + - (score h0 c - diversity * sim))
        with (diversity * sim) using relation Qeq by ring.
      exact Hprod. }
    rewrite Hcmp. intros H. injection H as <-. split; [exact Hh|].
    rewrite Hsel, firstn_app.
    replace (Z.to_nat top_n - length done)%nat with 0%nat by lia.
    rewrite app_nil_r. reflexivity.
Qed.

Lemma mmr_loop_quiet (rest : list nat) :
  forall (done : list nat) (st st' : mmr_state) (i : nat),
    StronglySorted (before (score h0)) (done ++ rest) ->
    m_heap st = h0 ->
    m_selected st = firstn (Z.to_nat top_n) done ->
    mmr_loop cos_sim diversity top_n ordered st i rest = Some st' ->
    m_heap st' = h0
    /\ m_selected st' = firstn (Z.to_nat top_n) (done ++ rest).
Proof.
  induction rest as [|c rest IH]; intros done st st' i Hs Hh Hsel Hloop.
  - injection Hloop as <-. rewrite app_nil_r. auto.
  - cbn [mmr_loop] in Hloop.
    destruct (mmr_step _ _ _ _ _ _ _) as [st1|] eqn:E; [|discriminate].
    destruct (mmr_step_quiet done rest st st1 i c Hs Hh Hsel E) as [Hh1 Hs1].
    replace (done ++ c :: rest) with ((done ++ [c]) ++ rest) in *
      by (rewrite <- app_assoc; reflexivity).
    eapply IH; eassumption.
Qed.
End QuietMmr.

(** X11: without a cross-encoder, when the diversity and the cosine
    similarities are not negative, the diversity stage replaces nothing:
    [rank_sections] returns the first [top_n] sections of the stable sort by
    descending raw score, in that order, whatever the diversity. *)
Theorem diversity_changes_nothing_in_score_order `{U : UnicodeDB}
    (combined_score : list Sec -> str -> str -> nat -> Q)
    (cos_sim : Sec -> Sec -> Q) (diversity : Q)
    (sections : list Sec) (persona job : str) (top_n : Z)
    (h : Heap) (ranked : list nat) :
  0 <= diversity ->
  (forall a b, 0 <= cos_sim a b) ->
  rank_sections_refs combined_score cos_sim None diversity
    sections persona job top_n = Some (h, ranked) ->
  ranked
  = firstn (Z.to_nat top_n)
      (sorted_desc (by_raw_score (combined_score sections persona job))
                   (seq 0 (length sections))).
Proof.
  intros Hdiv Hsim Hcall.
  pose proof (rank_sections_refs_inv _ _ _ _ _ _ _ _ _ _ Hcall)
    as (_ & Hpos & _).
  unfold rank_sections_refs in Hcall. cbn [rerank] in Hcall.
  set (h1 := score_all combined_score sections persona job
               (initial_heap sections)) in Hcall.
  set (ordered0 := sorted_desc (le_score h1) (seq 0 (length sections)))
    in Hcall.
  destruct (bool_decide (sections = [])); [discriminate|].
  destruct (mmr_loop _ _ _ _ _ _ _) as [st|] eqn:Hloop; [|discriminate].
  injection Hcall as _ Hranked.
  assert (Hfresh : forall r, d_mmr (h1 r) = None)
    by (intros r; apply score_all_mmr).
  assert (Hsorted : StronglySorted (before (score h1)) ordered0)
    by apply sorted_desc_seq_sorted.
  destruct (mmr_loop_quiet cos_sim diversity top_n ordered0 h1 Hdiv Hsim
              Hfresh ordered0 [] (mkMmr h1 [] []) st 0) as [Hh Hsel];
    [exact Hsorted|reflexivity|rewrite firstn_nil; reflexivity|exact Hloop|].
  cbn [app] in Hsel. rewrite Hh, Hsel in Hranked.
  rewrite sorted_desc_of_sorted in Hranked.
  - rewrite py_take_all in Hranked by (rewrite length_firstn; lia).
    rewrite <- Hranked. f_equal. unfold ordered0.
    apply sorted_desc_ext. intros x y Hx Hy.
    apply list_elem_of_In, in_seq in Hx, Hy.
    unfold le_score, by_raw_score, score, h1.
    rewrite !score_all_score by lia. reflexivity.
  - exact Hfresh.
  - rewrite <- (firstn_skipn (Z.to_nat top_n) ordered0) in Hsorted.
    apply StronglySorted_prefix in Hsorted. exact Hsorted.
Qed.

Lemma diversity_changes_nothing_in_score_order_witness :
  exists h ranked,
    rank_sections_refs (U := ascii_db) tied_scores flat_similarity None 0.3
      three_sections (py "Travel Planner") (py "Plan a trip") 2
    = Some (h, ranked)
    /\ ranked = [2; 0]%nat.
Proof.
  destruct (rank_sections_refs_returns (U := ascii_db) tied_scores
              flat_similarity None 0.3 three_sections
              (py "Travel Planner") (py "Plan a trip") 2)
    as (h & ranked & E); [discriminate|reflexivity|].
  exists h, ranked. split; [exact E|].
  rewrite (diversity_changes_nothing_in_score_order (U := ascii_db)
             tied_scores flat_similarity 0.3 three_sections
             (py "Travel Planner") (py "Plan a trip") 2 h ranked);
    [reflexivity|discriminate|intros a b; discriminate|exact E].
Defined.

(** ** Outlines *)

Lemma StronglySorted_snoc {A} (R : A -> A -> Prop) (l : list A) (x : A) :
  StronglySorted R l -> Forall (fun y => R y x) l ->
  StronglySorted R (l ++ [x]).
Proof.
  induction 1 as [|y l Hs IH Hy]; intros Hx.
  - repeat constructor.
  - apply Forall_cons in Hx as [Hyx Hx]. cbn [app]. constructor.
    + apply IH, Hx.
    + apply List.Forall_app. split; [exact Hy|]. repeat constructor. exact Hyx.
Qed.

Section OutlineShape.
Context {U : UnicodeDB}.

Lemma get_level_level (body_size size : Q) (text : str) :
  is_level (get_level body_size size text).
Proof. unfold get_level, is_level. repeat case_match; auto. Qed.

(** X12: [get_level] answers H1, H2 or H3, and a larger font never gets a
    lower level for the same text. *)
Theorem get_level_is_monotone (body_size s1 s2 : Q) (text : str) :
  s1 <= s2 ->
  is_level (get_level body_size s1 text)
  /\ (level_rank (get_level body_size s1 text)
      <= level_rank (get_level body_size s2 text))%nat.
Proof.
  intros Hs. unfold get_level, is_level.
  destruct (Qleb (body_size + 2) s1) eqn:E1.
  - apply Qleb_le in E1.
    assert (E2 : Qleb (body_size + 2) s2 = true)
      by (apply Qleb_le; eapply Qle_trans; eassumption).
    rewrite E2. split; [auto|reflexivity].
  - destruct (Qleb (body_size + 1) s1) eqn:E3.
    + apply Qleb_le in E3.
      assert (E4 : Qleb (body_size + 1) s2 = true)
        by (apply Qleb_le; eapply Qle_trans; eassumption).
      rewrite E4. split; [auto|].
      destruct (Qleb (body_size + 2) s2); vm_compute; lia.
    + split; [destruct (_ || _); auto|].
      destruct (Qleb (body_size + 2) s2), (Qleb (body_size + 1) s2),
        (re_match numbering text || str_isupper text); vm_compute; lia.
Qed.

Lemma lstrip_snoc (s : str) (c : char) :
  isspace c = false -> lstrip (s ++ [c]) = lstrip s ++ [c].
Proof.
  intros Hc. induction s as [|a s IH]; cbn [app lstrip].
  - rewrite Hc. reflexivity.
  - destruct (isspace a); [exact IH|reflexivity].
Qed.

Lemma lstrip_fixed (s : str) :
  lstrip s = s -> s = [] \/ exists c r, s = c :: r /\ isspace c = false.
Proof.
  destruct s as [|c r]; [left; reflexivity|]. intros H. right.
  exists c, r. split; [reflexivity|].
  cbn [lstrip] in H. destruct (isspace c); [|reflexivity].
  pose proof (lstrip_length r) as Hl. rewrite H in Hl. cbn in Hl. lia.
Qed.

Lemma lstrip_lstrip (s : str) : lstrip (lstrip s) = lstrip s.
Proof.
  induction s as [|c s IH]; [reflexivity|]. cbn [lstrip].
  destruct (isspace c) eqn:E; [exact IH|]. cbn [lstrip]. rewrite E.
  reflexivity.
Qed.

(** [s.strip().strip() == s.strip()]. *)
Lemma strip_strip (s : str) : strip (strip s) = strip s.
Proof.
  unfold strip.
  assert (H : lstrip (rstrip (lstrip s)) = rstrip (lstrip s)).
  { destruct (lstrip_fixed (lstrip s) (lstrip_lstrip s))
      as [->|(c & r & -> & Hc)]; [reflexivity|].
    unfold rstrip. cbn [rev]. rewrite (lstrip_snoc _ _ Hc), rev_unit.
    cbn [lstrip]. rewrite Hc. reflexivity. }
  rewrite H. unfold rstrip. rewrite rev_involutive, lstrip_lstrip.
  reflexivity.
Qed.

Lemma rejected_length (height : Q) (b : Block) :
  rejected height b = false ->
  (3 <= length (strip (block_text b)) <= 150)%nat
  /\ (2 <= count_alpha (strip (block_text b)))%nat.
Proof.
  unfold rejected. rewrite !orb_false_iff.
  intros ((((((((((_ & H3) & H150) & _) & _) & _) & _) & Ha) & _) & _) & _).
  apply Nat.ltb_ge in H3, H150, Ha. lia.
Qed.

Lemma heading_step_inv (body_size height : Q) (page_num : nat)
    (acc : gset str * list Heading) (b : Block) :
  outline_inv (Z.of_nat page_num + 1) acc ->
  outline_inv (Z.of_nat page_num + 1)
              (heading_step body_size height page_num acc b).
Proof.
  destruct acc as [seen headings]. intros Inv. unfold heading_step.
  destruct (block_lines b); [|exact Inv].
  destruct (rejected height b) eqn:Er; [exact Inv|].
  destruct (is_heading body_size b); [|exact Inv].
  destruct (bool_decide_reflect
              (normalized_title (strip (block_text b)) ∈ seen)) as [Hin|Hnin];
    [exact Inv|].
  destruct Inv as (I1 & I2 & I3 & I4). cbn [fst snd] in *.
  unfold outline_inv. cbn [fst snd]. rewrite !map_app. cbn [map].
  split; [|split; [|split]].
  - apply Forall_app. split; [exact I1|]. constructor; [|constructor].
    cbn [h_title h_page_number h_level].
    split; [apply (rejected_length height), Er|].
    split; [apply (rejected_length height), Er|].
    split; [apply strip_strip|].
    split; [lia|apply get_level_level].
  - intros t. rewrite elem_of_union, elem_of_singleton, elem_of_app, I2.
    unfold norm_of at 2. cbn [h_title].
    rewrite list_elem_of_singleton. tauto.
  - apply NoDup_app. split; [exact I3|]. split; [|apply NoDup_singleton].
    intros t Ht Ht'. apply list_elem_of_singleton in Ht' as ->.
    apply Hnin, I2, Ht.
  - apply StronglySorted_snoc; [exact I4|].
    apply Forall_forall. intros p Hp.
    apply list_elem_of_fmap in Hp as (h & -> & Hh).
    rewrite Forall_forall in I1.
    destruct (I1 h Hh) as (_ & _ & _ & Hpage & _).
    cbn [h_page_number]. lia.
Qed.

Lemma outline_inv_mono (k k' : Z) (acc : gset str * list Heading) :
  (k <= k')%Z -> outline_inv k acc -> outline_inv k' acc.
Proof.
  intros Hk (I1 & I2 & I3 & I4). split; [|auto].
  eapply Forall_impl; [exact I1|]. intros h (A & A' & A'' & B & C).
  repeat (split; [assumption|]). split; [lia|exact C].
Qed.

Lemma headings_of_page_inv (body_size : Q) (p : nat * Page)
    (acc : gset str * list Heading) :
  outline_inv (Z.of_nat p.1) acc ->
  outline_inv (Z.of_nat p.1 + 1) (headings_of_page body_size acc p).
Proof.
  intros Inv. apply (outline_inv_mono _ (Z.of_nat p.1 + 1)) in Inv; [|lia].
  unfold headings_of_page. revert acc Inv.
  induction (page_blocks p.2) as [|b blocks IH]; intros acc Inv; [exact Inv|].
  cbn [fold_left]. apply IH, heading_step_inv, Inv.
Qed.

Lemma pages_inv (body_size : Q) (pages : list Page) :
  forall (k : nat) (acc : gset str * list Heading),
    outline_inv (Z.of_nat k) acc ->
    outline_inv (Z.of_nat (k + length pages))
      (fold_left (headings_of_page body_size)
                 (imap (fun i p => (k + i, p)%nat) pages) acc).
Proof.
  induction pages as [|p pages IH]; intros k acc Inv.
  - cbn. rewrite Nat.add_0_r. exact Inv.
  - rewrite imap_cons. cbn [fold_left length].
    rewrite (imap_ext _ (fun i p => (S k + i, p)%nat))
      by (intros; cbn; f_equal; lia).
    replace (k + S (length pages))%nat with (S k + length pages)%nat by lia.
    apply IH.
    pose proof (headings_of_page_inv body_size (k + 0, p)%nat acc) as H.
    cbn [fst] in H. rewrite Nat.add_0_r in H.
    replace (Z.of_nat (S k)) with (Z.of_nat k + 1)%Z by lia.
    cbn beta. rewrite Nat.add_0_r. apply H, Inv.
Qed.

Lemma extract_headings_inv (body_size : Q) (doc : Document) :
  exists seen,
    outline_inv (Z.min 10 (doc_len doc))
                (seen, extract_headings body_size doc).
Proof.
  unfold extract_headings.
  pose proof (pages_inv body_size (firstn 10 doc) 0 (∅, [])) as H.
  rewrite (imap_ext _ pair) in H by reflexivity.
  destruct (fold_left _ _ _) as [seen headings].
  exists seen. cbn [snd].
  replace (Z.min 10 (doc_len doc)) with (Z.of_nat (0 + length (firstn 10 doc)))
    by (rewrite length_firstn; unfold doc_len; lia).
  apply H. unfold outline_inv. cbn.
  split; [constructor|]. split; [|split; constructor].
  intros t. split; intros Ht; inversion Ht.
Qed.
End OutlineShape.

Lemma get_level_is_monotone_witness :
  (level_rank (get_level (U := ascii_db) 12 12.5 (py "Overview"))
   <= level_rank (get_level (U := ascii_db) 12 13 (py "Overview")))%nat.
Proof.
  apply (get_level_is_monotone (U := ascii_db) 12 12.5 13 (py "Overview")).
  discriminate.
Defined.

(** X13: every heading of [extract_outline] has a title of 3 to 150
    characters with at least two alphabetic ones and no surrounding
    whitespace, a page number between 1 and the smaller of 10 and the page
    count, and a level H1, H2 or H3; the headings come in the order of their
    pages. *)
Theorem outline_headings_are_well_formed `{U : UnicodeDB}
    (set_iter : list Q -> list Q) (doc : Document) (outline : Outline) :
  extract_outline set_iter doc = Some outline ->
  Forall (fun h => (3 <= length (h_title h) <= 150)%nat
                   /\ (2 <= count_alpha (h_title h))%nat
                   /\ strip (h_title h) = h_title h
                   /\ (1 <= h_page_number h <= Z.min 10 (doc_len doc))%Z
                   /\ is_level (h_level h))
         (o_headings outline)
  /\ StronglySorted Z.le (map h_page_number (o_headings outline)).
Proof.
  unfold extract_outline. destruct doc as [|first_page doc]; [discriminate|].
  intros H. injection H as <-. cbn [o_headings].
  destruct (extract_headings_inv (body_size_of set_iter (first_page :: doc))
              (first_page :: doc)) as (seen & I1 & _ & _ & I4).
  split; assumption.
Qed.

Lemma outline_headings_are_well_formed_witness :
  exists outline,
    extract_outline (U := ascii_db) id [leave_form] = Some outline
    /\ Forall (fun h => (1 <= h_page_number h <= 1)%Z) (o_headings outline).
Proof.
  eexists. split; [vm_compute; reflexivity|].
  destruct (outline_headings_are_well_formed (U := ascii_db) id [leave_form]
              _ eq_refl) as [H _].
  eapply Forall_impl; [exact H|].
  intros h (_ & _ & _ & Hp & _). exact Hp.
Defined.

(** X14: no two headings of an outline have the same normalized title
    (numbering stripped, lowercased, whitespace collapsed). *)
Theorem outline_titles_are_distinct `{U : UnicodeDB}
    (set_iter : list Q -> list Q) (doc : Document) (outline : Outline) :
  extract_outline set_iter doc = Some outline ->
  NoDup (map norm_of (o_headings outline)).
Proof.
  unfold extract_outline. destruct doc as [|first_page doc]; [discriminate|].
  intros H. injection H as <-. cbn [o_headings].
  destruct (extract_headings_inv (body_size_of set_iter (first_page :: doc))
              (first_page :: doc)) as (seen & _ & _ & I3 & _).
  exact I3.
Qed.

Lemma outline_titles_are_distinct_witness :
  exists outline,
    extract_outline (U := ascii_db) id [leave_form] = Some outline
    /\ NoDup (map (norm_of (U := ascii_db)) (o_headings outline)).
Proof.
  eexists. split; [vm_compute; reflexivity|].
  apply (outline_titles_are_distinct (U := ascii_db) id [leave_form]).
  reflexivity.
Defined.

(** ** The body size *)

Lemma first_best_from_lt {K} (better : K -> K -> bool) (keys : list K) :
  forall (i best : nat) (best_key : K),
    (best < i)%nat ->
    (first_best_from better keys i best best_key < i + length keys)%nat.
Proof.
  induction keys as [|k keys IH]; intros i best best_key Hlt; cbn.
  - lia.
  - destruct (better k best_key).
    + specialize (IH (S i) i k). lia.
    + specialize (IH (S i) best best_key). lia.
Qed.

Lemma first_best_lt {K} (better : K -> K -> bool) (keys : list K) (i : nat) :
  first_best better keys = Some i -> (i < length keys)%nat.
Proof.
  destruct keys as [|k keys]; [discriminate|]. intros H. injection H as <-.
  pose proof (first_best_from_lt better keys 1 0 k). cbn [length]. lia.
Qed.

Lemma counter_keys_elem (l : list Q) (x : Q) :
  x ∈ counter_keys l -> x ∈ l.
Proof.
  induction l as [|y l IH]; cbn [counter_keys]; [auto|].
  intros H. apply elem_of_cons in H as [->|H]; [left|right].
  apply list_elem_of_filter in H. apply IH, H.
Qed.

Lemma most_common1_elem (l : list Q) :
  l <> [] -> exists x, most_common1 l = Some x /\ x ∈ l.
Proof.
  intros Hl. unfold most_common1.
  destruct (first_best _ _) as [i|] eqn:E.
  - pose proof (first_best_lt _ _ _ E) as Hi. rewrite length_map in Hi.
    apply lookup_lt_is_Some in Hi as [x Hx]. exists x.
    split; [exact Hx|].
    apply counter_keys_elem. eapply list_elem_of_lookup_2, Hx.
  - apply first_best_None in E. destruct l; [congruence|discriminate].
Qed.

(** X15: the body size is 12 when the first two pages have no span;
    otherwise it is the size of one of their spans, rounded to a tenth. *)
Theorem body_size_is_a_rounded_span_size `{U : UnicodeDB}
    (set_iter : list Q -> list Q) (doc : Document) :
  (forall l, Permutation (set_iter l) l) ->
  (sampled_sizes doc = [] -> body_size_of set_iter doc = 12)
  /\ (sampled_sizes doc <> [] ->
      exists size, size ∈ sampled_sizes doc
                   /\ body_size_of set_iter doc = round1 size).
Proof.
  intros Hperm. unfold body_size_of.
  specialize (Hperm (counter_keys (sampled_sizes doc))).
  split.
  - intros E. rewrite E in *. cbn [counter_keys] in *.
    apply Permutation_nil_r in Hperm. rewrite Hperm. reflexivity.
  - intros Hne.
    destruct (set_iter _) as [|s font_sizes] eqn:E.
    + apply Permutation_nil_l in Hperm.
      destruct (sampled_sizes doc); [congruence|discriminate].
    + destruct (most_common1_elem (map round1 (s :: font_sizes)))
        as (x & -> & Hx); [discriminate|].
      apply list_elem_of_fmap in Hx as (size & -> & Hsize).
      exists size. split; [|reflexivity].
      apply counter_keys_elem. rewrite <- Hperm. exact Hsize.
Qed.

Lemma body_size_is_a_rounded_span_size_witness :
  exists size, size ∈ sampled_sizes [mixed_sizes]
               /\ body_size_of id [mixed_sizes] = round1 size.
Proof.
  apply (body_size_is_a_rounded_span_size (U := ascii_db) id [mixed_sizes]).
  - intros l. reflexivity.
  - discriminate.
Defined.

(** ** Sections of an outline *)

Lemma insert_asc_sorted {A} (le : A -> A -> bool) (R : A -> A -> Prop)
    (x : A) (l : list A) :
  (forall a b, le a b = true -> R a b) ->
  (forall a b, le a b = false -> R b a) ->
  (forall a b c, R a b -> R b c -> R a c) ->
  StronglySorted R l ->
  StronglySorted R (insert_desc (fun y x => le x y) x l).
Proof.
  intros Ht Hf Htrans. induction 1 as [|y l Hs IH Hy]; cbn [insert_desc].
  - repeat constructor.
  - destruct (le x y) eqn:E.
    + constructor; [constructor; assumption|].
      constructor; [apply Ht, E|].
      eapply Forall_impl; [exact Hy|]. intros z Hz.
      eapply Htrans; [apply Ht, E|exact Hz].
    + constructor; [exact IH|].
      apply Forall_forall. intros z Hz. rewrite insert_desc_perm in Hz.
      apply elem_of_cons in Hz as [->|Hz]; [apply Hf, E|].
      rewrite Forall_forall in Hy. apply Hy, Hz.
Qed.

Lemma sorted_asc_sorted {A} (le : A -> A -> bool) (R : A -> A -> Prop)
    (l : list A) :
  (forall a b, le a b = true -> R a b) ->
  (forall a b, le a b = false -> R b a) ->
  (forall a b c, R a b -> R b c -> R a c) ->
  StronglySorted R (sorted_asc le l).
Proof.
  intros Ht Hf Htrans. unfold sorted_asc, sorted_desc.
  induction l as [|x l IH]; cbn [fold_right]; [constructor|].
  apply insert_asc_sorted; assumption.
Qed.

Lemma headings_sorted_by_page (headings : list Heading) :
  StronglySorted (fun a b => (h_page_number a <= h_page_number b)%Z)
                 (sorted_asc heading_le headings).
Proof.
  apply sorted_asc_sorted.
  - intros a b. unfold heading_le. intros H.
    apply orb_true_iff in H as [H|H]; [apply Z.ltb_lt in H; lia|].
    apply andb_true_iff in H as [H _]. apply Z.eqb_eq in H. lia.
  - intros a b. unfold heading_le. intros H.
    apply orb_false_iff in H as [H _]. apply Z.ltb_ge in H. exact H.
  - intros a b c. apply Z.le_trans.
Qed.

Lemma StronglySorted_filter {A} (R : A -> A -> Prop) (P : A -> Prop)
    `{forall x, Decision (P x)} (l : list A) :
  StronglySorted R l -> StronglySorted R (filter P l).
Proof.
  induction 1 as [|x l Hs IH Hx]; [constructor|].
  rewrite filter_cons. destruct (decide (P x)); [|exact IH].
  constructor; [exact IH|].
  apply Forall_forall. intros y Hy. apply list_elem_of_filter in Hy as [_ Hy].
  rewrite Forall_forall in Hx. apply Hx, Hy.
Qed.

Lemma StronglySorted_map {A B} (R : B -> B -> Prop) (f : A -> B)
    (l : list A) :
  StronglySorted (fun a b => R (f a) (f b)) l -> StronglySorted R (map f l).
Proof.
  induction 1 as [|x l Hs IH Hx]; cbn [map]; constructor; [exact IH|].
  apply Forall_forall. intros y Hy.
  apply list_elem_of_fmap in Hy as (a & -> & Ha).
  rewrite Forall_forall in Hx. apply Hx, Ha.
Qed.

Lemma doc_getitem_in_range (doc : Document) (i : Z) :
  (0 <= i < doc_len doc)%Z -> is_Some (doc_getitem doc i).
Proof.
  intros Hi. unfold doc_getitem.
  destruct (Z.ltb_spec i (doc_len doc)); [|lia].
  rewrite Z.mod_small by lia. apply lookup_lt_is_Some.
  unfold doc_len in Hi. lia.
Qed.

Lemma text_of_pages_total (doc : Document) (start stop : Z) :
  (0 <= start)%Z -> (stop <= doc_len doc)%Z ->
  is_Some (text_of_pages doc start stop).
Proof.
  intros Hstart Hstop. unfold text_of_pages.
  assert (H : is_Some (mapM (doc_getitem doc) (py_range start stop))).
  { apply mapM_is_Some, Forall_forall. intros i Hi.
    unfold py_range in Hi. apply list_elem_of_fmap in Hi as (k & -> & Hk).
    apply elem_of_seq in Hk. apply doc_getitem_in_range. lia. }
  destruct H as [pages ->]. cbn. eauto.
Qed.

Section SectionsOfOutline.
Context {U : UnicodeDB}.
Variable _clean_page_text : str -> str.

Lemma is_clean_title_none (title : str) :
  is_clean_title title = None ->
  length (strip title) = 3%nat /\ str_isdigit (strip title) = true.
Proof.
  unfold is_clean_title.
  destruct (_ || _) eqn:Elen; [discriminate|].
  apply orb_false_iff in Elen as [_ Elen]. apply Nat.ltb_ge in Elen.
  destruct (bool_decide _); [discriminate|].
  destruct (existsb _ _); [discriminate|].
  destruct (str_isdigit (firstn 3 (strip title))) eqn:Ed.
  - destruct (strip title !! 3%nat) as [c|] eqn:E3.
    + destruct (_ || _); [discriminate|]. repeat case_match; discriminate.
    + intros _. apply lookup_ge_None in E3.
      split; [apply Nat.le_antisymm; [exact E3|exact Elen]|].
      rewrite <- Ed. f_equal. symmetry.
      apply firstn_all2, E3.
  - repeat case_match; discriminate.
Qed.

(** X16: [is_clean_title] raises only on a title that is, stripped, exactly
    three digits. *)
Theorem is_clean_title_raises_on_three_digits (title : str) :
  is_clean_title title = None ->
  length (strip title) = 3%nat /\ str_isdigit (strip title) = true.
Proof. apply is_clean_title_none. Qed.
Lemma section_loop_keys (doc : Document) (headings : list Heading) :
  forall sections,
    section_loop _clean_page_text doc headings = Some sections ->
    map sec_key sections
    = map heading_key
          (filter (fun h => is_clean_title (h_title h) = Some true) headings).
Proof.
  induction headings as [|h rest IH]; intros sections H.
  - injection H as <-. reflexivity.
  - rewrite filter_cons. cbn [section_loop] in H.
    destruct (is_clean_title (h_title h)) as [[|]|] eqn:Ec; [| |discriminate].
    + rewrite decide_True by reflexivity. cbv zeta in H.
      apply bind_Some in H as (t & _ & H).
      apply bind_Some in H as (t' & _ & H).
      apply bind_Some in H as (sections' & Hrest & H).
      injection H as <-. cbn [map]. f_equal. apply IH, Hrest.
    + rewrite decide_False by discriminate. apply IH, H.
Qed.

Lemma section_loop_raises (doc : Document) (headings : list Heading)
    (h : Heading) :
  h ∈ headings -> is_clean_title (h_title h) = None ->
  section_loop _clean_page_text doc headings = None.
Proof.
  intros Hin Hnone. induction headings as [|h' rest IH]; [inversion Hin|].
  cbn [section_loop]. apply elem_of_cons in Hin as [<-|Hin].
  - rewrite Hnone. reflexivity.
  - rewrite (IH Hin).
    destruct (is_clean_title (h_title h')) as [[|]|]; try reflexivity.
    cbv zeta. destruct (text_of_pages _ _ _) as [t|]; [|reflexivity].
    cbn [mbind option_bind].
    destruct (if bool_decide _ then _ else _); reflexivity.
Qed.

Lemma section_loop_total (doc : Document) (headings : list Heading) :
  Forall (fun h => (1 <= h_page_number h <= doc_len doc)%Z
                   /\ is_clean_title (h_title h) <> None) headings ->
  is_Some (section_loop _clean_page_text doc headings).
Proof.
  induction 1 as [|h rest [Hpage Hclean] _ IH]; [cbn; eauto|].
  cbn [section_loop].
  destruct (is_clean_title (h_title h)) as [[|]|]; [|exact IH|congruence].
  cbv zeta. destruct IH as [sections ->].
  match goal with
  | |- context [text_of_pages ?d ?a ?b] =>
      destruct (text_of_pages_total d a b) as [t ->]; [lia|lia|]
  end.
  cbn [mbind option_bind].
  destruct (doc_getitem_in_range doc (h_page_number h - 1)) as [p ->];
    [lia|].
  destruct (bool_decide _); cbn; eauto.
Qed.

(** X17: for an outline with headings, the sections are the headings with a
    clean title, with their title, page number and level, in the order of
    their pages. *)
Theorem sections_are_the_clean_headings (doc : Document) (outline : Outline)
    (sections : list Sec) :
  o_headings outline <> [] ->
  extract_sections _clean_page_text doc outline = Some sections ->
  map sec_key sections
  = map heading_key
        (filter (fun h => is_clean_title (h_title h) = Some true)
                (sorted_asc heading_le (o_headings outline)))
  /\ StronglySorted Z.le (map sec_page_number sections).
Proof.
  intros Hne H. unfold extract_sections in H.
  destruct (o_headings outline) as [|h0 headings] eqn:E; [congruence|].
  apply section_loop_keys in H. split; [exact H|].
  replace (map sec_page_number sections)
    with (map (fun k : str * Z * option str => k.1.2) (map sec_key sections))
    by (rewrite map_map; reflexivity).
  rewrite H, map_map. cbn [heading_key fst snd].
  apply StronglySorted_map, StronglySorted_filter, headings_sorted_by_page.
Qed.

(** X18: when the page numbers of the headings are within the document,
    [extract_sections] raises exactly when [is_clean_title] raises on the
    title of one of the headings. *)
Theorem extract_sections_raises_with_is_clean_title (doc : Document)
    (outline : Outline) :
  Forall (fun h => (1 <= h_page_number h <= doc_len doc)%Z)
         (o_headings outline) ->
  extract_sections _clean_page_text doc outline = None
  <-> exists h, h ∈ o_headings outline
                /\ is_clean_title (h_title h) = None.
Proof.
  intros Hpages. unfold extract_sections.
  destruct (o_headings outline) as [|h0 headings] eqn:E.
  - split; [discriminate|]. intros (h & Hh & _). inversion Hh.
  - rewrite <- E in *. clear E. split.
    + intros Hnone.
      destruct (Forall_Exists_dec
                  (fun h => is_clean_title (h_title h) <> None)
                  (fun h => is_clean_title (h_title h) = None)
                  (fun h => match is_clean_title (h_title h) as o
                                  return {o <> None} + {o = None} with
                            | Some b => left (Some_ne_None b)
                            | None => right eq_refl
                            end)
                  (o_headings outline)) as [Hall|Hex].
      * assert (Hs : is_Some (section_loop _clean_page_text doc
                                (sorted_asc heading_le (o_headings outline)))).
        { apply section_loop_total. unfold sorted_asc.
          rewrite sorted_desc_perm. apply Forall_and. split; assumption. }
        rewrite Hnone in Hs. destruct Hs as [? Hs]. discriminate.
      * apply Exists_exists in Hex. exact Hex.
    + intros (h & Hh & Hnone).
      apply (section_loop_raises doc _ h); [|exact Hnone].
      unfold sorted_asc. rewrite sorted_desc_perm. exact Hh.
Qed.

(** X19: [extract_sections] does not raise on the outline that
    [extract_outline] finds for the same document, provided no digit is
    alphabetic; every section is then on one of the first ten pages. *)
Theorem sections_of_the_extracted_outline (set_iter : list Q -> list Q)
    (doc : Document) (outline : Outline) :
  (forall s, str_isdigit s = true -> count_alpha s = 0%nat) ->
  extract_outline set_iter doc = Some outline ->
  exists sections,
    extract_sections _clean_page_text doc outline = Some sections
    /\ Forall (fun s => (1 <= sec_page_number s
                         <= Z.min 10 (doc_len doc))%Z) sections.
Proof.
  intros Hdigit Hout. unfold extract_outline in Hout.
  destruct doc as [|first_page doc]; [discriminate|].
  injection Hout as <-. unfold extract_sections. cbn [o_headings o_title].
  destruct (extract_headings_inv
              (body_size_of set_iter (first_page :: doc))
              (first_page :: doc)) as (seen & I1 & _).
  cbn [snd] in I1.
  destruct (extract_headings _ _) as [|h0 headings] eqn:E.
  - eexists. split; [reflexivity|]. repeat constructor; cbn; try lia.
    unfold doc_len. cbn [length]. lia.
  - rewrite <- E in *. clear E.
    set (sorted := sorted_asc heading_le _).
    assert (I1' : Forall (fun h =>
                    (3 <= length (h_title h) <= 150)%nat
                    /\ (2 <= count_alpha (h_title h))%nat
                    /\ strip (h_title h) = h_title h
                    /\ (1 <= h_page_number h
                        <= Z.min 10 (doc_len (first_page :: doc)))%Z
                    /\ is_level (h_level h)) sorted).
    { unfold sorted, sorted_asc. rewrite sorted_desc_perm. exact I1. }
    destruct (section_loop_total (first_page :: doc) sorted)
      as [sections Hs].
    { eapply Forall_impl; [exact I1'|].
      intros h (_ & Halpha & Hstrip & Hpage & _). split; [lia|].
      intros Hnone.
      apply is_clean_title_none in Hnone as [_ Hd].
      rewrite Hstrip in Hd. apply Hdigit in Hd. lia. }
    exists sections. split; [exact Hs|].
    apply section_loop_keys in Hs. apply Forall_forall. intros s Hsec.
    assert (Hk : sec_key s ∈ map sec_key sections)
      by (apply list_elem_of_fmap; eauto).
    rewrite Hs in Hk. apply list_elem_of_fmap in Hk as (h & Hkey & Hh).
    apply list_elem_of_filter in Hh as [_ Hh].
    rewrite Forall_forall in I1'.
    destruct (I1' h Hh) as (_ & _ & _ & Hpage & _).
    injection Hkey as _ -> _. exact Hpage.
Qed.
End SectionsOfOutline.

Lemma is_clean_title_raises_on_three_digits_witness :
  length (strip (py " 123 ")) = 3%nat
  /\ str_isdigit (UnicodeDB := ascii_db) (strip (py " 123 ")) = true.
Proof.
  apply (is_clean_title_raises_on_three_digits (U := ascii_db)).
  vm_compute. reflexivity.
Defined.

Lemma sections_are_the_clean_headings_witness :
  exists sections,
    extract_sections (U := ascii_db) id [leave_form]
                     (mkOutline [] [leave_heading]) = Some sections
    /\ map sec_key sections = [heading_key leave_heading].
Proof.
  eexists. split; [vm_compute; reflexivity|].
  destruct (sections_are_the_clean_headings (U := ascii_db) id [leave_form]
              (mkOutline [] [leave_heading]) _ ltac:(discriminate) eq_refl)
    as [H _].
  exact H.
Defined.

Lemma extract_sections_raises_with_is_clean_title_witness :
  extract_sections (U := ascii_db) id [leave_form]
                   (mkOutline [] [leave_heading; digits_heading]) = None.
Proof.
  apply (extract_sections_raises_with_is_clean_title (U := ascii_db) id
           [leave_form] (mkOutline [] [leave_heading; digits_heading])).
  - repeat constructor; vm_compute; discriminate.
  - exists digits_heading. split; [right; left|vm_compute; reflexivity].
Defined.

Lemma ascii_digits_are_not_letters (s : str) :
  str_isdigit (UnicodeDB := ascii_db) s = true ->
  count_alpha (U := ascii_db) s = 0%nat.
Proof.
  cbn [str_isdigit ascii_db]. intros H.
  apply andb_true_iff in H as [_ H].
  unfold count_alpha, str. rewrite filter_none; [reflexivity|].
  intros c Hc. rewrite forallb_forall in H.
  apply list_elem_of_In, H in Hc. cbn [chr_isalpha ascii_db].
  unfold is_09, is_az, is_AZ, chr_in in *.
  apply andb_true_iff in Hc as [H1 H2]. apply N.leb_le in H1, H2.
  intros Ha. apply orb_true_iff in Ha as [Ha|Ha];
    apply andb_true_iff in Ha as [H3 H4]; apply N.leb_le in H3, H4; lia.
Qed.

Lemma sections_of_the_extracted_outline_witness :
  exists sections,
    extract_sections (U := ascii_db) id [leave_form]
                     (mkOutline (py "Application Form for Leave")
                                [leave_heading]) = Some sections
    /\ Forall (fun s => (1 <= sec_page_number s <= 1)%Z) sections.
Proof.
  apply (sections_of_the_extracted_outline (U := ascii_db) id id
           [leave_form]).
  - exact ascii_digits_are_not_letters.
  - vm_compute. reflexivity.
Defined.

(** ** The outline extractor of 1a *)

Section Outline1a.
Context {U : UnicodeDB}.
Import PDFOutlineExtractor.

Lemma unique_headings_spec (headings : list RawHeading) :
  forall acc : gset str * list RawHeading,
    (forall t, t ∈ acc.1 <-> t ∈ map (fun h => strip (rh_text h)) acc.2) ->
    NoDup (map (fun h => strip (rh_text h)) acc.2) ->
    (forall t, t ∈ (fold_left unique_step headings acc).1
               <-> t ∈ map (fun h => strip (rh_text h))
                           (fold_left unique_step headings acc).2)
    /\ NoDup (map (fun h => strip (rh_text h))
                  (fold_left unique_step headings acc).2)
    /\ (forall h, h ∈ (fold_left unique_step headings acc).2 ->
                  h ∈ acc.2 \/ h ∈ headings).
Proof.
  induction headings as [|h headings IH]; intros [seen uniq] Hseen Hnd;
    cbn [fold_left].
  - split; [exact Hseen|]. split; [exact Hnd|]. auto.
  - cbn [fst snd] in Hseen, Hnd.
    assert (Hstep :
      (forall t, t ∈ (unique_step (seen, uniq) h).1
                 <-> t ∈ map (fun h => strip (rh_text h))
                             (unique_step (seen, uniq) h).2)
      /\ NoDup (map (fun h => strip (rh_text h))
                    (unique_step (seen, uniq) h).2)
      /\ (forall h', h' ∈ (unique_step (seen, uniq) h).2 ->
                     h' ∈ uniq \/ h' = h)).
    { unfold unique_step. cbn [fst snd].
      destruct (bool_decide_reflect (strip (rh_text h) ∈ seen)) as [Hin|Hnin];
        cbn [fst snd].
      - split; [exact Hseen|]. split; [exact Hnd|]. auto.
      - rewrite map_app. cbn [map]. split; [|split].
        + intros t.
          rewrite elem_of_union, elem_of_singleton, elem_of_app, Hseen,
            list_elem_of_singleton. tauto.
        + apply NoDup_app. split; [exact Hnd|].
          split; [|apply NoDup_singleton].
          intros t Ht Ht'. apply list_elem_of_singleton in Ht' as ->.
          apply Hnin, Hseen, Ht.
        + intros h' Hh'. apply elem_of_app in Hh' as [Hh'|Hh']; [auto|].
          apply list_elem_of_singleton in Hh'. auto. }
    destruct Hstep as (S1 & S2 & S3).
    destruct (IH (unique_step (seen, uniq) h) S1 S2) as (R1 & R2 & R3).
    split; [exact R1|]. split; [exact R2|].
    intros h' Hh'. cbn [snd].
    destruct (R3 h' Hh') as [Hu|Hr]; [|right; right; exact Hr].
    destruct (S3 h' Hu) as [Hu'| ->]; [left; exact Hu'|right; left].
Qed.

Lemma unique_headings_of (headings : list RawHeading) :
  NoDup (map (fun h => strip (rh_text h))
             (fold_left unique_step headings (∅, [])).2)
  /\ (forall h, h ∈ (fold_left unique_step headings (∅, [])).2 ->
                h ∈ headings).
Proof.
  destruct (unique_headings_spec headings (∅, [])) as (_ & H2 & H3).
  - intros t. cbn. split; intros H; inversion H.
  - constructor.
  - split; [exact H2|]. intros h Hh.
    destruct (H3 h Hh) as [H|H]; [inversion H|exact H].
Qed.

Lemma classify_spec (self : Extractor) (doc_text_lower : str)
    (h : RawHeading) :
  is_level (oh_level (classify self doc_text_lower h))
  /\ oh_text (classify self doc_text_lower h) = rh_text h
  /\ oh_page (classify self doc_text_lower h) = rh_page h.
Proof.
  unfold classify, is_level. cbn [oh_level oh_text oh_page].
  split; [|split; reflexivity].
  repeat case_match; auto.
Qed.

Lemma first_with_spec (phrase : str) (headings : list RawHeading) :
  first_with phrase headings = []
  \/ exists h, h ∈ headings
               /\ first_with phrase headings = [mkOut (py "H1") (rh_text h) 0].
Proof.
  unfold first_with.
  destruct (find _ headings) as [h|] eqn:E; [right|left; reflexivity].
  apply find_some in E as [Hin _]. apply list_elem_of_In in Hin.
  exists h. split; [exact Hin|reflexivity].
Qed.

Lemma filter_headings_spec (self : Extractor) (headings : list RawHeading)
    (doc_text_lower : str) :
  Forall (fun o => is_level (oh_level o)
                   /\ exists h, h ∈ headings
                                /\ oh_text o = rh_text h
                                /\ (oh_page o = rh_page h \/ oh_page o = 0%Z))
         (_filter_headings self headings doc_text_lower)
  /\ NoDup (map (fun o => strip (oh_text o))
                (_filter_headings self headings doc_text_lower))
  /\ StronglySorted Z.le
       (map oh_page (_filter_headings self headings doc_text_lower)).
Proof.
  unfold _filter_headings.
  destruct headings as [|h0 headings0] eqn:E;
    [split; [constructor|split; constructor]|].
  rewrite <- E. clear E.
  destruct (unique_headings_of headings) as [Hnd Hsub].
  set (unique_headings := (fold_left unique_step headings (∅, [])).2) in *.
  assert (Hfirst : forall phrase,
    Forall (fun o => is_level (oh_level o)
                     /\ exists h, h ∈ headings
                                  /\ oh_text o = rh_text h
                                  /\ (oh_page o = rh_page h
                                      \/ oh_page o = 0%Z))
           (first_with phrase unique_headings)
    /\ NoDup (map (fun o => strip (oh_text o))
                  (first_with phrase unique_headings))
    /\ StronglySorted Z.le (map oh_page (first_with phrase unique_headings))).
  { intros phrase.
    destruct (first_with_spec phrase unique_headings) as [->|(h & Hh & ->)].
    - split; [constructor|split; constructor].
    - split; [|split].
      + constructor; [|constructor]. cbn. split; [left; reflexivity|].
        exists h. split; [apply Hsub, Hh|]. auto.
      + cbn. apply NoDup_singleton.
      + cbn. repeat constructor. }
  destruct (_ || _); [apply Hfirst|].
  destruct (_ || _); [apply Hfirst|].
  split; [|split].
  - unfold sorted_asc. rewrite sorted_desc_perm.
    apply Forall_forall. intros o Ho.
    apply list_elem_of_fmap in Ho as (h & -> & Hh).
    destruct (classify_spec self doc_text_lower h) as (L & T & P).
    split; [exact L|]. exists h. split; [apply Hsub, Hh|]. auto.
  - unfold sorted_asc.
    rewrite (sorted_desc_perm _ (map (classify self doc_text_lower)
                                     unique_headings)).
    rewrite map_map.
    erewrite map_ext; [exact Hnd|].
    intros h. cbn beta.
    destruct (classify_spec self doc_text_lower h) as (_ & -> & _).
    reflexivity.
  - apply StronglySorted_map, sorted_asc_sorted.
    + intros a b H. apply Z.leb_le in H. exact H.
    + intros a b H. apply Z.leb_gt in H. lia.
    + intros a b c. apply Z.le_trans.
Qed.

(** X20: every heading that [_filter_headings] returns has a level H1, H2 or
    H3 and the text of one of the given headings, with that heading's page
    or page 0; no two of them have the same stripped text, and they come in
    the order of their pages. *)
Theorem filtered_headings_are_distinct_and_ordered (self : Extractor)
    (headings : list RawHeading) (doc_text_lower : str) :
  Forall (fun o => is_level (oh_level o)
                   /\ exists h, h ∈ headings
                                /\ oh_text o = rh_text h
                                /\ (oh_page o = rh_page h \/ oh_page o = 0%Z))
         (_filter_headings self headings doc_text_lower)
  /\ NoDup (map (fun o => strip (oh_text o))
                (_filter_headings self headings doc_text_lower))
  /\ StronglySorted Z.le
       (map oh_page (_filter_headings self headings doc_text_lower)).
Proof. apply filter_headings_spec. Qed.

(** X21: the levels that [_filter_headings] assigns do not depend on the
    language patterns of the extractor: what the multilingual classification
    sets is always overwritten. *)
Theorem levels_ignore_the_language_patterns (self self' : Extractor)
    (headings : list RawHeading) (doc_text_lower : str) :
  _filter_headings self headings doc_text_lower
  = _filter_headings self' headings doc_text_lower.
Proof.
  assert (H : forall h, classify self doc_text_lower h
                        = classify self' doc_text_lower h).
  { intros h. unfold classify.
    destruct (multilingual_patterns self), (multilingual_patterns self');
      reflexivity. }
  unfold _filter_headings. destruct headings as [|h0 headings]; [reflexivity|].
  rewrite (map_ext _ _ H). reflexivity.
Qed.

Lemma raw_headings_spec (self : Extractor) (page : Page) (page_num : Z)
    (doc_text_lower : str) (h : RawHeading) :
  h ∈ _extract_headings_from_page self page page_num doc_text_lower ->
  rh_page h = page_num
  /\ (3 <= length (rh_text h) <= 200)%nat
  /\ strip (rh_text h) = rh_text h.
Proof.
  unfold _extract_headings_from_page. intros H.
  apply list_elem_of_omap in H as (b & _ & H).
  destruct (block_lines b); [|discriminate].
  destruct (_ || _) eqn:E; [discriminate|].
  destruct (_is_obviously_not_heading _ _); [discriminate|].
  destruct (_is_likely_heading _ _ _ _ _); [|discriminate].
  injection H as <-. cbn [rh_page rh_text].
  apply orb_false_iff in E as [E E200].
  apply orb_false_iff in E as [_ E3].
  apply Nat.ltb_ge in E3, E200.
  split; [reflexivity|]. split; [|apply strip_strip].
  split; [exact E3|exact E200].
Qed.

(** X22: every heading in the outline of [extract_outline] has a level H1,
    H2 or H3, a text of 3 to 200 characters without surrounding whitespace,
    and a zero-based page number within the document; no two headings have
    the same text. *)
Theorem outline_1a_is_well_formed (self : Extractor) (doc : Document) :
  Forall (fun o => is_level (oh_level o)
                   /\ (3 <= length (oh_text o) <= 200)%nat
                   /\ strip (oh_text o) = oh_text o
                   /\ (0 <= oh_page o < doc_len doc)%Z)
         (r_outline (extract_outline self doc).2)
  /\ NoDup (map oh_text (r_outline (extract_outline self doc).2)).
Proof.
  unfold extract_outline. cbn [snd r_outline].
  set (self' := mkExtractor _ _). unfold _extract_headings.
  destruct (_ || _); [split; constructor|].
  destruct (match multilingual_patterns self' with
            | Some _ => _ | None => _ end); [split; constructor|].
  set (doc_text_lower := str_lower (sample_text doc)).
  set (all_headings := concat _).
  assert (Hraw : forall h, h ∈ all_headings ->
            (0 <= rh_page h < doc_len doc)%Z
            /\ (3 <= length (rh_text h) <= 200)%nat
            /\ strip (rh_text h) = rh_text h).
  { intros h Hh. unfold all_headings in Hh.
    apply list_elem_of_In, in_concat in Hh as (l & Hl & Hh).
    apply list_elem_of_In in Hl, Hh.
    apply elem_of_lookup_imap_1 in Hl as (i & page & -> & Hpage).
    apply raw_headings_spec in Hh as (Hp & Hlen & Hstrip).
    apply lookup_lt_Some in Hpage.
    split; [unfold doc_len; lia|]. split; assumption. }
  destruct (filter_headings_spec self' all_headings doc_text_lower)
    as (F1 & F2 & _).
  assert (Hall : Forall (fun o => is_level (oh_level o)
                   /\ (3 <= length (oh_text o) <= 200)%nat
                   /\ strip (oh_text o) = oh_text o
                   /\ (0 <= oh_page o < doc_len doc)%Z)
                  (_filter_headings self' all_headings doc_text_lower)).
  { eapply Forall_impl; [exact F1|].
    intros o (L & h & Hh & Ht & Hp).
    destruct (Hraw h Hh) as (Hpage & Hlen & Hstrip).
    rewrite Ht. repeat (split; [assumption|]).
    destruct Hp as [->| ->]; lia. }
  split; [exact Hall|].
  erewrite map_ext_in; [exact F2|].
  intros o Ho. apply list_elem_of_In in Ho.
  rewrite Forall_forall in Hall.
  destruct (Hall o Ho) as (_ & _ & -> & _). reflexivity.
Qed.

Lemma title_candidate_spec (b : Block) (c : TitleCandidate) :
  title_candidate b = Some c ->
  block_lines b <> None
  /\ c_text c = strip (block_text b)
  /\ (10 < length (c_text c) < 200)%nat.
Proof.
  unfold title_candidate. destruct (block_lines b); [|discriminate].
  destruct (_ && _) eqn:E; [|discriminate]. intros H. injection H as <-.
  apply andb_true_iff in E as [E1 E2]. apply Nat.ltb_lt in E1, E2.
  cbn [c_text]. split; [discriminate|]. split; [reflexivity|]. lia.
Qed.

(** X23: the title that [_extract_title] returns is empty, or it is the
    stripped text of a text block of the first page, 11 to 199 characters
    long. *)
Theorem title_1a_is_a_block_of_the_first_page (doc : Document) :
  _extract_title doc = []
  \/ exists first_page rest b,
       doc = first_page :: rest
       /\ b ∈ page_blocks first_page
       /\ block_lines b <> None
       /\ _extract_title doc = strip (block_text b)
       /\ (10 < length (_extract_title doc) < 200)%nat.
Proof.
  unfold _extract_title. destruct doc as [|first_page rest]; [auto|].
  destruct (first_best _ _) as [i|]; [|auto].
  destruct (_ !! i) as [c|] eqn:Ec; [|auto].
  destruct (2 <? title_score c)%Z; [|auto]. right.
  apply list_elem_of_lookup_2, list_elem_of_omap in Ec as (b & Hb & Hc).
  apply title_candidate_spec in Hc as (Hl & Ht & Hlen).
  exists first_page, rest, b. rewrite <- Ht. auto.
Qed.

(** X24: an extractor that has processed a document in which a language was
    detected keeps that language's patterns.  A later document in which no
    language is detected, but whose first three pages contain a form pattern
    of that language, gets an empty outline. *)
Theorem stale_patterns_empty_a_later_outline (first later : Document)
    (lang : Language) :
  _detect_non_english_language (sample_text first) = Some lang ->
  _detect_non_english_language (sample_text later) = None ->
  any_in (form_patterns (MULTILINGUAL_PATTERNS lang))
         (str_lower (sample_text later)) = true ->
  let extractor := (extract_outline init first).1 in
  multilingual_patterns (extract_outline extractor later).1
  = Some (MULTILINGUAL_PATTERNS lang)
  /\ r_outline (extract_outline extractor later).2 = [].
Proof.
  intros Hfirst Hlater Hform. cbv zeta.
  unfold extract_outline at 1 3. cbn [fst snd r_outline multilingual_patterns].
  rewrite Hlater. unfold extract_outline. cbn [fst multilingual_patterns].
  rewrite Hfirst. split; [reflexivity|].
  unfold _extract_headings. cbn [multilingual_patterns].
  rewrite Hform. destruct (_ || _); reflexivity.
Qed.
End Outline1a.

Lemma stale_patterns_empty_a_later_outline_witness :
  PDFOutlineExtractor.r_outline
    (PDFOutlineExtractor.extract_outline (U := ascii_db)
       (PDFOutlineExtractor.extract_outline (U := ascii_db)
          PDFOutlineExtractor.init [french_notice]).1
       [service_note]).2 = [].
Proof.
  apply (stale_patterns_empty_a_later_outline (U := ascii_db)
           [french_notice] [service_note] french);
    vm_compute; reflexivity.
Defined.

(** ** Recommendations (1b/src/recommender.py) *)

Lemma cons_head_head (c : char) (parts : list str) (first : str)
    (rest : list str) :
  parts = first :: rest -> cons_head c parts = (c :: first) :: rest.
Proof. intros ->. reflexivity. Qed.

(** The first part of a split, started in a state that is not inside a
    separator: it is a prefix, ends where a separator starts, and has no
    sentence end followed by whitespace inside. *)
Lemma split_head_spec (s : str) :
  forall st, st <> InSeparator ->
    exists first parts rest,
      re_split_sentences st s = first :: parts
      /\ s = first ++ rest
      /\ (rest = []
          \/ exists c r,
               rest = c :: r /\ isspace c = true
               /\ match last first with
                  | Some p => is_sentence_end p = true
                  | None => st = AfterPunct
                  end)
      /\ (st = AfterPunct ->
          forall c, head first = Some c -> isspace c = false)
      /\ (forall i c d,
            first !! i = Some c -> first !! S i = Some d ->
            is_sentence_end c = true -> isspace d = false).
Proof.
  induction s as [|c s IH]; intros st Hst.
  - exists [], [], []. cbn. split; [reflexivity|]. split; [reflexivity|].
    split; [auto|]. split; [discriminate|]. discriminate.
  - assert (Hgo : (st = Plain \/ (st = AfterPunct /\ isspace c = false)) ->
        exists first parts rest,
          cons_head c (re_split_sentences
                         (if is_sentence_end c then AfterPunct else Plain) s)
          = first :: parts
          /\ c :: s = first ++ rest
          /\ (rest = []
              \/ exists c' r,
                   rest = c' :: r /\ isspace c' = true
                   /\ match last first with
                      | Some p => is_sentence_end p = true
                      | None => st = AfterPunct
                      end)
          /\ (st = AfterPunct ->
              forall c', head first = Some c' -> isspace c' = false)
          /\ (forall i c' d,
                first !! i = Some c' -> first !! S i = Some d ->
                is_sentence_end c' = true -> isspace d = false)).
    { intros Hcase.
      destruct (IH (if is_sentence_end c then AfterPunct else Plain))
        as (first & parts & rest & Hsplit & Hs & Hrest & Hhead & Hin).
      { destruct (is_sentence_end c); discriminate. }
      exists (c :: first), parts, rest.
      split; [apply cons_head_head, Hsplit|].
      split; [cbn [app]; f_equal; exact Hs|].
      split; [|split].
      - destruct Hrest as [->|(c' & r & -> & Hc' & Hlast)]; [auto|].
        right. exists c', r. split; [reflexivity|]. split; [exact Hc'|].
        destruct first as [|a first]; cbn [last] in *.
        + destruct (is_sentence_end c); [reflexivity|discriminate].
        + destruct (last (a :: first)) eqn:El; [exact Hlast|].
          apply last_None in El. discriminate.
      - intros Hafter c' Hc'. injection Hc' as <-.
        destruct Hcase as [->|[_ Hc]]; [discriminate|exact Hc].
      - intros [|i] c' d Hc' Hd He.
        + cbn in Hc', Hd. injection Hc' as <-. rewrite He in Hhead.
          apply Hhead; [reflexivity|].
          destruct first; [discriminate|]. cbn in *. exact Hd.
        + exact (Hin i c' d Hc' Hd He). }
    destruct st; [apply Hgo; auto| |congruence].
    cbn [re_split_sentences]. cbv zeta.
    destruct (isspace c) eqn:Ec.
    + exists [], (re_split_sentences InSeparator s), (c :: s).
      split; [reflexivity|]. split; [reflexivity|].
      split; [right; exists c, s; repeat split; exact Ec|].
      split; [intros _ c' Hc'; discriminate|].
      intros i c' d Hc'. discriminate.
    + apply Hgo. auto.
Qed.

(** X25: [generate_snippet] returns the first sentence of the stripped
    candidate text: a prefix that is all of it, or ends in one of [. ! ?]
    with whitespace after it, and that has no [. ! ?] followed by whitespace
    inside.  The fallback to the first 120 characters is never taken. *)
Theorem generate_snippet_is_the_first_sentence
    (current_text candidate_text : str) :
  exists rest,
    strip candidate_text = generate_snippet current_text candidate_text ++ rest
    /\ (rest = []
        \/ exists p c r,
             last (generate_snippet current_text candidate_text) = Some p
             /\ is_sentence_end p = true
             /\ rest = c :: r /\ isspace c = true)
    /\ (forall i c d,
          generate_snippet current_text candidate_text !! i = Some c ->
          generate_snippet current_text candidate_text !! S i = Some d ->
          is_sentence_end c = true -> isspace d = false).
Proof.
  unfold generate_snippet.
  destruct (split_head_spec (strip candidate_text) Plain)
    as (first & parts & rest & -> & Hs & Hrest & _ & Hin); [discriminate|].
  exists rest. split; [exact Hs|]. split; [|exact Hin].
  destruct Hrest as [->|(c & r & -> & Hc & Hlast)]; [auto|].
  right. destruct (last first) as [p|]; [|discriminate].
  exists p, c, r. auto.
Qed.

Lemma section_map_lookup (key : str * Z) (subs : list Subsection) :
  forall section_map : gmap (str * Z) str,
    fold_left
      (fun section_map sub =>
         <[ (sub_document sub, sub_page_number sub) := sub_refined_text sub ]>
           section_map)
      subs section_map !! key
    = match last_refined key subs with
      | Some text => Some text
      | None => section_map !! key
      end.
Proof.
  induction subs as [|sub subs IH]; intros section_map; [reflexivity|].
  cbn [fold_left last_refined]. rewrite IH.
  destruct (last_refined key subs); [reflexivity|].
  destruct (bool_decide_reflect
              ((sub_document sub, sub_page_number sub) = key)) as [<-|Hne].
  - apply lookup_insert_eq.
  - apply lookup_insert_ne, Hne.
Qed.

(** X26: [load_sections_from_output] returns one section for every extracted
    section, in order, with its document, title and page number; its text is
    the refined text of the last subsection with the same document and page
    number, and empty when there is none. *)
Theorem loaded_sections_take_the_last_refined_text
    (subsection_analysis : list Subsection)
    (extracted_sections : list Extracted) :
  load_sections_from_output subsection_analysis extracted_sections
  = map (fun sec =>
           mkLoaded (ext_document sec) (ext_section_title sec)
                    (default []
                       (last_refined (ext_document sec, ext_page_number sec)
                                     subsection_analysis))
                    (ext_page_number sec))
        extracted_sections.
Proof.
  unfold load_sections_from_output, section_map_of.
  apply map_ext. intros sec. cbv zeta. f_equal.
  rewrite section_map_lookup, lookup_empty.
  destruct (last_refined _ _); reflexivity.
Qed.

(** ** Titles *)

(** X27: [is_clean_title] of ranker.py never raises: a title shorter than
    five characters is refused before [title[3]] is read.  A title it
    accepts has at least five characters, three of them alphabetic. *)
Theorem ranker_is_clean_title_never_raises `{U : UnicodeDB} (title : str) :
  is_Some (Ranker.is_clean_title title)
  /\ (Ranker.is_clean_title title = Some true ->
      (5 <= length (strip title))%nat
      /\ (3 <= count_alpha (strip title))%nat).
Proof.
  unfold Ranker.is_clean_title.
  destruct (_ || _) eqn:Elen; [split; [eauto|discriminate]|].
  apply orb_false_iff in Elen as [_ Elen]. apply Nat.ltb_ge in Elen.
  destruct (bool_decide _); [split; [eauto|discriminate]|].
  destruct (existsb _ _); [split; [eauto|discriminate]|].
  destruct (strip title !! 3%nat) as [c|] eqn:E3.
  - destruct (str_isdigit _).
    + destruct (_ || _); [split; [eauto|discriminate]|].
      destruct (re_match_eol re_one_letter _); [split; [eauto|discriminate]|].
      destruct (count_alpha (strip title) <? 3)%nat eqn:Ea;
        [split; [eauto|discriminate]|].
      apply Nat.ltb_ge in Ea.
      destruct (re_match_eol re_nonletters _); split; eauto; discriminate.
    + destruct (re_match_eol re_one_letter _); [split; [eauto|discriminate]|].
      destruct (count_alpha (strip title) <? 3)%nat eqn:Ea;
        [split; [eauto|discriminate]|].
      apply Nat.ltb_ge in Ea.
      destruct (re_match_eol re_nonletters _); split; eauto; discriminate.
  - exfalso. apply lookup_ge_None in E3.
    apply (Nat.lt_irrefl 3), Nat.lt_le_trans with 5%nat; [lia|].
    eapply Nat.le_trans; [exact Elen|exact E3].
Qed.

(** X28: the title of [extract_outline] of 1b is empty exactly when the
    first page has no text block of 11 to 199 characters; otherwise it is
    the stripped text of such a block. *)
Theorem title_1b_is_a_block_of_the_first_page (first_page : Page) :
  (omap title_candidate (page_blocks first_page) = []
   /\ extract_title first_page = [])
  \/ exists b,
       b ∈ page_blocks first_page
       /\ block_lines b <> None
       /\ extract_title first_page = strip (block_text b)
       /\ (10 < length (extract_title first_page) < 200)%nat.
Proof.
  unfold extract_title.
  destruct (first_best _ _) as [i|] eqn:E.
  - right. apply first_best_lt, lookup_lt_is_Some in E as [c Hc].
    rewrite Hc. cbn [fmap option_fmap option_map default].
    apply list_elem_of_lookup_2, list_elem_of_omap in Hc as (b & Hb & Hc).
    apply title_candidate_spec in Hc as (Hl & Ht & Hlen).
    exists b. rewrite <- Ht. auto.
  - left. apply first_best_None in E. auto.
Qed.
